(** * Notification delivery pipeline of the blog platform

    A shallow embedding of the backend services that take a "blog
    created" fact from the queue to a versioned marker, fan it out to
    the live subscriptions and track what every user has seen:

    - [blog.service.ts]                         ([BlogService])
    - [notification/queue/notification-queue.service.ts]
                                                ([NotificationQueueService])
    - [notification/notification.service.ts]    ([NotificationService])
    - [notification/notification.resolver.ts]   ([NotificationResolver])
    - [notification/worker/notification-worker.service.ts]
                                                ([NotificationWorkerService])
    - [auth/auth.resolver.ts]                   ([AuthResolver])

    Instants ([Date]) are milliseconds since the epoch, as [Z].  The
    relational store, the Redis server and the in-process PubSub are
    explicit state; [async] methods are computations in a state and
    exception monad, one [bind] per [await]. *)

From Stdlib Require Import ZArith.
From stdpp Require Import gmap strings list fin_maps sorting.

Local Open Scope string_scope.
Local Open Scope Z_scope.
#[local] Set Warnings "-register-all".

(** ** JavaScript values

    The payloads that cross the PubSub and the Redis channel are
    untyped at run time (the resolver takes [payload: any]), so they
    are modelled as dynamic values.  Numbers are the integers the
    store and the GraphQL [Int] type produce. *)
Module Js.

Inductive Value : Type :=
| Undefined
| Null
| Bool (b : bool)
| Num (n : Z)
| Str (s : string)
| IsoStr (t : Z)                         (* the string [new Date(t).toISOString()] *)
| Date (t : Z)
| Obj (fields : list (string * Value))
| InvalidDate.                           (* a [Date] whose time value is [NaN] *)

Inductive TypeTag := TUndefined | TObject | TBoolean | TNumber | TString.

Definition typeof (v : Value) : TypeTag :=
  match v with
  | Undefined => TUndefined
  | Null => TObject
  | Bool _ => TBoolean
  | Num _ => TNumber
  | Str _ | IsoStr _ => TString
  | Date _ | Obj _ | InvalidDate => TObject
  end.

Definition isNumber (v : Value) : bool :=
  match typeof v with TNumber => true | _ => false end.

Definition isObject (v : Value) : bool :=
  match typeof v with TObject => true | _ => false end.

Definition truthy (v : Value) : bool :=
  match v with
  | Undefined | Null => false
  | Bool b => b
  | Num n => negb (n =? 0)
  | Str s => negb (String.eqb s "")
  | IsoStr _ | Date _ | Obj _ | InvalidDate => true
  end.

Fixpoint assoc (k : string) (fields : list (string * Value)) : Value :=
  match fields with
  | [] => Undefined
  | (k', v) :: rest => if String.eqb k k' then v else assoc k rest
  end.

(** [v.k] and [v?.k].  Every plain access in the modelled code is
    behind a truthiness test of [v], so the two coincide there. *)
Definition get (k : string) (v : Value) : Value :=
  match v with
  | Obj fields => assoc k fields
  | _ => Undefined
  end.

(** [a || b] *)
Definition or (a b : Value) : Value := if truthy a then a else b.

(** [v instanceof Date], which an Invalid Date passes. *)
Definition instanceofDate (v : Value) : bool :=
  match v with Date _ | InvalidDate => true | _ => false end.

(** [v > c] and [v <= c] for a value already known to be a number
    ([false] plays no role otherwise: the callers test [typeof]). *)
Definition gt (v : Value) (c : Z) : bool :=
  match v with Num n => c <? n | _ => false end.

Definition le (v : Value) (c : Z) : bool :=
  match v with Num n => n <=? c | _ => false end.

(** [{ ...o, k: v }]: the last writer of a key wins. *)
Definition setField (k : string) (v : Value) (o : Value) : Value :=
  match o with
  | Obj fields =>
      Obj ((k, v) :: List.filter (fun kv => negb (String.eqb k (fst kv))) fields)
  | _ => Obj [(k, v)]
  end.

(** [v.k] where nothing guards [v]: a [TypeError] on [undefined] and
    [null]. *)
Definition prop (k : string) (v : Value) : option Value :=
  match v with
  | Undefined | Null => None
  | _ => Some (get k v)
  end.

(** [d.toISOString()]: a [TypeError] on anything but a [Date], and a
    [RangeError] on an Invalid Date. *)
Definition toISOString (v : Value) : option Value :=
  match v with Date t => Some (IsoStr t) | _ => None end.

(** [{ ...o, k: v }] with the key kept where [o] has it and added at
    the end where it has not.  (Spreading a string would bring its
    characters along under numeric keys; nothing here reads such a
    key, and they are left out.) *)
Fixpoint putField (k : string) (v : Value) (fields : list (string * Value))
  : list (string * Value) :=
  match fields with
  | [] => [(k, v)]
  | (k', v') :: rest =>
      if String.eqb k k' then (k, v) :: rest else (k', v') :: putField k v rest
  end.

Definition put (k : string) (v : Value) (o : Value) : Value :=
  match o with
  | Obj fields => Obj (putField k v fields)
  | _ => Obj [(k, v)]
  end.

(** [new Date(v)].  It never throws: what is not an instant gives an
    Invalid Date, as [undefined], a plain object and a number out of
    range do.  [parse] is the engine's [Date.parse] on the strings
    that are not the ISO string of an instant; what it makes of a
    string in another format is left to the implementation, so it is a
    parameter. *)
Definition newDate (parse : string -> option Z) (v : Value) : Value :=
  match v with
  | IsoStr t | Date t => Date t
  | Num n => if Z.abs n <=? 8640000000000000 then Date n else InvalidDate
  | Null => Date 0
  | Bool b => Date (if b then 1 else 0)
  | Str s => match parse s with Some t => Date t | None => InvalidDate end
  | Undefined | Obj _ | InvalidDate => InvalidDate
  end.

(** [JSON.parse(JSON.stringify(v))]: fields holding [undefined] are
    dropped, dates become their ISO strings and an Invalid Date
    becomes [null]. *)
Fixpoint json (v : Value) : Value :=
  match v with
  | Obj fields =>
      Obj ((fix each (fs : list (string * Value)) : list (string * Value) :=
              match fs with
              | [] => []
              | (k, x) :: rest =>
                  match x with
                  | Undefined => each rest
                  | _ => (k, json x) :: each rest
                  end
              end) fields)
  | Date t => IsoStr t
  | InvalidDate => Null
  | _ => v
  end.

End Js.

(** ** Entities *)

(** A row of [users], which is also the [User] entity as loaded: the
    [password] column holds the bcrypt hash and is selected like the
    others. *)
Record User := {
  u_id : string;
  u_email : string;
  u_password : string;
  u_username : string;
  u_createdAt : option Z;                (* [None]: the column came back empty *)
  u_updatedAt : Z;
}.

(** A row of [blogs]. *)
Record BlogRow := {
  br_id : string;
  br_title : string;
  br_content : string;
  br_authorId : string;
  br_createdAt : Z;
  br_updatedAt : Z;
}.

(** The [Blog] entity as loaded, with its [author] relation. *)
Record Blog := {
  b_row : BlogRow;
  b_author : option User;
}.

Definition Blog_id (b : Blog) := br_id (b_row b).
Definition Blog_createdAt (b : Blog) := br_createdAt (b_row b).

(** A row of [notification_markers]; [mr_version] is the
    [PrimaryGeneratedColumn]. *)
Record MarkerRow := {
  mr_version : Z;
  mr_blogId : string;
  mr_createdAt : Z;
}.

(** The [NotificationMarker] entity as loaded, with [blog] and
    [blog.author]. *)
Record NotificationMarker := {
  markerVersion : Z;
  blogId : string;
  blog : option Blog;
  createdAt : Z;
}.

Record UserNotificationState := {
  userId : string;
  lastSeenMarkerVersion : Z;
  updatedAt : Z;
}.

Record BlogCreatedEvent := {
  ev_blogId : string;
  ev_title : string;
  ev_authorId : string;
  ev_createdAt : Z;
}.

Record CreateBlogInput := {
  in_title : string;
  in_content : string;
}.

(** One live GraphQL subscription: the [cursor] argument it was opened
    with ([None] for [undefined] and [null]) and what it was sent. *)
Record Listener := {
  l_cursor : option Z;
  l_received : list Js.Value;
}.

(** ** The world the services run in *)

Record Database := {
  users : gmap string User;
  blogs : gmap string BlogRow;
  markers : list MarkerRow;              (* in commit order *)
  markerSeq : Z;                         (* next value of the auto-increment *)
  userStates : gmap string UserNotificationState;
}.

(** The Redis server as its clients see it.  The clients are created
    with [maxRetriesPerRequest: null] and a [retryStrategy] that never
    gives up, so a command issued while the server cannot be reached
    is kept and sent once the connection is back: until then the call
    is pending, and a pending call is no step of this model.  The two
    flags say how the commands that are answered are answered: with
    [queueUp] the list commands are carried out, without it they are
    rejected at once (an error reply of the server, or a client that
    was closed); [busUp] says the same of [PUBLISH]. *)
Record RedisServer := {
  queue : list BlogCreatedEvent;         (* the list [blog_created_events], left end first *)
  channel : list Js.Value;               (* messages sent on [new_blog_notifications] *)
  queueUp : bool;
  busUp : bool;
}.

Inductive Level := LError | LWarn | LLog.

Record World := {
  db : Database;
  redis : RedisServer;
  listeners : list Listener;             (* asyncIterators on [newNotificationMarker] *)
  pubsubUp : bool;
  isProcessing : bool;                   (* the worker's flag *)
  processingInterval : bool;             (* a [setTimeout] of the worker is pending *)
  console : list (Level * string);       (* newest first *)
  now : Z;
}.

Definition set_db (d : Database) (w : World) : World :=
  {| db := d; redis := redis w; listeners := listeners w; pubsubUp := pubsubUp w;
     isProcessing := isProcessing w;
     processingInterval := processingInterval w; console := console w; now := now w |}.

Definition set_redis (r : RedisServer) (w : World) : World :=
  {| db := db w; redis := r; listeners := listeners w; pubsubUp := pubsubUp w;
     isProcessing := isProcessing w;
     processingInterval := processingInterval w; console := console w; now := now w |}.

Definition set_listeners (ls : list Listener) (w : World) : World :=
  {| db := db w; redis := redis w; listeners := ls; pubsubUp := pubsubUp w;
     isProcessing := isProcessing w;
     processingInterval := processingInterval w; console := console w; now := now w |}.

Definition set_console (c : list (Level * string)) (w : World) : World :=
  {| db := db w; redis := redis w; listeners := listeners w; pubsubUp := pubsubUp w;
     isProcessing := isProcessing w;
     processingInterval := processingInterval w; console := c; now := now w |}.

Definition set_isProcessing (b : bool) (w : World) : World :=
  {| db := db w; redis := redis w; listeners := listeners w; pubsubUp := pubsubUp w;
     isProcessing := b; processingInterval := processingInterval w;
     console := console w; now := now w |}.

Definition set_processingInterval (b : bool) (w : World) : World :=
  {| db := db w; redis := redis w; listeners := listeners w; pubsubUp := pubsubUp w;
     isProcessing := isProcessing w; processingInterval := b;
     console := console w; now := now w |}.

(** ** Computations: state and exceptions *)

Inductive Exn :=
| NotFoundException (msg : string)
| Error (msg : string)
| TypeError
| ConnectionError.                       (* what a rejected Redis command rejects with *)

Inductive Result (A : Type) :=
| Ok (a : A)
| Throw (e : Exn).
Arguments Ok {A} a.
Arguments Throw {A} e.

Definition M (A : Type) : Type := World -> Result A * World.

Definition ret {A} (a : A) : M A := fun w => (Ok a, w).
Definition throw {A} (e : Exn) : M A := fun w => (Throw e, w).

Definition bind {A B} (m : M A) (k : A -> M B) : M B :=
  fun w => match m w with
           | (Ok a, w') => k a w'
           | (Throw e, w') => (Throw e, w')
           end.

(** [try { m } catch (e) { h e }] *)
Definition tryCatch {A} (m : M A) (h : Exn -> M A) : M A :=
  fun w => match m w with
           | (Ok a, w') => (Ok a, w')
           | (Throw e, w') => h e w'
           end.

(** [try { m } finally { f }], for an [f] that does not throw. *)
Definition finally {A} (m : M A) (f : World -> World) : M A :=
  fun w => let '(r, w') := m w in (r, f w').

Definition gets {A} (f : World -> A) : M A := fun w => (Ok (f w), w).
Definition modify (f : World -> World) : M unit := fun w => (Ok tt, f w).

Notation "'let*' x := m 'in' k" := (bind m (fun x => k))
  (at level 10, x name, m at level 100, k at level 200).
Notation "'let*' ' p := m 'in' k" := (bind m (fun p => k))
  (at level 10, p strict pattern, m at level 100, k at level 200).
Notation "m ;; k" := (bind m (fun _ => k))
  (at level 100, k at level 200, right associativity).

Definition consoleLine (lv : Level) (msg : string) : M unit :=
  modify (fun w => set_console ((lv, msg) :: console w) w).

Definition resultOf {A} (x : Result A * World) : Result A := fst x.
Definition worldOf {A} (x : Result A * World) : World := snd x.

(** [m] leaves the part [f] of the world as it found it. *)
Definition keeps {A B} (f : World → B) (m : M A) : Prop :=
  ∀ w, f (worldOf (m w)) = f w.

(** ** Connection options shared by the three Redis clients *)
Module RedisOptions.

(** [retryStrategy: (times) => Math.min(times * 50, 30000)], the delay
    in milliseconds before reconnection attempt [times]. *)
Definition retryStrategy (times : Z) : Z := Z.min (times * 50) 30000.

End RedisOptions.

(** ** [NotificationQueueService] *)
Module NotificationQueueService.

(** [redis.lpush(QUEUE_NAME, JSON.stringify(event))], carried out or
    rejected. *)
Definition lpush (event : BlogCreatedEvent) : M unit :=
  fun w =>
    let r := redis w in
    if queueUp r
    then (Ok tt, set_redis {| queue := event :: queue r; channel := channel r;
                              queueUp := queueUp r; busUp := busUp r |} w)
    else (Throw ConnectionError, w).

(** [redis.brpop(QUEUE_NAME, timeout)]: the right end of the list, or
    nothing once the bounded wait is over; or the command is
    rejected. *)
Definition brpop (timeout : Z) : M (option BlogCreatedEvent) :=
  fun w =>
    let r := redis w in
    if queueUp r
    then match rev (queue r) with
         | [] => (Ok None, w)
         | event :: rest =>
             (Ok (Some event),
              set_redis {| queue := rev rest; channel := channel r;
                           queueUp := queueUp r; busUp := busUp r |} w)
         end
    else (Throw ConnectionError, w).

Definition enqueueBlogCreatedEvent (event : BlogCreatedEvent) : M unit :=
  tryCatch (lpush event)
    (fun error =>
       consoleLine LError "Error enqueueing blog created event:" ;;
       throw error).

Definition dequeueBlogCreatedEvent (timeout : Z) : M (option BlogCreatedEvent) :=
  tryCatch
    (let* result := brpop timeout in
     match result with
     | Some event => ret (Some event)
     | None => ret None
     end)
    (fun error =>
       consoleLine LError "Error dequeueing blog created event:" ;;
       ret None).

(** [redis.llen(QUEUE_NAME)], carried out or rejected. *)
Definition llen : M Z :=
  fun w =>
    if queueUp (redis w)
    then (Ok (Z.of_nat (length (queue (redis w)))), w)
    else (Throw ConnectionError, w).

Definition getQueueLength : M Z :=
  tryCatch llen
    (fun error =>
       consoleLine LError "Error getting queue length:" ;;
       ret 0).

End NotificationQueueService.

(** ** [BlogService] *)
Module BlogService.

(** Loading a [blogs] row with [relations: ['author']]. *)
Definition withAuthor (d : Database) (row : BlogRow) : Blog :=
  {| b_row := row; b_author := users d !! br_authorId row |}.

Definition repositoryFindOne (id : string) : M (option Blog) :=
  gets (fun w => withAuthor (db w) <$> blogs (db w) !! id).

(** [blogRepository.save(blog)] of a new entity; [newId] is the uuid
    the store generates for the row. *)
Definition newRow (newId : string) (input : CreateBlogInput) (authorId : string)
    (today : Z) : BlogRow :=
  {| br_id := newId; br_title := in_title input; br_content := in_content input;
     br_authorId := authorId; br_createdAt := today; br_updatedAt := today |}.

Definition repositorySave (newId : string) (input : CreateBlogInput) (authorId : string)
  : M BlogRow :=
  fun w =>
    let d := db w in
    let row := newRow newId input authorId (now w) in
    (Ok row,
     set_db {| users := users d; blogs := <[newId := row]> (blogs d); markers := markers d;
               markerSeq := markerSeq d; userStates := userStates d |} w).

Definition createdEvent (b : Blog) : BlogCreatedEvent :=
  {| ev_blogId := Blog_id b; ev_title := br_title (b_row b);
     ev_authorId := br_authorId (b_row b); ev_createdAt := Blog_createdAt b |}.

Definition create (createBlogInput : CreateBlogInput) (author : User) (newId : string)
  : M Blog :=
  let* savedBlog := repositorySave newId createBlogInput (u_id author) in
  let* blogWithAuthor := repositoryFindOne (br_id savedBlog) in
  match blogWithAuthor with
  | None => throw (Error "Failed to load blog with author")
  | Some blogWithAuthor =>
      NotificationQueueService.enqueueBlogCreatedEvent (createdEvent blogWithAuthor) ;;
      ret blogWithAuthor
  end.

Definition findOne (id : string) : M Blog :=
  let* blog := repositoryFindOne id in
  match blog with
  | None => throw (NotFoundException "Blog with ID not found")
  | Some blog => ret blog
  end.

(** [order: { createdAt: 'DESC' }] *)
Definition createdDesc (a b : Blog) : Prop := Blog_createdAt b ≤ Blog_createdAt a.

#[global] Instance createdDesc_dec a b : Decision (createdDesc a b).
Proof. unfold createdDesc. apply _. Defined.


(** [blogRepository.remove(blog)].  [notification_markers.blogId] is a
    [ManyToOne] join column on [blogs] with no [onDelete], so the store
    refuses to delete a blog a marker still points at. *)
Definition repositoryRemove (blog : Blog) : M unit :=
  fun w =>
    let d := db w in
    if existsb (fun row => String.eqb (mr_blogId row) (Blog_id blog)) (markers d)
    then (Throw (Error "violates foreign key constraint"), w)
    else (Ok tt,
          set_db {| users := users d; blogs := delete (Blog_id blog) (blogs d);
                    markers := markers d; markerSeq := markerSeq d;
                    userStates := userStates d |} w).

(** The [UnauthorizedException] is told from other errors by its
    message. *)
Definition remove (id : string) (user : User) : M bool :=
  let* blog := findOne id in
  if negb (String.eqb (br_authorId (b_row blog)) (u_id user))
  then throw (Error "You can only delete your own blogs")
  else
    repositoryRemove blog ;;
    ret true.

End BlogService.

(** ** [NotificationResolver]: the subscription's filter and resolve *)
Module NotificationResolver.

Definition payloadObject (markerVersion blog createdAt cursor : Js.Value) : Js.Value :=
  Js.Obj [("markerVersion", markerVersion); ("blog", blog);
          ("createdAt", createdAt); ("cursor", cursor)].

(** [createDefaultPayload()], at the instant [today] of the call. *)
Definition createDefaultPayload (today : Z) : Js.Value :=
  payloadObject (Js.Num 0) Js.Null (Js.Date today) (Js.Num 0).

Definition safeResolvePayload (today : Z) (payload : Js.Value) : Js.Value :=
  if negb (Js.truthy payload) || negb (Js.isObject payload)
  then createDefaultPayload today
  else
    let hasMarkerVersion :=
      Js.isNumber (Js.get "markerVersion" payload) && Js.gt (Js.get "markerVersion" payload) 0 in
    let hasBlog :=
      Js.truthy (Js.get "blog" payload) && Js.isObject (Js.get "blog" payload) in
    let hasCreatedAt := Js.instanceofDate (Js.get "createdAt" payload) in
    if negb hasMarkerVersion || negb hasBlog || negb hasCreatedAt
    then createDefaultPayload today
    else payloadObject (Js.get "markerVersion" payload) (Js.get "blog" payload)
                       (Js.get "createdAt" payload) (Js.get "markerVersion" payload).

(** The [{ newNotificationMarker: payload }] wrapping, undone when present. *)
Definition unwrap (payload : Js.Value) : Js.Value :=
  match Js.get "newNotificationMarker" payload with
  | Js.Undefined => payload
  | inner => inner
  end.

Definition filter (payload : Js.Value) (cursor : option Z) : bool :=
  let actualPayload := unwrap payload in
  match cursor with
  | Some cursor =>
      let markerVersion := Js.get "markerVersion" actualPayload in
      if negb (Js.isNumber markerVersion) then false
      else Js.gt markerVersion cursor
  | None => true
  end.

Definition resolve (today : Z) (payload : Js.Value) : Js.Value :=
  let actualPayload := unwrap payload in
  let resolvedPayload := safeResolvePayload today actualPayload in
  if negb (Js.truthy (Js.get "cursor" resolvedPayload))
     && Js.gt (Js.get "markerVersion" resolvedPayload) 0
  then Js.setField "cursor" (Js.get "markerVersion" resolvedPayload) resolvedPayload
  else resolvedPayload.

(** What one subscription does with a payload the PubSub hands it. *)
Definition offer (today : Z) (payload : Js.Value) (l : Listener) : Listener :=
  if filter payload (l_cursor l)
  then {| l_cursor := l_cursor l; l_received := l_received l ++ [resolve today payload] |}
  else l.

(** [subscribeToNewMarkers(cursor)]: a new asyncIterator on the
    service's PubSub, which always exists.  The result is the place of
    the subscription among the live ones. *)
Definition subscribeToNewMarkers (cursor : option Z) : M nat :=
  fun w =>
    (Ok (length (listeners w)),
     set_listeners (listeners w ++ [{| l_cursor := cursor; l_received := [] |}]) w).

End NotificationResolver.

(** ** [NotificationService] *)
Module NotificationService.

(** *** Entities as the run-time objects that are published *)

Definition userObject (u : User) : Js.Value :=
  Js.Obj [("id", Js.Str (u_id u)); ("email", Js.Str (u_email u));
          ("password", Js.Str (u_password u));
          ("username", Js.Str (u_username u));
          ("createdAt", match u_createdAt u with Some t => Js.Date t | None => Js.Null end);
          ("updatedAt", Js.Date (u_updatedAt u))].

Definition authorObject (a : option User) : Js.Value :=
  match a with Some u => userObject u | None => Js.Null end.

(** [{ ...blog, author: blog.author, authorId: blog.authorId || blog.author?.id }] *)
Definition blogObject (b : Blog) : Js.Value :=
  Js.Obj [("id", Js.Str (Blog_id b)); ("title", Js.Str (br_title (b_row b)));
          ("content", Js.Str (br_content (b_row b)));
          ("createdAt", Js.Date (Blog_createdAt b));
          ("updatedAt", Js.Date (br_updatedAt (b_row b)));
          ("author", authorObject (b_author b));
          ("authorId", Js.or (Js.Str (br_authorId (b_row b)))
                             (Js.get "id" (authorObject (b_author b))))].

Definition markerPayload (m : NotificationMarker) (b : Blog) : Js.Value :=
  Js.Obj [("markerVersion", Js.Num (markerVersion m)); ("blog", blogObject b);
          ("createdAt", Js.Date (createdAt m)); ("cursor", Js.Num (markerVersion m))].

(** *** Publishing *)

(** [pubSub.publish('newNotificationMarker', payload)]: every current
    asyncIterator is handed the payload. *)
Definition pubSubPublish (payload : Js.Value) : M unit :=
  fun w =>
    if pubsubUp w
    then (Ok tt, set_listeners (map (NotificationResolver.offer (now w) payload) (listeners w)) w)
    else (Throw (Error "PubSub publish failed"), w).

Definition safePublishMarker (payload : Js.Value) : M unit :=
  if negb (Js.truthy payload)
  then throw (Error "Cannot publish null or undefined payload")
  else if negb (Js.isNumber (Js.get "markerVersion" payload))
          || Js.le (Js.get "markerVersion" payload) 0
  then throw (Error "Invalid markerVersion. Must be a positive number.")
  else if negb (Js.truthy (Js.get "blog" payload))
          || negb (Js.isObject (Js.get "blog" payload))
  then throw (Error "Invalid blog: must be a valid Blog object")
  else if negb (Js.truthy (Js.get "id" (Js.get "blog" payload)))
  then throw (Error "Invalid blog: missing id field")
  else
    let authorId := Js.or (Js.get "id" (Js.get "author" (Js.get "blog" payload)))
                          (Js.get "authorId" (Js.get "blog" payload)) in
    if negb (Js.truthy authorId)
    then throw (Error "Invalid blog: missing author information (author.id or authorId)")
    else if negb (Js.instanceofDate (Js.get "createdAt" payload))
    then throw (Error "Invalid createdAt: must be a Date object")
    else
      tryCatch (pubSubPublish payload)
        (fun error =>
           consoleLine LError "Error publishing to local PubSub:" ;;
           throw error).

(** The object [safePublishToRedis] serializes; [None] where building
    it raises a [TypeError]. *)
Definition redisAuthor (author : Js.Value) : option Js.Value :=
  if Js.truthy author
  then
    created ← Js.prop "createdAt" author ≫= Js.toISOString;
    updated ← Js.prop "updatedAt" author ≫= Js.toISOString;
    Some (Js.Obj [("id", Js.get "id" author); ("email", Js.get "email" author);
                  ("username", Js.get "username" author);
                  ("createdAt", created); ("updatedAt", updated)])
  else Some Js.Undefined.

Definition redisPayload (payload : Js.Value) : option Js.Value :=
  blog ← Js.prop "blog" payload;
  id ← Js.prop "id" blog;
  created ← Js.toISOString (Js.get "createdAt" blog);
  updated ← Js.toISOString (Js.get "updatedAt" blog);
  author ← redisAuthor (Js.get "author" blog);
  stamp ← Js.toISOString (Js.get "createdAt" payload);
  Some (Js.Obj [("markerVersion", Js.get "markerVersion" payload);
                ("blog", Js.Obj [("id", id); ("title", Js.get "title" blog);
                                 ("content", Js.get "content" blog);
                                 ("createdAt", created); ("updatedAt", updated);
                                 ("authorId", Js.get "authorId" blog);
                                 ("author", author)]);
                ("createdAt", stamp);
                ("cursor", Js.or (Js.get "cursor" payload) (Js.get "markerVersion" payload))]).

(** [redis.publish(NOTIFICATION_CHANNEL, message)], carried out or
    rejected. *)
Definition redisPublish (message : Js.Value) : M unit :=
  fun w =>
    let r := redis w in
    if busUp r
    then (Ok tt, set_redis {| queue := queue r; channel := channel r ++ [message];
                              queueUp := queueUp r; busUp := busUp r |} w)
    else (Throw ConnectionError, w).

Definition safePublishToRedis (payload : Js.Value) : M unit :=
  tryCatch
    (match redisPayload payload with
     | None => throw TypeError
     | Some message => redisPublish message
     end)
    (fun error => consoleLine LError "Error publishing to Redis:").

(** *** The subscriber of the Redis channel *)

(** [{ ...author, id: author.id, createdAt: new Date(...), updatedAt:
    new Date(...) }], or [undefined] for a missing author. *)
Definition rebuildAuthor (parse : string -> option Z) (author : Js.Value) : Js.Value :=
  if Js.truthy author
  then
    Js.put "updatedAt" (Js.newDate parse (Js.get "updatedAt" author))
      (Js.put "createdAt" (Js.newDate parse (Js.get "createdAt" author))
         (Js.put "id" (Js.get "id" author) author))
  else Js.Undefined.

(** The payload the handler builds from a parsed message, or [None]
    for the [TypeError] that reading [parsedMarker.markerVersion] and
    [parsedMarker.blog.createdAt] raises on [null] and [undefined];
    every other read is of a value that is there, and [new Date] takes
    whatever it is given. *)
Definition rebuild (parse : string -> option Z) (parsedMarker : Js.Value)
  : option Js.Value :=
  blogCreatedAt ← Js.prop "blog" parsedMarker ≫= Js.prop "createdAt";
  let blog := Js.get "blog" parsedMarker in
  Some (Js.Obj
          [("markerVersion", Js.get "markerVersion" parsedMarker);
           ("blog",
            Js.put "author" (rebuildAuthor parse (Js.get "author" blog))
              (Js.put "authorId" (Js.get "authorId" blog)
                 (Js.put "updatedAt" (Js.newDate parse (Js.get "updatedAt" blog))
                    (Js.put "createdAt" (Js.newDate parse blogCreatedAt) blog))));
           ("createdAt", Js.newDate parse (Js.get "createdAt" parsedMarker));
           ("cursor", Js.or (Js.get "markerVersion" parsedMarker)
                            (Js.get "cursor" parsedMarker))]).

(** The ['message'] handler of the subscriber connection; [parsed] is
    what [JSON.parse] makes of the message, [None] when it throws. *)
Definition onMessage (parse : string -> option Z) (channel : string)
    (parsed : option Js.Value) : M unit :=
  if String.eqb channel "new_blog_notifications"
  then
    tryCatch
      (match parsed ≫= rebuild parse with
       | None => throw TypeError
       | Some markerPayload => safePublishMarker markerPayload
       end)
      (fun error => consoleLine LError "Error parsing or publishing marker message:")
  else ret tt.

(** *** The marker repository *)

(** The foreign key of [notification_markers.blogId]: a row of
    [blogs] has this id, as the key it is stored under or in its [id]
    column (one and the same in a table [repositorySave] has
    written). *)
Definition blogStored (d : Database) (id : string) : bool :=
  existsb (fun kv => String.eqb (fst kv) id || String.eqb (br_id (snd kv)) id)
          (map_to_list (blogs d)).

(** [markerRepository.save(marker)] of a new entity, one [INSERT].
    The store takes the next value of the sequence behind the
    [PrimaryGeneratedColumn] for the row and then checks the foreign
    key: the row is committed with that value, or the insert is
    refused.  The sequence is outside the transaction, so a refused
    insert does not give its value back. *)
Definition markerSave (blog : Blog) : M MarkerRow :=
  fun w =>
    let d := db w in
    let row := {| mr_version := markerSeq d; mr_blogId := Blog_id blog;
                  mr_createdAt := now w |} in
    if blogStored d (Blog_id blog)
    then (Ok row,
          set_db {| users := users d; blogs := blogs d; markers := markers d ++ [row];
                    markerSeq := markerSeq d + 1; userStates := userStates d |} w)
    else (Throw (Error "violates foreign key constraint"),
          set_db {| users := users d; blogs := blogs d; markers := markers d;
                    markerSeq := markerSeq d + 1; userStates := userStates d |} w).

(** A row with [relations: ['blog', 'blog.author']] (left joins). *)
Definition withBlog (d : Database) (row : MarkerRow) : NotificationMarker :=
  {| markerVersion := mr_version row; blogId := mr_blogId row;
     blog := BlogService.withAuthor d <$> blogs d !! mr_blogId row;
     createdAt := mr_createdAt row |}.

Definition markerFindOne (version : Z) : M (option NotificationMarker) :=
  gets (fun w =>
          withBlog (db w) <$>
            List.find (fun row => mr_version row =? version) (markers (db w))).

Definition setBlog (b : Blog) (m : NotificationMarker) : NotificationMarker :=
  {| markerVersion := markerVersion m; blogId := blogId m; blog := Some b;
     createdAt := createdAt m |}.

(** [if (blog.author && !blog.authorId) blog.authorId = blog.author.id] *)
Definition ensureAuthorId (b : Blog) : Blog :=
  match b_author b with
  | Some author =>
      if String.eqb (br_authorId (b_row b)) ""
      then {| b_row := {| br_id := br_id (b_row b); br_title := br_title (b_row b);
                          br_content := br_content (b_row b); br_authorId := u_id author;
                          br_createdAt := br_createdAt (b_row b);
                          br_updatedAt := br_updatedAt (b_row b) |};
              b_author := b_author b |}
      else b
  | None => b
  end.

(** *** [createMarker], one definition per [await] *)

(** The first [findOne] and the checks on what it returns: the marker
    and its blog, still to be checked for an author. *)
Definition loadMarker (savedMarker : MarkerRow) : M (NotificationMarker * Blog) :=
  let* markerWithBlog := markerFindOne (mr_version savedMarker) in
  match markerWithBlog with
  | None => throw (Error "Failed to load marker with blog")
  | Some markerWithBlog =>
      match blog markerWithBlog with
      | None => throw (Error "Failed to load blog relation for marker")
      | Some b => ret (markerWithBlog, b)
      end
  end.

(** The second [findOne], made only when the author did not load. *)
Definition reloadAuthor (savedMarker : MarkerRow) (markerWithBlog : NotificationMarker)
    (b : Blog) : M NotificationMarker :=
  match b_author b with
  | Some _ => ret (setBlog (ensureAuthorId b) markerWithBlog)
  | None =>
      consoleLine LWarn "Blog author not loaded, attempting to reload..." ;;
      let* reloadedMarker := markerFindOne (mr_version savedMarker) in
      match reloadedMarker ≫= blog with
      | Some b' =>
          match b_author b' with
          | Some _ => ret (setBlog (ensureAuthorId b') markerWithBlog)
          | None => throw (Error "Failed to load blog author relation")
          end
      | None => throw (Error "Failed to load blog author relation")
      end
  end.

Definition payloadOf (m : NotificationMarker) : Js.Value :=
  match blog m with
  | Some b => markerPayload m b
  | None => Js.Undefined
  end.

Definition createMarker (blog : Blog) : M NotificationMarker :=
  let* savedMarker := markerSave blog in
  let* '(markerWithBlog, b) := loadMarker savedMarker in
  let* markerWithBlog := reloadAuthor savedMarker markerWithBlog b in
  safePublishMarker (payloadOf markerWithBlog) ;;
  safePublishToRedis (payloadOf markerWithBlog) ;;
  ret markerWithBlog.

(** *** The read-cursor repository *)

Definition stateFindOne (id : string) : M (option UserNotificationState) :=
  gets (fun w => userStates (db w) !! id).

(** [userStateRepository.save(userState)], for the row of a user of
    the [users] table: the resolvers that lead here are behind the
    [JwtAuthGuard], which passes on the user [validateUser] has just
    read, and nothing deletes a user, so the foreign key of [userId]
    is not in the way.  A row that is not there is inserted; a row
    whose cursor changes is updated and its [UpdateDateColumn]
    refreshed; a save that changes nothing writes nothing. *)
Definition stateSave (id : string) (lastSeen : Z) : M UserNotificationState :=
  fun w =>
    let d := db w in
    let saved := {| userId := id; lastSeenMarkerVersion := lastSeen; updatedAt := now w |} in
    let written :=
      set_db {| users := users d; blogs := blogs d; markers := markers d;
                markerSeq := markerSeq d; userStates := <[id := saved]> (userStates d) |} w in
    match userStates d !! id with
    | Some stored =>
        if lastSeenMarkerVersion stored =? lastSeen then (Ok stored, w)
        else (Ok saved, written)
    | None => (Ok saved, written)
    end.

(** The cursor row of a user, created at 0 when there is none. *)
Definition stateOrCreate (id : string) : M UserNotificationState :=
  let* userState := stateFindOne id in
  match userState with
  | Some userState => ret userState
  | None => stateSave id 0
  end.

(** *** Queries *)

Definition versionAsc (a b : NotificationMarker) : Prop :=
  markerVersion a ≤ markerVersion b.
Definition versionDesc (a b : NotificationMarker) : Prop :=
  markerVersion b ≤ markerVersion a.

#[global] Instance versionAsc_dec a b : Decision (versionAsc a b).
Proof. unfold versionAsc. apply _. Defined.
#[global] Instance versionDesc_dec a b : Decision (versionDesc a b).
Proof. unfold versionDesc. apply _. Defined.

(** [markerVersion > :lastSeenMarkerVersion] *)
Definition newerThan (lastSeen : Z) (m : NotificationMarker) : bool :=
  lastSeen <? markerVersion m.

(** [blog.createdAt > :userCreatedAt] over the left join: no blog, no match. *)
Definition blogAfter (userCreatedAt : Z) (m : NotificationMarker) : bool :=
  match blog m with
  | Some b => userCreatedAt <? Blog_createdAt b
  | None => false
  end.

Definition allLoaded (d : Database) : list NotificationMarker :=
  map (withBlog d) (markers d).

Definition getUnreadMarkers (user : User) : M (list NotificationMarker) :=
  let* userState := stateOrCreate (u_id user) in
  gets (fun w =>
          merge_sort versionAsc
            (List.filter (newerThan (lastSeenMarkerVersion userState)) (allLoaded (db w)))).

(** [userRepository.findOne({ where: { id } })], and the guard on what
    it returns: the registration instant, if there is one. *)
Definition freshCreatedAt (id : string) : M (option Z) :=
  gets (fun w => users (db w) !! id ≫= u_createdAt).

Definition getAllMarkers (user : User) : M (list NotificationMarker) :=
  let* freshUser := freshCreatedAt (u_id user) in
  match freshUser with
  | None =>
      consoleLine LError "User not found or has no createdAt date" ;;
      ret []
  | Some registered =>
      let userCreatedAt := registered - 1000 in
      consoleLine LLog "Filtering markers for user" ;;
      let* markers :=
        gets (fun w =>
                merge_sort versionDesc
                  (List.filter (blogAfter userCreatedAt) (allLoaded (db w)))) in
      consoleLine LLog "Found markers for user after registration date" ;;
      (match markers with
       | [] => ret tt
       | _ => consoleLine LLog "Sample blog dates"
       end) ;;
      ret markers
  end.

Definition markAsSeen (user : User) (markerVersion : Z) : M UserNotificationState :=
  let* userState := stateFindOne (u_id user) in
  match userState with
  | None => stateSave (u_id user) markerVersion
  | Some userState =>
      stateSave (u_id user) (Z.max (lastSeenMarkerVersion userState) markerVersion)
  end.

Definition getUserState (user : User) : M UserNotificationState :=
  stateOrCreate (u_id user).

Definition getUnreadCount (user : User) : M Z :=
  let* userState := stateOrCreate (u_id user) in
  let* freshUser := freshCreatedAt (u_id user) in
  match freshUser with
  | None =>
      consoleLine LError "User not found or has no createdAt date" ;;
      ret 0
  | Some registered =>
      let userCreatedAt := registered - 1000 in
      gets (fun w =>
              Z.of_nat (length
                (List.filter
                   (fun m => newerThan (lastSeenMarkerVersion userState) m
                             && blogAfter userCreatedAt m)
                   (allLoaded (db w)))))
  end.

End NotificationService.

(** ** [AuthResolver] *)
Module AuthResolver.

Record UnreadCountResponse := {
  count : Z;
  rsp_lastSeenMarkerVersion : Z;
}.

Definition updateLastSeenMarkerVersion (markerVersion : Z) (user : User)
  : M UnreadCountResponse :=
  let* userState := NotificationService.markAsSeen user markerVersion in
  let* count := NotificationService.getUnreadCount user in
  ret {| count := count;
         rsp_lastSeenMarkerVersion := lastSeenMarkerVersion userState |}.

End AuthResolver.

(** ** [NotificationWorkerService] *)
Module NotificationWorkerService.

Definition processBlogCreatedEvent (event : BlogCreatedEvent) : M unit :=
  tryCatch
    (let* blog := BlogService.findOne (ev_blogId event) in
     let* _ := NotificationService.createMarker blog in
     ret tt)
    (fun error =>
       consoleLine LError "Error processing blog created event" ;;
       throw error).

(** One run of [processQueue]; the [finally] block arms the timer for
    the next one. *)
Definition processQueue : M unit :=
  fun w =>
    if negb (isProcessing w) then (Ok tt, w)
    else
      finally
        (tryCatch
           (let* event := NotificationQueueService.dequeueBlogCreatedEvent 1 in
            match event with
            | Some event => processBlogCreatedEvent event
            | None => ret tt
            end)
           (fun error => consoleLine LError "Error processing queue:"))
        (fun w' => if isProcessing w' then set_processingInterval true w' else w')
        w.


Definition stopProcessing : M unit :=
  modify (fun w => set_processingInterval false (set_isProcessing false w)).

(** The event loop firing the worker's timer, at most [cycles] times:
    each firing runs [processQueue]; with no timer pending the worker
    is over, and so it is when a run rejects. *)
Fixpoint timerLoop (cycles : nat) : M unit :=
  match cycles with
  | O => ret tt
  | S n =>
      fun w =>
        if processingInterval w
        then (processQueue ;; timerLoop n) (set_processingInterval false w)
        else (Ok tt, w)
  end.

End NotificationWorkerService.

(** ** Callers of [createMarker]

    Every worker instance calls [createMarker] on its own, so calls
    overlap: between two [await]s of one call the others may advance.
    A call in flight is the point it has reached, and a schedule says
    which call advances next. *)
Module Callers.
Import NotificationService.

Inductive Call :=
| AtSave (blog : Blog)
| AtLoad (savedMarker : MarkerRow)
| AtReload (savedMarker : MarkerRow) (markerWithBlog : NotificationMarker) (b : Blog)
| AtPublish (markerWithBlog : NotificationMarker)
| AtPublishToRedis (markerWithBlog : NotificationMarker)
| Returned (markerWithBlog : NotificationMarker)
| Rejected (e : Exn).

Definition continue {A} (x : Result A * World) (k : A -> Call) : Call * World :=
  match x with
  | (Ok a, w) => (k a, w)
  | (Throw e, w) => (Rejected e, w)
  end.

(** One call runs up to its next [await]. *)
Definition advance (c : Call) (w : World) : Call * World :=
  match c with
  | AtSave blog => continue (markerSave blog w) AtLoad
  | AtLoad saved => continue (loadMarker saved w) (fun '(m, b) => AtReload saved m b)
  | AtReload saved m b => continue (reloadAuthor saved m b w) AtPublish
  | AtPublish m => continue (safePublishMarker (payloadOf m) w) (fun _ => AtPublishToRedis m)
  | AtPublishToRedis m => continue (safePublishToRedis (payloadOf m) w) (fun _ => Returned m)
  | Returned _ | Rejected _ => (c, w)
  end.

(** The calls in flight, advanced in the order of the schedule; an
    index that names no call is skipped. *)
Fixpoint interleave (schedule : list nat) (calls : list Call) (w : World)
  : list Call * World :=
  match schedule with
  | [] => (calls, w)
  | i :: rest =>
      match calls !! i with
      | Some c =>
          let '(c', w') := advance c w in
          interleave rest (<[i := c']> calls) w'
      | None => interleave rest calls w
      end
  end.

(** One call run to its end with nothing in between. *)
Definition alone (blog : Blog) (w : World) : Call * World :=
  let '(c1, w1) := advance (AtSave blog) w in
  let '(c2, w2) := advance c1 w1 in
  let '(c3, w3) := advance c2 w2 in
  let '(c4, w4) := advance c3 w3 in
  advance c4 w4.

Definition outcome (c : Call) : option (Result NotificationMarker) :=
  match c with
  | Returned m => Some (Ok m)
  | Rejected e => Some (Throw e)
  | _ => None
  end.

(** Calls made one after the other, each awaited before the next. *)
Fixpoint createAll (blogs : list Blog) (w : World)
  : list (Result NotificationMarker) * World :=
  match blogs with
  | [] => ([], w)
  | blog :: rest =>
      let '(r, w') := createMarker blog w in
      let '(rs, w'') := createAll rest w' in
      (r :: rs, w'')
  end.

Fixpoint returnedVersions (rs : list (Result NotificationMarker)) : list Z :=
  match rs with
  | [] => []
  | Ok m :: rest => markerVersion m :: returnedVersions rest
  | Throw _ :: rest => returnedVersions rest
  end.

(** The version a call holds once its row is committed. *)
Definition heldVersion (c : Call) : option Z :=
  match c with
  | AtSave _ | Rejected _ => None
  | AtLoad saved | AtReload saved _ _ => Some (mr_version saved)
  | AtPublish m | AtPublishToRedis m | Returned m => Some (markerVersion m)
  end.

(** The sequence and the table agree: the rows carry, in commit order,
    exactly the values the sequence has handed out. *)
Definition sequenceOk (d : Database) : Prop :=
  1 ≤ markerSeq d ∧ map mr_version (markers d) = seqZ 1 (markerSeq d - 1).

(** The rows carry, in commit order, strictly increasing versions,
    each of them handed out by the sequence. *)
Definition versionsOk (d : Database) : Prop :=
  1 ≤ markerSeq d
  ∧ StronglySorted Z.lt (map mr_version (markers d))
  ∧ Forall (fun v => 1 ≤ v < markerSeq d) (map mr_version (markers d)).

(** What a call in flight remembers agrees with the row it wrote. *)
Definition callOk (c : Call) : Prop :=
  match c with
  | AtReload saved m _ => markerVersion m = mr_version saved
  | _ => True
  end.

(** The calls in flight and the store agree: every version a call
    holds is that of a committed row, and no two calls hold the same
    one. *)
Definition poolOk (calls : list Call) (d : Database) : Prop :=
  versionsOk d
  ∧ Forall callOk calls
  ∧ (∀ i c v, calls !! i = Some c → heldVersion c = Some v →
              v ∈ map mr_version (markers d))
  ∧ (∀ i j ci cj v,
       calls !! i = Some ci → calls !! j = Some cj →
       heldVersion ci = Some v → heldVersion cj = Some v → i = j).

(** The calls that are still to save are for stored blogs, so that
    no insert will be refused. *)
Definition savesAccepted (calls : list Call) (d : Database) : Prop :=
  ∀ i blog, calls !! i = Some (AtSave blog) → blogStored d (Blog_id blog) = true.

End Callers.

(** ** Sample data *)
Module Sample.

Definition alice : User :=
  {| u_id := "u-alice"; u_email := "alice@example.org"; u_password := "$2b$10$alice";
     u_username := "alice";
     u_createdAt := Some 100000; u_updatedAt := 100000 |}.

Definition bob : User :=
  {| u_id := "u-bob"; u_email := "bob@example.org"; u_password := "$2b$10$bob";
     u_username := "bob";
     u_createdAt := Some 500000; u_updatedAt := 500000 |}.

Definition blogRow (id : string) (created : Z) : BlogRow :=
  {| br_id := id; br_title := "Intro"; br_content := "Hello"; br_authorId := "u-alice";
     br_createdAt := created; br_updatedAt := created |}.

Definition markerRow (v : Z) (id : string) : MarkerRow :=
  {| mr_version := v; mr_blogId := id; mr_createdAt := 600000 |}.

Definition emptyDb : Database :=
  {| users := {[ "u-alice" := alice; "u-bob" := bob ]}; blogs := ∅; markers := [];
     markerSeq := 1; userStates := ∅ |}.

Definition world (d : Database) (r : RedisServer) (ls : list Listener) : World :=
  {| db := d; redis := r; listeners := ls; pubsubUp := true; isProcessing := true;
     processingInterval := false; console := []; now := 700000 |}.

Definition redisUp (q : list BlogCreatedEvent) : RedisServer :=
  {| queue := q; channel := []; queueUp := true; busUp := true |}.

(** A server that rejects every command. *)
Definition redisDown : RedisServer :=
  {| queue := []; channel := []; queueUp := false; busUp := false |}.

End Sample.

(** ** The client's notification store

    The store of the web client ([useNotificationStore]), the caller of
    the queries, the mutation and the subscription above.  What the
    network answers is an input: the data of a successful response, a
    response without the expected data, or a failure (which covers a
    marker the response mapping cannot read). *)
Module NotificationStore.

Record ClientBlog := {
  cb_id : string;
  cb_title : string;
  cb_content : string;
  cb_createdAt : Z;
  cb_authorId : string;
  cb_authorName : string;
}.

Record Marker := {
  m_version : Z;
  m_createdAt : Z;
  m_blog : ClientBlog;
}.

Inductive Response (A : Type) :=
| Failed
| Missing
| Data (a : A).
Arguments Failed {A}.
Arguments Missing {A}.
Arguments Data {A} a.

Record Store := {
  s_markers : list Marker;
  s_loading : bool;
  s_lastSeenMarkerVersion : Z;
  s_unreadNotificationCount : Z;
  s_wasConnected : bool;
  s_console : list string;             (* newest first *)
}.

Definition set_markers (ms : list Marker) (s : Store) : Store :=
  {| s_markers := ms; s_loading := s_loading s;
     s_lastSeenMarkerVersion := s_lastSeenMarkerVersion s;
     s_unreadNotificationCount := s_unreadNotificationCount s;
     s_wasConnected := s_wasConnected s; s_console := s_console s |}.

Definition set_loading (b : bool) (s : Store) : Store :=
  {| s_markers := s_markers s; s_loading := b;
     s_lastSeenMarkerVersion := s_lastSeenMarkerVersion s;
     s_unreadNotificationCount := s_unreadNotificationCount s;
     s_wasConnected := s_wasConnected s; s_console := s_console s |}.

Definition set_lastSeen (v : Z) (s : Store) : Store :=
  {| s_markers := s_markers s; s_loading := s_loading s;
     s_lastSeenMarkerVersion := v;
     s_unreadNotificationCount := s_unreadNotificationCount s;
     s_wasConnected := s_wasConnected s; s_console := s_console s |}.

Definition set_unread (n : Z) (s : Store) : Store :=
  {| s_markers := s_markers s; s_loading := s_loading s;
     s_lastSeenMarkerVersion := s_lastSeenMarkerVersion s;
     s_unreadNotificationCount := n;
     s_wasConnected := s_wasConnected s; s_console := s_console s |}.

Definition set_wasConnected (b : bool) (s : Store) : Store :=
  {| s_markers := s_markers s; s_loading := s_loading s;
     s_lastSeenMarkerVersion := s_lastSeenMarkerVersion s;
     s_unreadNotificationCount := s_unreadNotificationCount s;
     s_wasConnected := b; s_console := s_console s |}.

Definition logError (msg : string) (s : Store) : Store :=
  {| s_markers := s_markers s; s_loading := s_loading s;
     s_lastSeenMarkerVersion := s_lastSeenMarkerVersion s;
     s_unreadNotificationCount := s_unreadNotificationCount s;
     s_wasConnected := s_wasConnected s; s_console := msg :: s_console s |}.

(** [list.sort((a, b) => b.markerVersion - a.markerVersion)]: a stable
    sort, newest first; markers of one version keep their order. *)
Fixpoint insertDesc (x : Marker) (l : list Marker) : list Marker :=
  match l with
  | [] => [x]
  | y :: rest =>
      if m_version y <=? m_version x then x :: y :: rest
      else y :: insertDesc x rest
  end.

Definition sortDesc (l : list Marker) : list Marker := foldr insertDesc [] l.

(** [markers.filter(m => m.markerVersion > lastSeenMarkerVersion).length] *)
Definition countUnread (lastSeen : Z) (ms : list Marker) : Z :=
  Z.of_nat (length (List.filter (fun m => lastSeen <? m_version m) ms)).

(** The computed [unreadCount]. *)
Definition unreadCount (s : Store) : Z :=
  countUnread (s_lastSeenMarkerVersion s) (s_markers s).

Definition hasNewNotifications (s : Store) : bool :=
  0 <? s_unreadNotificationCount s.

(** [markers.some(m => m.markerVersion === v)], also the
    [existingVersions.has(v)] of the merge. *)
Definition holds (v : Z) (ms : list Marker) : bool :=
  existsb (fun m => m_version m =? v) ms.

Definition fetchAllMarkers (response : Response (list Marker)) (s : Store) : Store :=
  let s := set_loading true s in
  let s :=
    match response with
    | Data fetched =>
        let s := set_markers (sortDesc fetched) s in
        set_unread (countUnread (s_lastSeenMarkerVersion s) (s_markers s)) s
    | Missing => s
    | Failed => logError "Failed to fetch all markers:" s
    end in
  set_loading false s.

Definition fetchUnreadMarkers (response : Response (list Marker)) (s : Store) : Store :=
  let s := set_loading true s in
  let s :=
    match response with
    | Data fetched =>
        let newMarkers :=
          List.filter (fun m => negb (holds (m_version m) (s_markers s))) fetched in
        let s :=
          match newMarkers with
          | [] => s
          | _ => set_markers (sortDesc (newMarkers ++ s_markers s)) s
          end in
        set_unread (countUnread (s_lastSeenMarkerVersion s) (s_markers s)) s
    | Missing => s
    | Failed => logError "Failed to fetch unread markers:" s
    end in
  set_loading false s.

(** [lastSeenMarkerVersion || 0] of the fetched state. *)
Definition fetchNotificationState (response : Response Z) (s : Store) : Store :=
  match response with
  | Data lastSeen => set_lastSeen lastSeen s
  | Missing => s
  | Failed => logError "Failed to fetch notification state:" s
  end.

Definition fetchUnreadNotificationCount (response : Response Z) (s : Store) : Store :=
  match response with
  | Data n => set_unread n s
  | Missing => s
  | Failed => logError "Failed to fetch unread notification count:" s
  end.

(** The [next] handler of the subscription.  The second component
    says whether it started the background refetch of a reconnect. *)
Definition onNext (newMarker : option Marker) (s : Store) : Store * bool :=
  let refetch := negb (s_wasConnected s) in
  let s := if refetch then set_wasConnected true s else s in
  match newMarker with
  | Some newMarker =>
      if holds (m_version newMarker) (s_markers s) then (s, refetch)
      else
        let s := set_markers (sortDesc (newMarker :: s_markers s)) s in
        if s_lastSeenMarkerVersion s <? m_version newMarker
        then (set_unread (s_unreadNotificationCount s + 1) s, refetch)
        else (s, refetch)
  | None => (s, refetch)
  end.

(** [markAsSeen]: the store after the mutation's answer, and whether
    the failure is rethrown to the caller. *)
Definition markAsSeen (response : Response AuthResolver.UnreadCountResponse) (s : Store)
  : Store * bool :=
  match response with
  | Data r =>
      (set_unread (AuthResolver.count r)
         (set_lastSeen (AuthResolver.rsp_lastSeenMarkerVersion r) s), false)
  | Missing => (s, false)
  | Failed => (logError "Failed to update last seen marker version:" s, true)
  end.

(** [Math.max(...markers.map(m => m.markerVersion))] of a list that is
    not empty. *)
Definition highestVersion (first : Marker) (rest : list Marker) : Z :=
  foldl Z.max (m_version first) (map m_version rest).

(** [markAllAsSeen], with the server as the function from the version
    sent to the answer received; nothing is sent for an empty list. *)
Definition markAllAsSeen
    (server : Z -> Response AuthResolver.UnreadCountResponse) (s : Store)
  : Store * bool :=
  match s_markers s with
  | [] => (s, false)
  | first :: rest => markAsSeen (server (highestVersion first rest)) s
  end.

Definition newestFirst (a b : Marker) : Prop := m_version b ≤ m_version a.

(** Newest first, and no version twice. *)
Definition descending (ms : list Marker) : Prop :=
  StronglySorted (fun a b => m_version b < m_version a) ms.

Definition clear (s : Store) : Store :=
  set_unread 0 (set_lastSeen 0 (set_markers [] s)).

(** A marker of the server as the response mapping reads it; nothing
    when the blog or its author is missing. *)
Definition ofServer (m : NotificationMarker) : option Marker :=
  b ← blog m;
  a ← b_author b;
  Some {| m_version := markerVersion m; m_createdAt := createdAt m;
          m_blog := {| cb_id := Blog_id b; cb_title := br_title (b_row b);
                       cb_content := br_content (b_row b);
                       cb_createdAt := Blog_createdAt b;
                       cb_authorId := u_id a; cb_authorName := u_username a |} |}.

(** The answer to a query for a list of markers. *)
Definition markersResponse (r : Result (list NotificationMarker)) : Response (list Marker) :=
  match r with
  | Ok ms =>
      match mapM ofServer ms with
      | Some ms => Data ms
      | None => Failed
      end
  | Throw _ => Failed
  end.

Definition answer {A} (r : Result A) : Response A :=
  match r with
  | Ok a => Data a
  | Throw _ => Failed
  end.

End NotificationStore.

(** ** Sequences of calls *)
Module Usage.

(** The producers' calls, one after the other. *)
Fixpoint enqueueAll (events : list BlogCreatedEvent) : M unit :=
  match events with
  | [] => ret tt
  | event :: rest =>
      NotificationQueueService.enqueueBlogCreatedEvent event ;;
      enqueueAll rest
  end.

(** Up to [n] calls of the consumer, stopping at the first that
    finds nothing. *)
Fixpoint dequeueAll (n : nat) : M (list BlogCreatedEvent) :=
  match n with
  | O => ret []
  | S n =>
      let* event := NotificationQueueService.dequeueBlogCreatedEvent 1 in
      match event with
      | None => ret []
      | Some event =>
          let* rest := dequeueAll n in
          ret (event :: rest)
      end
  end.

(** The author of a blog after the trip through the Redis channel:
    the five fields the channel message carries, which leaves the
    password behind. *)
Definition echoAuthor (a : option User) : Js.Value :=
  match a with
  | Some u =>
      Js.Obj [("id", Js.Str (u_id u)); ("email", Js.Str (u_email u));
              ("username", Js.Str (u_username u));
              ("createdAt", match u_createdAt u with
                            | Some t => Js.Date t
                            | None => Js.Null
                            end);
              ("updatedAt", Js.Date (u_updatedAt u))]
  | None => Js.Undefined
  end.

(** The payload of a marker after its trip through the Redis channel:
    the fields of [markerPayload], with [authorId] before [author] as
    the channel message has them. *)
Definition echoPayload (m : NotificationMarker) (b : Blog) : Js.Value :=
  Js.Obj [("markerVersion", Js.Num (markerVersion m));
          ("blog",
           Js.Obj [("id", Js.Str (Blog_id b)); ("title", Js.Str (br_title (b_row b)));
                   ("content", Js.Str (br_content (b_row b)));
                   ("createdAt", Js.Date (Blog_createdAt b));
                   ("updatedAt", Js.Date (br_updatedAt (b_row b)));
                   ("authorId", Js.or (Js.Str (br_authorId (b_row b)))
                                      (Js.get "id" (NotificationService.authorObject
                                                      (b_author b))));
                   ("author", echoAuthor (b_author b))]);
          ("createdAt", Js.Date (createdAt m)); ("cursor", Js.Num (markerVersion m))].

(** Two objects with the same value under every key but [key]. *)
Definition sameFieldsBut (key : string) (a b : Js.Value) : Prop :=
  ∀ k, k ≠ key → Js.get k a = Js.get k b.

(** Markers handed to the local publish, one after the other. *)
Fixpoint publishAll (payloads : list Js.Value) : M unit :=
  match payloads with
  | [] => ret tt
  | payload :: rest =>
      NotificationService.safePublishMarker payload ;;
      publishAll rest
  end.

(** The cursor row a query leaves behind for [id]: the row there is,
    or a new one at 0. *)
Definition lazyStates (id : string) (w : World) : gmap string UserNotificationState :=
  match userStates (db w) !! id with
  | Some _ => userStates (db w)
  | None =>
      <[id := {| userId := id; lastSeenMarkerVersion := 0; updatedAt := now w |}]>
        (userStates (db w))
  end.

(** What a worker's run can be asked about, apart from the console,
    the listeners, the channel and its own timer. *)
Definition shape (w : World) : Database * list BlogCreatedEvent * bool * bool * Z :=
  (db w, queue (redis w), queueUp (redis w), isProcessing w, now w).

(** The marker rows a worker writes for the blog ids it is handed, in
    that order, from version [next] on: one row for each id that
    names a stored blog, none for the others. *)
Fixpoint rowsFor (stored : gmap string BlogRow) (today next : Z) (ids : list string)
  : list MarkerRow :=
  match ids with
  | [] => []
  | id :: rest =>
      match stored !! id with
      | Some row =>
          {| mr_version := next; mr_blogId := br_id row; mr_createdAt := today |}
          :: rowsFor stored today (next + 1) rest
      | None => rowsFor stored today next rest
      end
  end.

End Usage.

(** ** The specification's vocabulary *)
Module Spec.

(** The stored read cursor of a user, if there is a row. *)
Definition cursorOf (id : string) (w : World) : option Z :=
  lastSeenMarkerVersion <$> userStates (db w) !! id.

(** "created lazily ... with [lastSeenVersion = 0]" *)
Definition currentVersion (id : string) (w : World) : Z :=
  default 0 (cursorOf id w).

(** What [markSeen] leaves stored: the larger of the stored value and
    the proposed one, and the proposed one when nothing is stored. *)
Definition seenAfter (stored : option Z) (version : Z) : Z :=
  match stored with
  | Some current => Z.max current version
  | None => version
  end.

(** The registration horizon: "blog was created after
    [user.createdAt - 1s]". *)
Definition withinHorizon (registered : Z) (m : NotificationMarker) : bool :=
  match blog m with
  | Some b => registered - 1000 <? Blog_createdAt b
  | None => false
  end.

(** The markers a count ranges over: version above [seen], blog within
    the horizon of a user registered at [registered]. *)
Definition unreadWithinHorizon (seen registered : Z) (d : Database)
  : list NotificationMarker :=
  List.filter (fun m => (seen <? markerVersion m) && withinHorizon registered m)
              (NotificationService.allLoaded d).

(** What publish must check: "version is a positive number, blog and
    its id are present, an author identifier is resolvable from blog
    or its author sub-object, and creation timestamp is a [Date]". *)
Definition positiveNumber (v : Js.Value) : bool :=
  match v with Js.Num n => 0 <? n | _ => false end.

Definition publishable (payload : Js.Value) : bool :=
  let blog := Js.get "blog" payload in
  positiveNumber (Js.get "markerVersion" payload)
  && (Js.truthy blog && Js.isObject blog)
  && Js.truthy (Js.get "id" blog)
  && (Js.truthy (Js.get "id" (Js.get "author" blog)) || Js.truthy (Js.get "authorId" blog))
  && Js.instanceofDate (Js.get "createdAt" payload).

(** What the subscription layer takes for a marker: "positive
    markerVersion, blog object, Date createdAt". *)
Definition resolvable (payload : Js.Value) : bool :=
  positiveNumber (Js.get "markerVersion" payload)
  && (Js.truthy (Js.get "blog" payload) && Js.isObject (Js.get "blog" payload))
  && Js.instanceofDate (Js.get "createdAt" payload).

(** A payload as the service publishes it, not wrapped in a
    [{ newNotificationMarker: ... }] envelope. *)
Definition bare (payload : Js.Value) : Prop :=
  Js.get "newNotificationMarker" payload = Js.Undefined.

(** A listener takes delivery of [item]. *)
Definition deliver (item : Js.Value) (l : Listener) : Listener :=
  {| l_cursor := l_cursor l; l_received := l_received l ++ [item] |}.

(** The marker a listener is sent for a payload it accepts: the
    payload's version, blog and instant, and the version again as the
    cursor. *)
Definition markerSent (payload : Js.Value) : Js.Value :=
  Js.Obj [("markerVersion", Js.get "markerVersion" payload);
          ("blog", Js.get "blog" payload);
          ("createdAt", Js.get "createdAt" payload);
          ("cursor", Js.get "markerVersion" payload)].

End Spec.

(** ** Sample worlds *)
Module Scenario.
Import Sample.

Definition intro : CreateBlogInput := {| in_title := "Intro"; in_content := "Hello" |}.

(** Every command to Redis is rejected. *)
Definition pipelineDown : World := world emptyDb redisDown [].

(** Nobody has a cursor row yet. *)
Definition fresh : World := world emptyDb (redisUp []) [].

(** Six markers, all for blogs written after both registrations. *)
Definition sixBlogs : gmap string BlogRow :=
  {[ "b-1" := blogRow "b-1" 600001; "b-2" := blogRow "b-2" 600002;
     "b-3" := blogRow "b-3" 600003; "b-4" := blogRow "b-4" 600004;
     "b-5" := blogRow "b-5" 600005; "b-6" := blogRow "b-6" 600006 ]}.

Definition sixMarkers : list MarkerRow :=
  [markerRow 1 "b-1"; markerRow 2 "b-2"; markerRow 3 "b-3";
   markerRow 4 "b-4"; markerRow 5 "b-5"; markerRow 6 "b-6"].


(** Bob registered at instant 500000.  Four markers, for blogs
    written two seconds before that, one second before, 999 ms before
    and one millisecond after. *)
Definition horizon : World :=
  world {| users := users emptyDb;
           blogs := {[ "b-1" := blogRow "b-1" 498000; "b-2" := blogRow "b-2" 499000;
                       "b-3" := blogRow "b-3" 499001; "b-4" := blogRow "b-4" 500001 ]};
           markers := [markerRow 1 "b-1"; markerRow 2 "b-2"; markerRow 3 "b-3";
                       markerRow 4 "b-4"];
           markerSeq := 5; userStates := ∅ |}
        (redisUp []) [].

(** A payload with a version but no blog, and a listener at cursor 3. *)
Definition blogless : Js.Value :=
  Js.Obj [("markerVersion", Js.Num 5); ("blog", Js.Null); ("createdAt", Js.Date 600000)].

Definition atThree : Listener := {| l_cursor := Some 3; l_received := [] |}.
Definition noCursor : Listener := {| l_cursor := None; l_received := [] |}.

(** Marker 4 of the six, as [createMarker] publishes it. *)
Definition fourth : Js.Value :=
  NotificationService.markerPayload
    {| markerVersion := 4; blogId := "b-4";
       blog := None; createdAt := 600000 |}
    {| b_row := blogRow "b-4" 600004; b_author := Some alice |}.

(** An engine whose [Date.parse] takes nothing but the date-time
    format. *)
Definition strictParse (s : string) : option Z := None.

(** Marker [v] for blog b-4, as [createMarker] publishes it. *)
Definition markerAt (v : Z) : Js.Value :=
  NotificationService.markerPayload
    {| markerVersion := v; blogId := "b-4";
       blog := None; createdAt := 600000 |}
    {| b_row := blogRow "b-4" 600004; b_author := Some alice |}.

Definition eventFor (id : string) : BlogCreatedEvent :=
  {| ev_blogId := id; ev_title := "Intro"; ev_authorId := "u-alice"; ev_createdAt := 600001 |}.

(** The worker is running; the event at the right end of the queue
    names a blog that is gone, the one behind it a blog that exists. *)
Definition staleEvent : World :=
  world {| users := users emptyDb; blogs := {[ "b-1" := blogRow "b-1" 600001 ]};
           markers := []; markerSeq := 1; userStates := ∅ |}
        (redisUp [eventFor "b-1"; eventFor "b-gone"]) [noCursor].

(** Two blogs in the store and no marker yet; two workers are about to
    call [createMarker], one for each. *)
Definition twoBlogs : World :=
  world {| users := users emptyDb;
           blogs := {[ "b-1" := blogRow "b-1" 600001; "b-2" := blogRow "b-2" 600002 ]};
           markers := []; markerSeq := 1; userStates := ∅ |}
        (redisUp []) [noCursor].

Definition blogOf (id : string) (created : Z) : Blog :=
  {| b_row := blogRow id created; b_author := Some alice |}.

Definition clientMarker (v : Z) : NotificationStore.Marker :=
  {| NotificationStore.m_version := v; NotificationStore.m_createdAt := 600000;
     NotificationStore.m_blog :=
       {| NotificationStore.cb_id := "b-1"; NotificationStore.cb_title := "Intro";
          NotificationStore.cb_content := "Hello"; NotificationStore.cb_createdAt := 600001;
          NotificationStore.cb_authorId := "u-alice";
          NotificationStore.cb_authorName := "alice" |} |}.

(** A client holding markers 5 and 3, having seen up to 3. *)
Definition client : NotificationStore.Store :=
  {| NotificationStore.s_markers := [clientMarker 5; clientMarker 3];
     NotificationStore.s_loading := false;
     NotificationStore.s_lastSeenMarkerVersion := 3;
     NotificationStore.s_unreadNotificationCount := 1;
     NotificationStore.s_wasConnected := true;
     NotificationStore.s_console := [] |}.

Definition cursorAt (id : string) (v : Z) : gmap string UserNotificationState :=
  {[ id := {| userId := id; lastSeenMarkerVersion := v; updatedAt := 650000 |} ]}.

(** Alice has seen up to version 5 of six markers. *)
Definition seenFive : World :=
  world {| users := users emptyDb; blogs := sixBlogs; markers := sixMarkers;
           markerSeq := 7; userStates := cursorAt "u-alice" 5 |}
        (redisUp []) [].

End Scenario.

(** * Blog creation and the queue *)

Section BlogCreation.
Import BlogService.

Variables (input : CreateBlogInput) (author : User) (newId : string) (w : World).

(** C1, as the code has it: [BlogService.create] always writes the
    blog row, and then its outcome is the outcome of the enqueue.
    When the [LPUSH] is carried out it returns the blog and the event
    is at the left end of the queue; when it is rejected the failure
    is logged once and rethrown, so the caller gets the error of the
    enqueue although the row stays written. *)
Theorem create_outcome_is_enqueue_outcome :
  let out := create input author newId w in
  let blog := withAuthor (db w) (newRow newId input (u_id author) (now w)) in
  blogs (db (worldOf out)) !! newId = Some (b_row blog) ∧
  if queueUp (redis w)
  then resultOf out = Ok blog ∧
       queue (redis (worldOf out)) = createdEvent blog :: queue (redis w)
  else resultOf out = Throw ConnectionError ∧
       console (worldOf out) = (LError, "Error enqueueing blog created event:") :: console w ∧
       queue (redis (worldOf out)) = queue (redis w).
Proof.
  intros out blog. subst out blog.
  unfold create, repositorySave, newRow, createdEvent, repositoryFindOne,
    NotificationQueueService.enqueueBlogCreatedEvent, NotificationQueueService.lpush,
    bind, tryCatch, gets, ret, throw, consoleLine, modify, resultOf, worldOf.
  cbn [db set_db blogs br_id]. rewrite lookup_insert_eq. cbn.
  destruct (queueUp (redis w)) eqn:Hq; cbn; rewrite ?lookup_insert_eq; auto.
Qed.

End BlogCreation.

(** C1 fails as stated: when the enqueue is rejected the blog row is
    written and [create] still rejects. *)
Lemma create_rejects_when_enqueue_fails :
  let out := BlogService.create Scenario.intro Sample.alice "b-1" Scenario.pipelineDown in
  is_Some (blogs (db (worldOf out)) !! "b-1") ∧
  ¬ (∃ blog, resultOf out = Ok blog).
Proof.
  split.
  - vm_compute. eauto.
  - intros [blog H]. vm_compute in H. discriminate H.
Qed.

(** * The read cursor *)

Section ReadCursor.
Import NotificationService AuthResolver Spec.

Lemma cursorOf_stateSave id v w :
  cursorOf id (worldOf (stateSave id v w)) = Some v.
Proof.
  unfold cursorOf, stateSave, worldOf.
  destruct (userStates (db w) !! id) as [stored|] eqn:Hs; cbn.
  - destruct (Z.eqb_spec (lastSeenMarkerVersion stored) v) as [<-|_]; cbn.
    + by rewrite Hs.
    + by rewrite lookup_insert_eq.
  - by rewrite lookup_insert_eq.
Qed.

Lemma stateSave_returns id v w :
  ∃ st, resultOf (stateSave id v w) = Ok st
        ∧ lastSeenMarkerVersion st = v
        ∧ userStates (db (worldOf (stateSave id v w))) !! id = Some st.
Proof.
  unfold stateSave, resultOf, worldOf.
  destruct (userStates (db w) !! id) as [stored|] eqn:Hs; cbn.
  - destruct (Z.eqb_spec (lastSeenMarkerVersion stored) v) as [<-|_]; cbn.
    + by exists stored.
    + eexists. split; [done|]. split; [done|]. by rewrite lookup_insert_eq.
  - eexists. split; [done|]. split; [done|]. by rewrite lookup_insert_eq.
Qed.

Lemma markAsSeen_stored user v w :
  cursorOf (u_id user) (worldOf (markAsSeen user v w))
  = Some (seenAfter (cursorOf (u_id user) w) v).
Proof.
  unfold markAsSeen, stateFindOne, bind, gets. unfold cursorOf at 2.
  destruct (userStates (db w) !! u_id user) as [st|]; cbn [fmap option_fmap option_map seenAfter];
    apply cursorOf_stateSave.
Qed.

Lemma markAsSeen_returns user v w :
  ∃ st, resultOf (markAsSeen user v w) = Ok st
        ∧ lastSeenMarkerVersion st = seenAfter (cursorOf (u_id user) w) v
        ∧ userStates (db (worldOf (markAsSeen user v w))) !! u_id user = Some st.
Proof.
  unfold markAsSeen, stateFindOne, bind, gets, cursorOf.
  destruct (userStates (db w) !! u_id user) as [st|];
    cbn [fmap option_fmap option_map seenAfter]; apply stateSave_returns.
Qed.

Lemma getUnreadCount_total user w :
  ∃ n, resultOf (getUnreadCount user w) = Ok n.
Proof.
  unfold getUnreadCount, stateOrCreate, stateFindOne, freshCreatedAt, stateSave,
    bind, gets, ret, consoleLine, modify, resultOf.
  destruct (userStates (db w) !! u_id user) eqn:Hs; cbn; rewrite ?Hs; cbn;
    destruct (users (db w) !! u_id user ≫= u_createdAt); cbn; eauto.
Qed.

Lemma updateLastSeenMarkerVersion_returns v user w n :
  resultOf (getUnreadCount user (worldOf (markAsSeen user v w))) = Ok n →
  resultOf (updateLastSeenMarkerVersion v user w)
  = Ok {| count := n;
          rsp_lastSeenMarkerVersion := seenAfter (cursorOf (u_id user) w) v |}.
Proof.
  intros Hn. unfold updateLastSeenMarkerVersion, bind.
  destruct (markAsSeen_returns user v w) as (st & Hr & Hv & _).
  destruct (markAsSeen user v w) as [r w1]. cbn [resultOf worldOf fst snd] in *. subst r.
  destruct (getUnreadCount user w1) as [r2 w2]. cbn [resultOf fst] in Hn. subst r2.
  cbn. by rewrite Hv.
Qed.

Lemma seenAfter_twice stored v1 v2 :
  seenAfter (Some (seenAfter stored v1)) v2
  = match stored with
    | Some current => Z.max current (Z.max v1 v2)
    | None => Z.max v1 v2
    end.
Proof. destruct stored; cbn; lia. Qed.

(** C3, as the code has it: [markAsSeen] stores the larger of the
    stored value and the given one when the user has a cursor row, and
    the given version itself when there is none.  Two calls leave, in
    either order, the largest of the stored value and the two versions
    (of the two versions alone without a row), so the stored value
    never goes down; and [updateLastSeenMarkerVersion] answers with the
    stored value and the unread count computed after the update. *)
Theorem markAsSeen_keeps_the_largest user v1 v2 w :
  let id := u_id user in
  let seen v w := worldOf (markAsSeen user v w) in
  cursorOf id (seen v1 w) = Some (seenAfter (cursorOf id w) v1)
  ∧ cursorOf id (seen v2 (seen v1 w))
    = Some (match cursorOf id w with
            | Some current => Z.max current (Z.max v1 v2)
            | None => Z.max v1 v2
            end)
  ∧ cursorOf id (seen v1 (seen v2 w)) = cursorOf id (seen v2 (seen v1 w))
  ∧ ∃ n, resultOf (getUnreadCount user (seen v1 w)) = Ok n
         ∧ resultOf (updateLastSeenMarkerVersion v1 user w)
           = Ok {| count := n;
                   rsp_lastSeenMarkerVersion := seenAfter (cursorOf id w) v1 |}.
Proof.
  intros id seen. subst id seen. cbn beta.
  repeat split.
  - apply markAsSeen_stored.
  - rewrite !markAsSeen_stored. f_equal. apply seenAfter_twice.
  - rewrite !markAsSeen_stored, !seenAfter_twice.
    destruct (cursorOf (u_id user) w); f_equal; lia.
  - destruct (getUnreadCount_total user (worldOf (markAsSeen user v1 w))) as [n Hn].
    exists n. split; [exact Hn|]. by apply updateLastSeenMarkerVersion_returns.
Qed.

End ReadCursor.

(** C3 fails as stated, twice over.  Without a cursor row the given
    version is stored as it is, also when it is below the 0 of a
    lazily created row; and with a row holding more than both
    versions, two calls leave that value, not the larger of the two. *)
Lemma markAsSeen_not_max_of_arguments :
  let seen v w := worldOf (NotificationService.markAsSeen Sample.alice v w) in
  (Spec.cursorOf "u-alice" Scenario.fresh = None
   ∧ Spec.cursorOf "u-alice" (seen (-1) Scenario.fresh) = Some (-1)
   ∧ Z.max 0 (-1) ≠ -1)
  ∧ (Spec.cursorOf "u-alice" Scenario.seenFive = Some 5
     ∧ Spec.cursorOf "u-alice" (seen 2 (seen 1 Scenario.seenFive)) = Some 5
     ∧ Z.max 1 2 ≠ 5).
Proof. vm_compute. repeat split; congruence. Qed.


(** * Queries over the marker store *)

Section Queries.
Import NotificationService AuthResolver Spec.

#[local] Instance versionAsc_total : Total versionAsc.
Proof. intros a b. unfold versionAsc. lia. Qed.
#[local] Instance versionAsc_trans : Transitive versionAsc.
Proof. intros a b c. unfold versionAsc. lia. Qed.
#[local] Instance versionDesc_total : Total versionDesc.
Proof. intros a b. unfold versionDesc. lia. Qed.
#[local] Instance versionDesc_trans : Transitive versionDesc.
Proof. intros a b c. unfold versionDesc. lia. Qed.

Lemma allLoaded_stateSave id v w :
  allLoaded (db (worldOf (stateSave id v w))) = allLoaded (db w).
Proof.
  unfold stateSave.
  destruct (userStates (db w) !! id) as [stored|]; [|reflexivity].
  destruct (lastSeenMarkerVersion stored =? v); reflexivity.
Qed.

Lemma users_stateSave id v w :
  users (db (worldOf (stateSave id v w))) = users (db w).
Proof.
  unfold stateSave.
  destruct (userStates (db w) !! id) as [stored|]; [|reflexivity].
  destruct (lastSeenMarkerVersion stored =? v); reflexivity.
Qed.

Lemma allLoaded_markAsSeen user v w :
  allLoaded (db (worldOf (markAsSeen user v w))) = allLoaded (db w).
Proof.
  unfold markAsSeen, stateFindOne, bind, gets.
  destruct (userStates (db w) !! u_id user); apply allLoaded_stateSave.
Qed.

Lemma users_markAsSeen user v w :
  users (db (worldOf (markAsSeen user v w))) = users (db w).
Proof.
  unfold markAsSeen, stateFindOne, bind, gets.
  destruct (userStates (db w) !! u_id user); apply users_stateSave.
Qed.

Lemma getUnreadCount_registered user registered w :
  users (db w) !! u_id user ≫= u_createdAt = Some registered →
  resultOf (getUnreadCount user w)
  = Ok (Z.of_nat (length
          (unreadWithinHorizon (currentVersion (u_id user) w) registered (db w)))).
Proof.
  intros Hreg.
  unfold getUnreadCount, stateOrCreate, stateFindOne, freshCreatedAt, stateSave, bind,
    gets, ret, currentVersion, cursorOf, resultOf.
  destruct (userStates (db w) !! u_id user) as [st|] eqn:Hs; cbn; rewrite ?Hs; cbn.
  - rewrite Hreg. reflexivity.
  - rewrite Hreg. reflexivity.
Qed.

Lemma getUnreadCount_unregistered user w :
  users (db w) !! u_id user ≫= u_createdAt = None →
  resultOf (getUnreadCount user w) = Ok 0.
Proof.
  intros Hreg.
  unfold getUnreadCount, stateOrCreate, stateFindOne, freshCreatedAt, stateSave, bind,
    gets, ret, resultOf.
  destruct (userStates (db w) !! u_id user) as [st|] eqn:Hs; cbn; rewrite ?Hs; cbn;
    rewrite Hreg; reflexivity.
Qed.

Lemma registered_bind (d : Database) id u registered :
  users d !! id = Some u → u_createdAt u = Some registered →
  users d !! id ≫= u_createdAt = Some registered.
Proof. intros -> <-. reflexivity. Qed.

(** C4, as the code has it: for a user the store knows, with a
    registration instant, [getUnreadCount] is the number of markers
    above the stored cursor (0 without a row) whose blog is within the
    registration horizon.  Right after [markSeen(user, V)] the count
    ranges over the versions above the cursor that is then stored,
    the larger of the old one and [V]; these are the versions above
    [V] when [V] is not below the old cursor. *)
Theorem getUnreadCount_counts_above_cursor user u registered V w :
  users (db w) !! u_id user = Some u →
  u_createdAt u = Some registered →
  let id := u_id user in
  resultOf (getUnreadCount user w)
  = Ok (Z.of_nat (length (unreadWithinHorizon (currentVersion id w) registered (db w))))
  ∧ resultOf (updateLastSeenMarkerVersion V user w)
    = Ok {| count := Z.of_nat (length
                       (unreadWithinHorizon (seenAfter (cursorOf id w) V) registered (db w)));
            rsp_lastSeenMarkerVersion := seenAfter (cursorOf id w) V |}
  ∧ (seenAfter (cursorOf id w) V = V →
     resultOf (getUnreadCount user (worldOf (markAsSeen user V w)))
     = Ok (Z.of_nat (length (unreadWithinHorizon V registered (db w))))).
Proof.
  intros Hu Hreg id. subst id.
  pose proof (registered_bind _ _ _ _ Hu Hreg) as Hb.
  assert (Hafter : resultOf (getUnreadCount user (worldOf (markAsSeen user V w)))
            = Ok (Z.of_nat (length (unreadWithinHorizon
                     (seenAfter (cursorOf (u_id user) w) V) registered (db w))))).
  { rewrite (getUnreadCount_registered user registered).
    - unfold currentVersion. rewrite markAsSeen_stored. cbn [default].
      unfold unreadWithinHorizon. rewrite allLoaded_markAsSeen. reflexivity.
    - rewrite users_markAsSeen. exact Hb. }
  split; [by apply getUnreadCount_registered|].
  split; [by apply updateLastSeenMarkerVersion_returns|].
  intros HV. rewrite Hafter, HV. reflexivity.
Qed.

Lemma getUnreadCount_counts_above_cursor_witness :
  resultOf (getUnreadCount Sample.alice Scenario.seenFive) = Ok 1
  ∧ resultOf (updateLastSeenMarkerVersion 6 Sample.alice Scenario.seenFive)
    = Ok {| count := 0; rsp_lastSeenMarkerVersion := 6 |}.
Proof.
  destruct (getUnreadCount_counts_above_cursor
              Sample.alice Sample.alice 100000 6 Scenario.seenFive) as (H1 & H2 & _).
  - vm_compute. reflexivity.
  - reflexivity.
  - split; [rewrite H1 | rewrite H2]; vm_compute; reflexivity.
Defined.

Lemma getAllMarkers_registered user registered w :
  users (db w) !! u_id user ≫= u_createdAt = Some registered →
  resultOf (getAllMarkers user w)
  = Ok (merge_sort versionDesc
          (List.filter (withinHorizon registered) (allLoaded (db w)))).
Proof.
  intros Hreg.
  unfold getAllMarkers, freshCreatedAt, bind, gets, ret, consoleLine, modify, resultOf.
  rewrite Hreg. cbn.
  destruct (merge_sort versionDesc _); reflexivity.
Qed.

Lemma withinHorizon_spec registered m :
  withinHorizon registered m = true
  ↔ ∃ b, blog m = Some b ∧ registered - 1000 < Blog_createdAt b.
Proof.
  unfold withinHorizon. destruct (blog m) as [b|].
  - rewrite Z.ltb_lt. split; [eauto|]. by intros (b' & [= <-] & H).
  - split; [discriminate|]. by intros (b' & [=] & _).
Qed.

(** C5: for every user, [getAllMarkers] reads the user's row again
    and returns exactly the markers whose blog was created strictly
    after the registration instant of that row minus one second, by
    descending version, whatever the [user] object passed in says of
    the registration.  A blog created two seconds before the
    registration is left out; one created a millisecond after it is
    returned.  (For an id that has no row, or no registration instant,
    there is nothing to measure against and nothing is returned.) *)
Theorem getAllMarkers_registration_horizon user w :
  ∃ ms, resultOf (getAllMarkers user w) = Ok ms
    ∧ StronglySorted versionDesc ms
    ∧ match users (db w) !! u_id user ≫= u_createdAt with
      | Some registered =>
          ms ≡ₚ List.filter (withinHorizon registered) (allLoaded (db w))
          ∧ (∀ m, m ∈ ms ↔
                  m ∈ allLoaded (db w)
                  ∧ ∃ b, blog m = Some b ∧ registered - 1000 < Blog_createdAt b)
          ∧ (∀ m b, m ∈ allLoaded (db w) → blog m = Some b →
                    (Blog_createdAt b = registered - 2000 → m ∉ ms)
                    ∧ (Blog_createdAt b = registered + 1 → m ∈ ms))
      | None => ms = []
      end.
Proof.
  destruct (users (db w) !! u_id user ≫= u_createdAt) as [registered|] eqn:Hb.
  - eexists. split; [by apply getAllMarkers_registered|].
    assert (Hin : ∀ m, m ∈ merge_sort versionDesc
                           (List.filter (withinHorizon registered) (allLoaded (db w)))
                  ↔ m ∈ allLoaded (db w)
                    ∧ ∃ b, blog m = Some b ∧ registered - 1000 < Blog_createdAt b).
    { intros m. rewrite merge_sort_Permutation, !list_elem_of_In, filter_In.
      by rewrite withinHorizon_spec. }
    split; [apply StronglySorted_merge_sort; apply _|].
    split; [apply merge_sort_Permutation|].
    split; [exact Hin|].
    intros m b Hm Hblog. split; intros Hat.
    + rewrite Hin. intros (_ & b' & Hb' & Hlt).
      rewrite Hblog in Hb'. injection Hb' as <-. lia.
    + apply Hin. split; [exact Hm|]. exists b. split; [exact Hblog|lia].
  - exists []. split; [|split; [constructor|done]].
    unfold getAllMarkers, freshCreatedAt, bind, gets, ret, consoleLine, modify, resultOf.
    by rewrite Hb.
Qed.

(** Bob registered at 500000 and the store holds markers 1 to 4, for
    blogs written 2 s before, 1 s before, 999 ms before and 1 ms after
    that instant: he is returned markers 4 and 3, in this order. *)
Lemma getAllMarkers_registration_horizon_witness :
  let d := db Scenario.horizon in
  ∃ ms, resultOf (getAllMarkers Sample.bob Scenario.horizon) = Ok ms
        ∧ map (fun m => (markerVersion m, Blog_createdAt <$> blog m)) ms
          = [(4, Some 500001); (3, Some 499001)]
        ∧ StronglySorted versionDesc ms
        ∧ (withBlog d (Sample.markerRow 1 "b-1") ∉ ms)
        ∧ (withBlog d (Sample.markerRow 4 "b-4") ∈ ms).
Proof.
  intros d.
  destruct (getAllMarkers_registration_horizon Sample.bob Scenario.horizon)
    as (ms & H1 & Hsorted & Hreg).
  change ((users (db Scenario.horizon) !! u_id Sample.bob) ≫= u_createdAt)
    with (Some 500000) in Hreg.
  destruct Hreg as (_ & _ & Hedge).
  exists ms. split; [exact H1|].
  assert (Hms : ms = default [] (match getAllMarkers Sample.bob Scenario.horizon with
                                 | (Ok h, _) => Some h
                                 | _ => None
                                 end)).
  { unfold resultOf in H1. destruct (getAllMarkers _ _) as [[h|e] w1]; cbn in *; congruence. }
  split; [rewrite Hms; vm_compute; reflexivity|]. split; [exact Hsorted|]. split.
  - eapply (Hedge _ (Scenario.blogOf "b-1" 498000)); [|reflexivity..].
    apply list_elem_of_In. vm_compute. tauto.
  - eapply (Hedge _ (Scenario.blogOf "b-4" 500001)); [|reflexivity..].
    apply list_elem_of_In. vm_compute. tauto.
Defined.

Lemma getUnreadMarkers_returns user w :
  resultOf (getUnreadMarkers user w)
  = Ok (merge_sort versionAsc
          (List.filter (newerThan (currentVersion (u_id user) w)) (allLoaded (db w)))).
Proof.
  unfold getUnreadMarkers, stateOrCreate, stateFindOne, stateSave, bind, gets, ret,
    currentVersion, cursorOf, resultOf.
  destruct (userStates (db w) !! u_id user) as [st|] eqn:Hs; cbn; rewrite ?Hs; reflexivity.
Qed.



End Queries.

(** C4 fails as stated: with versions 1 to 6 in the store and 5 seen,
    [markSeen(user, 2)] leaves the cursor at 5 and the count at 1,
    while four markers have a version above 2 within the horizon. *)
Lemma unread_count_after_stale_markSeen :
  let out := AuthResolver.updateLastSeenMarkerVersion 2 Sample.alice Scenario.seenFive in
  resultOf out = Ok {| AuthResolver.count := 1; AuthResolver.rsp_lastSeenMarkerVersion := 5 |}
  ∧ Z.of_nat (length (Spec.unreadWithinHorizon 2 100000 (db (worldOf out)))) = 4.
Proof. vm_compute. split; reflexivity. Qed.

(** * Publishing and the live subscriptions *)

Section Publishing.
Import NotificationService NotificationResolver Spec.

Lemma get_of_falsy k payload :
  Js.truthy payload = false → Js.get k payload = Js.Undefined.
Proof. destruct payload; cbn; congruence. Qed.

Lemma publishable_truthy payload :
  publishable payload = true → Js.truthy payload = true.
Proof.
  destruct (Js.truthy payload) eqn:Ht; [done|].
  unfold publishable. rewrite !(get_of_falsy _ _ Ht). cbn. done.
Qed.

Lemma safePublishMarker_accepts payload :
  publishable payload = true →
  safePublishMarker payload
  = tryCatch (pubSubPublish payload)
      (fun error => consoleLine LError "Error publishing to local PubSub:" ;; throw error).
Proof.
  intros Hp. pose proof (publishable_truthy _ Hp) as Ht.
  unfold safePublishMarker. rewrite Ht. cbn [negb].
  unfold publishable in Hp.
  repeat (apply andb_prop in Hp; destruct Hp as [Hp ?]).
  destruct (Js.get "markerVersion" payload) as [| | |n| | | | |] eqn:Hmv; try done.
  cbn in Hp. cbn [Js.isNumber Js.typeof negb orb Js.le].
  replace (n <=? 0) with false by lia.
  apply andb_prop in H2 as [-> ->]. cbn [negb orb].
  rewrite H1. cbn [negb].
  unfold Js.or.
  destruct (Js.truthy (Js.get "id" (Js.get "author" (Js.get "blog" payload)))) eqn:Ha.
  - rewrite Ha. cbn [negb]. rewrite H. reflexivity.
  - cbn in H0. rewrite H0. cbn [negb]. rewrite H. reflexivity.
Qed.

Lemma safePublishMarker_rejects payload w :
  publishable payload = false →
  ∃ msg, safePublishMarker payload w = (Throw (Error msg), w).
Proof.
  intros Hp. unfold safePublishMarker, publishable, Js.or in *.
  destruct (Js.truthy payload); cbn [negb]; [|by eexists].
  destruct (Js.get "markerVersion" payload) as [| | |n| | | | |]; try (by eexists).
  cbn [Js.isNumber Js.typeof negb orb Js.le positiveNumber] in *.
  destruct (Z.leb_spec n 0); [by eexists|].
  replace (0 <? n) with true in Hp by lia.
  destruct (Js.truthy (Js.get "blog" payload)); cbn [negb orb andb] in *; [|by eexists].
  destruct (Js.isObject (Js.get "blog" payload)); cbn [negb orb andb] in *; [|by eexists].
  destruct (Js.truthy (Js.get "id" (Js.get "blog" payload))); cbn [negb andb] in *;
    [|by eexists].
  destruct (Js.truthy (Js.get "id" (Js.get "author" (Js.get "blog" payload)))) eqn:Ha.
  - rewrite Ha. cbn [negb orb andb] in *. rewrite Hp. cbn. by eexists.
  - cbn [orb] in Hp.
    destruct (Js.truthy (Js.get "authorId" (Js.get "blog" payload)));
      cbn [negb andb] in *; [|by eexists].
    rewrite Hp. cbn. by eexists.
Qed.

(** C6: a payload handed to publish goes through the checks first: its
    [markerVersion] is a positive number, its [blog] is an object with
    a non-empty [id], an author identifier comes from [blog.author.id]
    or [blog.authorId], and its [createdAt] is a [Date].  A payload
    that passes is handed to the PubSub.  A payload that fails any
    check makes [safePublishMarker] throw an [Error] to its caller
    with nothing delivered, and the Redis publish that follows it in
    [createMarker] is never reached: the world is as it was. *)
Theorem publish_validates_or_throws payload w :
  if publishable payload
  then safePublishMarker payload w
       = tryCatch (pubSubPublish payload)
           (fun error => consoleLine LError "Error publishing to local PubSub:" ;;
                         throw error) w
  else ∃ msg,
         safePublishMarker payload w = (Throw (Error msg), w)
         ∧ (safePublishMarker payload ;; safePublishToRedis payload) w
           = (Throw (Error msg), w).
Proof.
  destruct (publishable payload) eqn:Hp.
  - by rewrite safePublishMarker_accepts.
  - destruct (safePublishMarker_rejects payload w Hp) as [msg Hmsg].
    exists msg. split; [exact Hmsg|]. unfold bind. by rewrite Hmsg.
Qed.

Lemma unwrap_bare payload : bare payload → unwrap payload = payload.
Proof. unfold bare, unwrap. by intros ->. Qed.

Lemma filter_number payload v cursor :
  bare payload → Js.get "markerVersion" payload = Js.Num v →
  filter payload cursor
  = match cursor with Some c => c <? v | None => true end.
Proof.
  intros Hb Hv. unfold filter. rewrite (unwrap_bare _ Hb), Hv.
  destruct cursor; reflexivity.
Qed.

Lemma publishable_resolvable payload :
  publishable payload = true → resolvable payload = true.
Proof.
  unfold publishable, resolvable. intros Hp.
  repeat (apply andb_prop in Hp; destruct Hp as [Hp ?]).
  rewrite Hp, H2, H. reflexivity.
Qed.

Lemma resolvable_truthy payload :
  resolvable payload = true → Js.truthy payload = true ∧ Js.isObject payload = true.
Proof.
  unfold resolvable. destruct payload; cbn; try done.
Qed.

Lemma resolve_marker today payload :
  bare payload → resolvable payload = true →
  resolve today payload = markerSent payload.
Proof.
  intros Hb Hr. unfold resolve. rewrite (unwrap_bare _ Hb).
  destruct (resolvable_truthy _ Hr) as [Ht Ho].
  unfold safeResolvePayload. rewrite Ht, Ho. cbn [negb orb].
  unfold resolvable in Hr.
  repeat (apply andb_prop in Hr; destruct Hr as [Hr ?]).
  rewrite H0, H. cbn [negb orb].
  unfold markerSent.
  destruct (Js.get "markerVersion" payload) as [| | |n| | | | |]; try done.
  cbn in Hr. cbn [Js.isNumber Js.typeof Js.gt andb negb orb]. rewrite Hr. cbn [negb orb].
  cbn. replace (n =? 0) with false by lia. reflexivity.
Qed.

Lemma resolve_default today payload :
  bare payload → resolvable payload = false →
  resolve today payload = createDefaultPayload today.
Proof.
  intros Hb Hr. unfold resolve. rewrite (unwrap_bare _ Hb).
  assert (Hd : safeResolvePayload today payload = createDefaultPayload today).
  { unfold safeResolvePayload.
    destruct (negb (Js.truthy payload) || negb (Js.isObject payload)); [done|].
    unfold resolvable in Hr.
    destruct (Js.get "markerVersion" payload) as [| | |n| | | | |]; try done.
    cbn [positiveNumber Js.isNumber Js.typeof Js.gt andb] in *.
    destruct (0 <? n); [|done]. cbn [negb orb andb] in *.
    destruct (Js.truthy (Js.get "blog" payload) && Js.isObject (Js.get "blog" payload));
      [|done].
    cbn [negb orb andb] in *. rewrite Hr. reflexivity. }
  rewrite Hd. reflexivity.
Qed.

(** C8: a marker that passes the publish checks reaches every
    connected listener through its cursor: a listener that gave a
    cursor is sent the marker exactly when the marker's version is
    strictly above the cursor, and a listener that gave none is sent
    every marker.  What is sent is the marker itself: its version,
    its blog and its instant, with the version as the cursor. *)
Theorem fanout_filters_by_cursor payload v w :
  bare payload →
  Js.get "markerVersion" payload = Js.Num v →
  publishable payload = true →
  pubsubUp w = true →
  let out := safePublishMarker payload w in
  let sent := Js.Obj [("markerVersion", Js.Num v); ("blog", Js.get "blog" payload);
                      ("createdAt", Js.get "createdAt" payload); ("cursor", Js.Num v)] in
  resultOf out = Ok tt
  ∧ listeners (worldOf out)
    = map (fun l =>
             match l_cursor l with
             | Some cursor => if bool_decide (cursor < v) then deliver sent l else l
             | None => deliver sent l
             end)
          (listeners w).
Proof.
  intros Hb Hv Hp Hup out sent. subst out sent.
  rewrite (safePublishMarker_accepts _ Hp).
  unfold tryCatch, pubSubPublish. rewrite Hup. cbn [resultOf worldOf fst snd].
  split; [reflexivity|]. cbn [listeners set_listeners].
  apply map_ext. intros l. unfold offer.
  rewrite (filter_number _ _ _ Hb Hv),
    (resolve_marker _ _ Hb (publishable_resolvable _ Hp)).
  unfold markerSent. rewrite Hv.
  destruct l as [[c|] received]; [|reflexivity]. cbn [l_cursor].
  destruct (Z.ltb_spec c v).
  - by rewrite bool_decide_eq_true_2.
  - rewrite bool_decide_eq_false_2; [reflexivity|lia].
Qed.

(** Marker 4 goes to the listener at cursor 3 and to the one without
    a cursor, not to the one at cursor 4. *)
Lemma fanout_filters_by_cursor_witness :
  let w := Sample.world Sample.emptyDb (Sample.redisUp [])
                        [Scenario.atThree; Scenario.noCursor;
                         {| l_cursor := Some 4; l_received := [] |}] in
  let seen (item : Js.Value) :=
    (Js.get "markerVersion" item, Js.get "id" (Js.get "blog" item),
     Js.get "createdAt" item, Js.get "cursor" item) in
  map (fun l => map seen (l_received l))
      (listeners (worldOf (safePublishMarker Scenario.fourth w)))
  = [[(Js.Num 4, Js.Str "b-4", Js.Date 600000, Js.Num 4)];
     [(Js.Num 4, Js.Str "b-4", Js.Date 600000, Js.Num 4)];
     []].
Proof.
  intros w seen.
  destruct (fanout_filters_by_cursor Scenario.fourth 4 w) as [_ H].
  - reflexivity.
  - reflexivity.
  - vm_compute. reflexivity.
  - reflexivity.
  - rewrite H. vm_compute. reflexivity.
Defined.

(** C10, as the code has it: a payload the subscription layer does not
    take for a marker (no positive [markerVersion], no blog object or
    no [Date] [createdAt]) is not dropped.  A listener without a
    cursor is sent the default payload in its place: [markerVersion]
    0, [cursor] 0 and a null blog.  A listener with a cursor is shielded
    only by the cursor filter, when the payload's [markerVersion] is not
    a number or not above its cursor; when it is a number above the
    cursor, that listener is sent the default payload too. *)
Theorem invalid_payload_becomes_default today payload l :
  bare payload →
  resolvable payload = false →
  offer today payload l
  = if match l_cursor l with
       | Some cursor =>
           Js.isNumber (Js.get "markerVersion" payload)
           && Js.gt (Js.get "markerVersion" payload) cursor
       | None => true
       end
    then deliver (Js.Obj [("markerVersion", Js.Num 0); ("blog", Js.Null);
                          ("createdAt", Js.Date today); ("cursor", Js.Num 0)]) l
    else l.
Proof.
  intros Hb Hr. unfold offer. rewrite (resolve_default _ _ Hb Hr).
  unfold filter. rewrite (unwrap_bare _ Hb).
  destruct l as [[c|] received]; [|reflexivity]. cbn [l_cursor].
  destruct (Js.isNumber (Js.get "markerVersion" payload)); reflexivity.
Qed.

Lemma invalid_payload_becomes_default_witness :
  l_received (offer 700000 Js.Null Scenario.noCursor)
  = [Js.Obj [("markerVersion", Js.Num 0); ("blog", Js.Null);
             ("createdAt", Js.Date 700000); ("cursor", Js.Num 0)]]
  ∧ l_received (offer 700000 Js.Null Scenario.atThree) = [].
Proof.
  split.
  - rewrite (invalid_payload_becomes_default 700000 Js.Null Scenario.noCursor);
      reflexivity.
  - rewrite (invalid_payload_becomes_default 700000 Js.Null Scenario.atThree);
      reflexivity.
Defined.

End Publishing.

(** C10 fails as stated: a listener that supplied cursor 3 is not
    shielded from a payload with version 5 and no blog; it is sent the
    default payload. *)
Lemma cursor_listener_gets_default :
  Spec.resolvable Scenario.blogless = false
  ∧ l_received (NotificationResolver.offer 700000 Scenario.blogless Scenario.atThree)
    = [Js.Obj [("markerVersion", Js.Num 0); ("blog", Js.Null);
               ("createdAt", Js.Date 700000); ("cursor", Js.Num 0)]].
Proof. vm_compute. split; reflexivity. Qed.

(** * What a computation leaves alone *)

Section Keeps.
Context {B : Type} (f : World → B).

Lemma keeps_ret {A} (a : A) : keeps f (ret a).
Proof. by intros w. Qed.

Lemma keeps_throw {A} e : keeps f (@throw A e).
Proof. by intros w. Qed.

Lemma keeps_gets {A} (g : World → A) : keeps f (gets g).
Proof. by intros w. Qed.

Lemma keeps_bind {A C} (m : M A) (k : A → M C) :
  keeps f m → (∀ a, keeps f (k a)) → keeps f (bind m k).
Proof.
  intros Hm Hk w. unfold bind. specialize (Hm w).
  destruct (m w) as [[a|e] w1]; cbn [worldOf snd] in *; [|exact Hm].
  rewrite <- Hm. apply Hk.
Qed.

Lemma keeps_tryCatch {A} (m : M A) (h : Exn → M A) :
  keeps f m → (∀ e, keeps f (h e)) → keeps f (tryCatch m h).
Proof.
  intros Hm Hh w. unfold tryCatch. specialize (Hm w).
  destruct (m w) as [[a|e] w1]; cbn [worldOf snd] in *; [exact Hm|].
  rewrite <- Hm. apply Hh.
Qed.

End Keeps.

Ltac keeps_step :=
  first
    [ apply keeps_ret | apply keeps_throw | apply keeps_gets
    | apply keeps_bind | apply keeps_tryCatch
    | match goal with
      | |- keeps _ (match ?x with _ => _ end) => destruct x
      | |- ∀ _, _ => intro
      end ].

(** Parts of the world that the console, the listeners and the Redis
    server are no part of: everything but the store's own writes
    leaves them alone. *)
Section KeepsAside.
Import NotificationService NotificationQueueService.
Context {B : Type} (f : World → B).
Hypothesis Hconsole : ∀ c w, f (set_console c w) = f w.
Hypothesis Hlisteners : ∀ ls w, f (set_listeners ls w) = f w.
Hypothesis Hredis : ∀ r w, f (set_redis r w) = f w.

Lemma consoleLine_keeps lv msg : keeps f (consoleLine lv msg).
Proof. intros w. apply Hconsole. Qed.

Lemma brpop_keeps t : keeps f (brpop t).
Proof.
  intros w. unfold brpop. destruct (queueUp (redis w)); [|done].
  destruct (rev (queue (redis w))); [done|]. apply Hredis.
Qed.

Lemma pubSubPublish_keeps p : keeps f (pubSubPublish p).
Proof. intros w. unfold pubSubPublish. destruct (pubsubUp w); [apply Hlisteners|done]. Qed.

Lemma redisPublish_keeps p : keeps f (redisPublish p).
Proof. intros w. unfold redisPublish. destruct (busUp (redis w)); [apply Hredis|done]. Qed.

Lemma safePublishMarker_keeps p : keeps f (safePublishMarker p).
Proof.
  unfold safePublishMarker.
  repeat first [ apply consoleLine_keeps | apply pubSubPublish_keeps | keeps_step ].
Qed.

Lemma safePublishToRedis_keeps p : keeps f (safePublishToRedis p).
Proof.
  unfold safePublishToRedis.
  repeat first [ apply consoleLine_keeps | apply redisPublish_keeps | keeps_step ].
Qed.

Lemma loadMarker_keeps saved : keeps f (loadMarker saved).
Proof. unfold loadMarker, markerFindOne. repeat keeps_step. Qed.

Lemma reloadAuthor_keeps saved m b : keeps f (reloadAuthor saved m b).
Proof.
  unfold reloadAuthor, markerFindOne.
  repeat first [ apply consoleLine_keeps | keeps_step ].
Qed.

Lemma dequeue_keeps t : keeps f (dequeueBlogCreatedEvent t).
Proof.
  unfold dequeueBlogCreatedEvent.
  repeat first [ apply consoleLine_keeps | apply brpop_keeps | keeps_step ].
Qed.

(** With the store's writes out of the way as well, a whole
    [createMarker] and the processing of an event leave [f] alone. *)
Hypothesis Hdb : ∀ d w, f (set_db d w) = f w.

Lemma createMarker_keeps b : keeps f (createMarker b).
Proof.
  unfold createMarker.
  repeat first [ apply safePublishMarker_keeps | apply safePublishToRedis_keeps
               | apply loadMarker_keeps | apply reloadAuthor_keeps
               | keeps_step ].
  intros w. unfold markerSave. destruct (blogStored _ _); apply Hdb.
Qed.

Lemma processBlogCreatedEvent_keeps ev :
  keeps f (NotificationWorkerService.processBlogCreatedEvent ev).
Proof.
  unfold NotificationWorkerService.processBlogCreatedEvent, BlogService.findOne,
    BlogService.repositoryFindOne.
  repeat first [ apply consoleLine_keeps | apply createMarker_keeps | keeps_step ].
Qed.

End KeepsAside.

(** * The worker loop *)

Section Worker.
Import NotificationWorkerService.

(** The body of [processQueue] between [try] and [finally]. *)
Lemma processQueue_body_ok w :
  ∃ w', tryCatch
          (let* event := NotificationQueueService.dequeueBlogCreatedEvent 1 in
           match event with
           | Some event => processBlogCreatedEvent event
           | None => ret tt
           end)
          (fun error => consoleLine LError "Error processing queue:") w
        = (Ok tt, w')
        ∧ isProcessing w' = isProcessing w.
Proof.
  assert (Hk : keeps isProcessing
            (tryCatch
               (let* event := NotificationQueueService.dequeueBlogCreatedEvent 1 in
                match event with
                | Some event => processBlogCreatedEvent event
                | None => ret tt
                end)
               (fun error => consoleLine LError "Error processing queue:"))).
  { repeat first [ apply consoleLine_keeps | apply dequeue_keeps
                 | apply processBlogCreatedEvent_keeps | keeps_step ]; done. }
  specialize (Hk w). unfold tryCatch in *.
  destruct (bind _ _ w) as [[[]|e] w1]; cbn [worldOf snd] in Hk.
  - eauto.
  - unfold consoleLine, modify. eexists. split; [reflexivity|]. exact Hk.
Qed.

Lemma processQueue_never_throws w :
  resultOf (processQueue w) = Ok tt
  ∧ isProcessing (worldOf (processQueue w)) = isProcessing w
  ∧ (isProcessing w = true → processingInterval (worldOf (processQueue w)) = true).
Proof.
  unfold processQueue. destruct (isProcessing w) eqn:Hp; cbn [negb].
  - destruct (processQueue_body_ok w) as (w' & Hbody & Hflag).
    unfold finally. rewrite Hbody. cbn [resultOf worldOf fst snd].
    rewrite Hflag, Hp. cbn. rewrite Hflag, Hp. auto.
  - cbn. rewrite Hp. repeat split. discriminate.
Qed.

Lemma timerLoop_never_throws n w : resultOf (timerLoop n w) = Ok tt.
Proof.
  revert w. induction n as [|n IH]; intros w; [reflexivity|].
  cbn [timerLoop]. destruct (processingInterval w); [|reflexivity].
  unfold bind.
  pose proof (processQueue_never_throws (set_processingInterval false w)) as [Hr _].
  destruct (processQueue _) as [r w1]. cbn [resultOf fst] in Hr. subst r. apply IH.
Qed.

Lemma timerLoop_next n w :
  processingInterval w = true →
  timerLoop (S n) w = timerLoop n (worldOf (processQueue (set_processingInterval false w))).
Proof.
  intros Ht. cbn [timerLoop]. rewrite Ht. unfold bind.
  pose proof (processQueue_never_throws (set_processingInterval false w)) as [Hr _].
  destruct (processQueue _) as [r w1]. cbn [resultOf fst] in Hr. subst r. reflexivity.
Qed.

Lemma processQueue_missing_blog w event rest :
  isProcessing w = true →
  queueUp (redis w) = true →
  queue (redis w) = (rest ++ [event])%list →
  blogs (db w) !! ev_blogId event = None →
  processQueue w
  = (Ok tt,
     set_processingInterval true
       (set_console ((LError, "Error processing queue:")
                     :: (LError, "Error processing blog created event") :: console w)
          (set_redis {| queue := rest; channel := channel (redis w);
                        queueUp := queueUp (redis w); busUp := busUp (redis w) |} w))).
Proof.
  intros Hp Hup Hq Hgone.
  unfold processQueue, finally, tryCatch, bind,
    NotificationQueueService.dequeueBlogCreatedEvent, NotificationQueueService.brpop,
    tryCatch, bind, ret.
  rewrite Hp, Hup, Hq. cbn [negb]. rewrite rev_app_distr. cbn [rev app].
  rewrite rev_involutive.
  unfold processBlogCreatedEvent, BlogService.findOne, BlogService.repositoryFindOne,
    tryCatch, bind, gets, throw, consoleLine, modify.
  cbn [db set_redis]. rewrite Hgone. cbn. rewrite Hp. reflexivity.
Qed.

(** C7: the worker dequeues an event whose blog is gone.  That run of
    [processQueue] completes without throwing: no marker row is
    written and the version sequence does not move, the event is
    consumed, the failure is logged, and the timer for the next run is
    armed, so the loop goes on to the events behind it.  In general no
    run of [processQueue] throws, whatever happens while its event is
    processed, every run of a started worker arms the next one, and
    the loop never ends by an exception. *)
Theorem worker_drops_event_and_goes_on w event rest :
  isProcessing w = true →
  queueUp (redis w) = true →
  queue (redis w) = (rest ++ [event])%list →
  blogs (db w) !! ev_blogId event = None →
  let w' := worldOf (processQueue w) in
  resultOf (processQueue w) = Ok tt
  ∧ markers (db w') = markers (db w)
  ∧ markerSeq (db w') = markerSeq (db w)
  ∧ queue (redis w') = rest
  ∧ console w' = (LError, "Error processing queue:")
                 :: (LError, "Error processing blog created event") :: console w
  ∧ isProcessing w' = true
  ∧ processingInterval w' = true
  ∧ (∀ n, timerLoop (S n) w'
          = timerLoop n (worldOf (processQueue (set_processingInterval false w'))))
  ∧ (∀ w0, resultOf (processQueue w0) = Ok tt
           ∧ isProcessing (worldOf (processQueue w0)) = isProcessing w0
           ∧ (isProcessing w0 = true →
              processingInterval (worldOf (processQueue w0)) = true))
  ∧ (∀ n w0, resultOf (timerLoop n w0) = Ok tt).
Proof.
  intros Hp Hup Hq Hgone w'. subst w'.
  rewrite (processQueue_missing_blog w event rest Hp Hup Hq Hgone).
  cbn [resultOf worldOf fst snd].
  do 7 (split; [first [reflexivity | assumption]|]).
  split; [intros n; by apply timerLoop_next|].
  split; [apply processQueue_never_throws | apply timerLoop_never_throws].
Qed.

Lemma worker_drops_event_and_goes_on_witness :
  let w' := worldOf (processQueue Scenario.staleEvent) in
  markers (db w') = []
  ∧ queue (redis w') = [Scenario.eventFor "b-1"]
  ∧ map mr_version (markers (db (worldOf (timerLoop 1 w')))) = [1].
Proof.
  intros w'.
  destruct (worker_drops_event_and_goes_on
              Scenario.staleEvent (Scenario.eventFor "b-gone") [Scenario.eventFor "b-1"])
    as (_ & Hm & _ & Hq & _ & _ & _ & Hnext & _).
  - reflexivity.
  - reflexivity.
  - reflexivity.
  - reflexivity.
  - split; [exact Hm|]. split; [exact Hq|].
    fold w' in Hnext. rewrite (Hnext 0%nat). vm_compute. reflexivity.
Defined.

End Worker.

(** * The version sequence *)

Section Versions.
Import NotificationService Callers.

Lemma seqZ_sorted m n : StronglySorted Z.lt (seqZ m n).
Proof.
  destruct (Z.le_gt_cases n 0) as [Hn|Hn]; [rewrite seqZ_nil by lia|].
  { constructor. }
  rewrite <- (Z2Nat.id n) by lia. generalize (Z.to_nat n) as k. clear Hn n.
  intros k. revert m. induction k as [|k IH]; intros m.
  - rewrite seqZ_nil by lia. constructor.
  - rewrite seqZ_cons by lia.
    replace (Z.pred (Z.of_nat (S k))) with (Z.of_nat k) by lia.
    constructor; [apply IH|]. apply Forall_seqZ. lia.
Qed.

(** A store without gaps is in particular a store in order. *)
Lemma sequenceOk_versionsOk d : sequenceOk d → versionsOk d.
Proof.
  intros [H1 Hs]. split; [done|]. rewrite Hs. split; [apply seqZ_sorted|].
  apply Forall_seqZ. lia.
Qed.

Lemma versionsOk_row d row :
  versionsOk d → row ∈ markers d → 1 ≤ mr_version row < markerSeq d.
Proof.
  intros (_ & _ & Hall) Hrow. rewrite Forall_forall in Hall.
  apply Hall, list_elem_of_fmap. eauto.
Qed.

Lemma version_row (d : Database) v :
  v ∈ map mr_version (markers d) → ∃ row, row ∈ markers d ∧ mr_version row = v.
Proof. intros Hin. apply list_elem_of_fmap in Hin as (row & -> & Hrow). eauto. Qed.

Lemma sorted_snoc (l : list Z) v :
  StronglySorted Z.lt l → Forall (fun x => x < v) l → StronglySorted Z.lt (l ++ [v]).
Proof.
  induction 1 as [|x l Hl IH Hx]; intros Hall; cbn.
  - repeat constructor.
  - apply Forall_cons in Hall as [Hxv Hall].
    constructor; [by apply IH|]. apply Forall_app. split; [done|]. by constructor.
Qed.

(** The save moves the sequence by one, whether the row is committed
    or the insert refused, and leaves the rows in order. *)
Lemma markerSave_next blog w :
  markerSeq (db (worldOf (markerSave blog w))) = markerSeq (db w) + 1.
Proof. unfold markerSave. by destruct (blogStored _ _). Qed.

Lemma markerSave_blogs blog w :
  blogs (db (worldOf (markerSave blog w))) = blogs (db w).
Proof. unfold markerSave. by destruct (blogStored _ _). Qed.

Lemma markerSave_versionsOk blog w :
  versionsOk (db w) → versionsOk (db (worldOf (markerSave blog w))).
Proof.
  intros (H1 & Hsorted & Hall). unfold markerSave.
  destruct (blogStored _ _); unfold versionsOk;
    cbn [worldOf snd db set_db markers markerSeq]; (split; [lia|]).
  - rewrite map_app. cbn [map]. split.
    + apply sorted_snoc; [done|]. eapply Forall_impl; [exact Hall|]. cbn. lia.
    + apply Forall_app. split.
      * eapply Forall_impl; [exact Hall|]. cbn. lia.
      * constructor; [cbn; lia|constructor].
  - split; [done|]. eapply Forall_impl; [exact Hall|]. cbn. lia.
Qed.

(** Without a refused insert no value of the sequence is lost. *)
Lemma sequenceOk_save blog w :
  sequenceOk (db w) → blogStored (db w) (Blog_id blog) = true →
  sequenceOk (db (worldOf (markerSave blog w))).
Proof.
  intros [H1 Hs] Hstored. unfold markerSave. rewrite Hstored. split; cbn; [lia|].
  rewrite map_app, Hs. cbn.
  replace (markerSeq (db w) + 1 - 1) with ((markerSeq (db w) - 1) + 1) by lia.
  rewrite seqZ_app by lia.
  replace (1 + (markerSeq (db w) - 1)) with (markerSeq (db w)) by lia.
  rewrite (seqZ_cons _ 1) by lia. reflexivity.
Qed.

Lemma keeps_db_console c w : db (set_console c w) = db w.
Proof. reflexivity. Qed.
Lemma keeps_db_listeners ls w : db (set_listeners ls w) = db w.
Proof. reflexivity. Qed.
Lemma keeps_db_redis r w : db (set_redis r w) = db w.
Proof. reflexivity. Qed.

Lemma loadMarker_version saved w m b w' :
  loadMarker saved w = (Ok (m, b), w') → markerVersion m = mr_version saved.
Proof.
  unfold loadMarker, markerFindOne, bind, gets.
  destruct (List.find _ _) as [row|] eqn:Hfind; cbn; [|discriminate].
  destruct (_ <$> _) as [b'|]; [|discriminate].
  intros [= <- _ _]. cbn. apply find_some in Hfind as [_ Heq].
  by apply Z.eqb_eq in Heq.
Qed.

Lemma reloadAuthor_version saved m b w m' w' :
  reloadAuthor saved m b w = (Ok m', w') → markerVersion m' = markerVersion m.
Proof.
  unfold reloadAuthor, markerFindOne, bind, gets, consoleLine, modify, ret, throw.
  destruct (b_author b); [by intros [= <- _]|].
  cbn. destruct (_ ≫= blog) as [b'|]; [|discriminate].
  destruct (b_author b'); [by intros [= <- _]|discriminate].
Qed.

(** Past its save, a call no longer writes to the store. *)
Lemma advance_later_db c w :
  (∀ blog, c ≠ AtSave blog) → db (snd (advance c w)) = db w.
Proof.
  intros Hc. destruct c as [blog|saved|saved m b|m|m|m|e]; cbn [advance].
  - by destruct (Hc blog).
  - pose proof (loadMarker_keeps db saved w) as Hk.
    by destruct (loadMarker saved w) as [[[m b]|e] w1].
  - pose proof (reloadAuthor_keeps db keeps_db_console saved m b w) as Hk.
    by destruct (reloadAuthor saved m b w) as [[m'|e] w1].
  - pose proof (safePublishMarker_keeps db keeps_db_console keeps_db_listeners
                  (payloadOf m) w) as Hk.
    by destruct (safePublishMarker (payloadOf m) w) as [[[]|e] w1].
  - pose proof (safePublishToRedis_keeps db keeps_db_console keeps_db_redis
                  (payloadOf m) w) as Hk.
    by destruct (safePublishToRedis (payloadOf m) w) as [[[]|e] w1].
  - done.
  - done.
Qed.

(** It keeps the version it holds, or gives it up by rejecting. *)
Lemma advance_later c w :
  (∀ blog, c ≠ AtSave blog) → callOk c →
  callOk (fst (advance c w))
  ∧ (heldVersion (fst (advance c w)) = heldVersion c
     ∨ heldVersion (fst (advance c w)) = None).
Proof.
  intros Hc Hok. destruct c as [blog|saved|saved m b|m|m|m|e]; cbn [advance].
  - by destruct (Hc blog).
  - destruct (loadMarker saved w) as [[[m b]|e] w1] eqn:Hl;
      cbn [fst snd continue callOk heldVersion] in *; auto.
    split; [by eapply loadMarker_version|auto].
  - destruct (reloadAuthor saved m b w) as [[m'|e] w1] eqn:Hl;
      cbn [fst snd continue callOk heldVersion] in *; auto.
    split; [done|]. left.
    rewrite (reloadAuthor_version _ _ _ _ _ _ Hl). by rewrite Hok.
  - destruct (safePublishMarker (payloadOf m) w) as [[[]|e] w1];
      cbn [fst snd continue callOk heldVersion] in *; auto.
  - destruct (safePublishToRedis (payloadOf m) w) as [[[]|e] w1];
      cbn [fst snd continue callOk heldVersion] in *; auto.
  - auto.
  - auto.
Qed.

(** No step of a call brings it back to its save, or touches the
    blogs. *)
Lemma advance_not_AtSave c w blog :
  (∀ blog', c ≠ AtSave blog') → fst (advance c w) ≠ AtSave blog.
Proof.
  intros Hc. destruct c as [blog'|saved|saved m b|m|m|m|e]; cbn [advance].
  - by destruct (Hc blog').
  - by destruct (loadMarker saved w) as [[[m b]|e] w1].
  - by destruct (reloadAuthor saved m b w) as [[m'|e] w1].
  - by destruct (safePublishMarker (payloadOf m) w) as [[[]|e] w1].
  - by destruct (safePublishToRedis (payloadOf m) w) as [[[]|e] w1].
  - done.
  - done.
Qed.

Lemma AtSave_or_later c : (∃ blog, c = AtSave blog) ∨ (∀ blog, c ≠ AtSave blog).
Proof. destruct c; eauto. Qed.

Lemma advance_AtSave blog w :
  advance (AtSave blog) w
  = if blogStored (db w) (Blog_id blog)
    then (AtLoad {| mr_version := markerSeq (db w); mr_blogId := Blog_id blog;
                    mr_createdAt := now w |},
          snd (markerSave blog w))
    else (Rejected (Error "violates foreign key constraint"), snd (markerSave blog w)).
Proof. cbn [advance]. unfold markerSave. by destruct (blogStored _ _). Qed.

Lemma poolOk_advance calls w i c :
  poolOk calls (db w) → calls !! i = Some c →
  poolOk (<[i := fst (advance c w)]> calls) (db (snd (advance c w))).
Proof.
  intros (Hseq & Hall & Hheld & Hdistinct) Hi.
  assert (Hlt : (i < length calls)%nat) by (by eapply lookup_lt_Some).
  assert (Hc : callOk c) by (by eapply Forall_lookup_1).
  assert (Hbelow : ∀ k ck v, calls !! k = Some ck → heldVersion ck = Some v →
                     v < markerSeq (db w)).
  { intros k ck v Hk Hv. destruct (version_row _ _ (Hheld k ck v Hk Hv)) as (row & Hrow & <-).
    by apply versionsOk_row. }
  destruct (AtSave_or_later c) as [[blog ->]|Hne].
  { (* the save: a new version above all that are held, or none *)
    pose proof (markerSave_versionsOk blog w Hseq) as Hseq'.
    rewrite advance_AtSave.
    unfold markerSave in *. destruct (blogStored (db w) (Blog_id blog));
      cbn [fst snd worldOf db set_db markers] in *.
    - split; [done|]. split; [by apply Forall_insert|]. split.
      + intros k ck v Hk Hv. cbn [markers]. rewrite map_app, elem_of_app.
        destruct (decide (i = k)) as [<-|Hne].
        * rewrite list_lookup_insert_eq in Hk by done. injection Hk as <-.
          injection Hv as <-. right. cbn. apply list_elem_of_singleton. done.
        * rewrite list_lookup_insert_ne in Hk by done. left. by eapply Hheld.
      + intros k1 k2 c1 c2 v H1 H2 Hv1 Hv2.
        destruct (decide (i = k1)) as [<-|Hne1], (decide (i = k2)) as [E2|Hne2];
          try subst k2; try done.
        * rewrite list_lookup_insert_eq in H1 by done. injection H1 as <-.
          rewrite list_lookup_insert_ne in H2 by done.
          injection Hv1 as <-. specialize (Hbelow k2 c2 _ H2 Hv2). lia.
        * rewrite list_lookup_insert_eq in H2 by done. injection H2 as <-.
          rewrite list_lookup_insert_ne in H1 by done.
          injection Hv2 as <-. specialize (Hbelow k1 c1 _ H1 Hv1). lia.
        * rewrite list_lookup_insert_ne in H1, H2 by done. eauto.
    - split; [done|]. split; [by apply Forall_insert|]. split.
      + intros k ck v Hk Hv.
        destruct (decide (i = k)) as [<-|Hne].
        * rewrite list_lookup_insert_eq in Hk by done. by injection Hk as <-.
        * rewrite list_lookup_insert_ne in Hk by done. by eapply Hheld.
      + intros k1 k2 c1 c2 v H1 H2 Hv1 Hv2.
        destruct (decide (i = k1)) as [<-|Hne1], (decide (i = k2)) as [E2|Hne2];
          try subst k2; try done.
        * rewrite list_lookup_insert_eq in H1 by done. by injection H1 as <-.
        * rewrite list_lookup_insert_eq in H2 by done. by injection H2 as <-.
        * rewrite list_lookup_insert_ne in H1, H2 by done. eauto. }
  rewrite (advance_later_db c w Hne).
  destruct (advance_later c w Hne Hc) as (Hok' & Hv').
  split; [done|]. split; [by apply Forall_insert|]. split.
  - intros k ck v Hk Hv.
    destruct (decide (i = k)) as [<-|Hnk].
    + rewrite list_lookup_insert_eq in Hk by done. injection Hk as <-.
      destruct Hv' as [Hv'|Hv']; rewrite Hv' in Hv; [by eapply Hheld|done].
    + rewrite list_lookup_insert_ne in Hk by done. by eapply Hheld.
  - intros k1 k2 c1 c2 v H1 H2 Hv1 Hv2.
    destruct (decide (i = k1)) as [<-|Hne1], (decide (i = k2)) as [E2|Hne2];
      try subst k2; try done.
    + rewrite list_lookup_insert_eq in H1 by done. injection H1 as <-.
      rewrite list_lookup_insert_ne in H2 by done.
      destruct Hv' as [Hv'|Hv']; rewrite Hv' in Hv1; [by eapply Hdistinct|done].
    + rewrite list_lookup_insert_eq in H2 by done. injection H2 as <-.
      rewrite list_lookup_insert_ne in H1 by done.
      destruct Hv' as [Hv'|Hv']; rewrite Hv' in Hv2; [by eapply Hdistinct|done].
    + rewrite list_lookup_insert_ne in H1, H2 by done. eauto.
Qed.

Lemma poolOk_interleave schedule calls w :
  poolOk calls (db w) →
  poolOk (fst (interleave schedule calls w)) (db (snd (interleave schedule calls w))).
Proof.
  revert calls w. induction schedule as [|i rest IH]; intros calls w Hok; [done|].
  cbn [interleave]. destruct (calls !! i) as [c|] eqn:Hi; [|by apply IH].
  pose proof (poolOk_advance calls w i c Hok Hi) as Hstep.
  destruct (advance c w) as [c' w']. by apply IH.
Qed.

Lemma poolOk_start blogs d : versionsOk d → poolOk (map AtSave blogs) d.
Proof.
  intros Hseq. split; [done|]. split; [|split].
  - apply Forall_fmap, Forall_true. done.
  - intros i c v Hi. apply list_lookup_fmap_Some in Hi as (blog & -> & _). done.
  - intros i j ci cj v Hi. apply list_lookup_fmap_Some in Hi as (blog & -> & _). done.
Qed.

Lemma blogStored_row d k row id :
  blogs d !! k = Some row → k = id ∨ br_id row = id → blogStored d id = true.
Proof.
  intros Hrow Hid. unfold blogStored. apply existsb_exists. exists (k, row). split.
  - apply list_elem_of_In, elem_of_map_to_list. exact Hrow.
  - cbn. destruct Hid as [<-|<-]; rewrite String.eqb_refl; [done|apply orb_true_r].
Qed.

Lemma blogStored_blogs d d' id :
  blogs d' = blogs d → blogStored d' id = blogStored d id.
Proof. unfold blogStored. by intros ->. Qed.

(** While every insert is accepted the store stays without a gap. *)
Lemma interleave_no_gap schedule calls w :
  sequenceOk (db w) → savesAccepted calls (db w) →
  sequenceOk (db (snd (interleave schedule calls w))).
Proof.
  revert calls w. induction schedule as [|i rest IH]; intros calls w Hseq Hacc; [done|].
  cbn [interleave]. destruct (calls !! i) as [c|] eqn:Hi; [|by apply IH].
  destruct (AtSave_or_later c) as [[blog ->]|Hne].
  - rewrite advance_AtSave, (Hacc i blog Hi). apply IH.
    + by apply (sequenceOk_save blog w Hseq), (Hacc i blog).
    + intros k blog' Hk.
      destruct (decide (i = k)) as [<-|Hne].
      * rewrite list_lookup_insert_eq in Hk by (by eapply lookup_lt_Some). done.
      * rewrite list_lookup_insert_ne in Hk by done.
        rewrite (blogStored_blogs (db w)); [by eapply Hacc|apply markerSave_blogs].
  - pose proof (advance_later_db c w Hne) as Hdb.
    pose proof (fun blog => advance_not_AtSave c w blog Hne) as Hnot.
    destruct (advance c w) as [c' w']. cbn [fst snd] in *. apply IH.
    + by rewrite Hdb.
    + intros k blog' Hk. rewrite Hdb.
      destruct (decide (i = k)) as [<-|Hnk].
      * rewrite list_lookup_insert_eq in Hk by (by eapply lookup_lt_Some).
        injection Hk as ->. by destruct (Hnot blog').
      * rewrite list_lookup_insert_ne in Hk by done. by eapply Hacc.
Qed.

(** A call awaited alone.  The store after it is the store after its
    save, so the sequence has moved by one whether the call returns or
    rejects; the version it returns is the value the sequence had when
    it was made, and the row with that version is committed. *)
Lemma createMarker_db_after_save blog w :
  db (worldOf (createMarker blog w)) = db (worldOf (markerSave blog w))
  ∧ ∀ m, resultOf (createMarker blog w) = Ok m →
         markerVersion m = markerSeq (db w)
         ∧ blogStored (db w) (Blog_id blog) = true.
Proof.
  unfold createMarker, bind.
  destruct (markerSave blog w) as [r1 w1] eqn:Hs.
  assert (Hr1 : match r1 with
                | Ok saved => mr_version saved = markerSeq (db w)
                              ∧ blogStored (db w) (Blog_id blog) = true
                | Throw _ => True
                end).
  { unfold markerSave in Hs. destruct (blogStored _ _); by injection Hs as <- <-. }
  destruct r1 as [saved|e]; cbn [worldOf resultOf fst snd]; [|done].
  destruct Hr1 as [Hv Hstored].
  pose proof (loadMarker_keeps db saved w1) as K2.
  destruct (loadMarker saved w1) as [[[m b]|e] w2] eqn:Hl; cbn [worldOf resultOf fst snd] in *;
    [|done].
  apply loadMarker_version in Hl.
  pose proof (reloadAuthor_keeps db keeps_db_console saved m b w2) as K3.
  destruct (reloadAuthor saved m b w2) as [[m'|e] w3] eqn:Hr; cbn [worldOf resultOf fst snd] in *;
    [|by rewrite K3].
  apply reloadAuthor_version in Hr.
  pose proof (safePublishMarker_keeps db keeps_db_console keeps_db_listeners
                (payloadOf m') w3) as K4.
  destruct (safePublishMarker (payloadOf m') w3) as [[[]|e] w4];
    cbn [worldOf resultOf fst snd] in *; [|by rewrite K4, K3].
  pose proof (safePublishToRedis_keeps db keeps_db_console keeps_db_redis
                (payloadOf m') w4) as K5.
  destruct (safePublishToRedis (payloadOf m') w4) as [[[]|e] w5];
    cbn [worldOf resultOf fst snd ret] in *; rewrite K5, K4, K3; (split; [done|]); [|done].
  intros m0 [= <-]. split; [congruence|done].
Qed.

Lemma createMarker_takes_next blog w :
  versionsOk (db w) →
  versionsOk (db (worldOf (createMarker blog w)))
  ∧ markerSeq (db (worldOf (createMarker blog w))) = markerSeq (db w) + 1
  ∧ (∀ v, v ∈ map mr_version (markers (db w)) →
          v ∈ map mr_version (markers (db (worldOf (createMarker blog w)))))
  ∧ ∀ m, resultOf (createMarker blog w) = Ok m →
         markerVersion m = markerSeq (db w)
         ∧ markerVersion m ∈ map mr_version (markers (db (worldOf (createMarker blog w)))).
Proof.
  intros Hseq. destruct (createMarker_db_after_save blog w) as [-> Hm].
  split; [by apply markerSave_versionsOk|]. split; [apply markerSave_next|].
  split.
  - intros v Hv. unfold markerSave. destruct (blogStored _ _); cbn; [|done].
    rewrite map_app, elem_of_app. by left.
  - intros m Hr. destruct (Hm m Hr) as [Hv Hstored]. split; [done|].
    unfold markerSave. rewrite Hstored. cbn. rewrite map_app, elem_of_app. right.
    rewrite Hv. cbn. by apply list_elem_of_singleton.
Qed.

Lemma createAll_increasing blogs w :
  versionsOk (db w) →
  StronglySorted Z.lt (returnedVersions (fst (createAll blogs w)))
  ∧ Forall (fun v => markerSeq (db w) ≤ v) (returnedVersions (fst (createAll blogs w)))
  ∧ versionsOk (db (snd (createAll blogs w)))
  ∧ (∀ v, v ∈ map mr_version (markers (db w)) →
          v ∈ map mr_version (markers (db (snd (createAll blogs w)))))
  ∧ (∀ v, v ∈ returnedVersions (fst (createAll blogs w)) →
          v ∈ map mr_version (markers (db (snd (createAll blogs w))))).
Proof.
  revert w. induction blogs as [|blog rest IH]; intros w Hseq.
  - cbn. split; [constructor|]. split; [constructor|]. split; [done|]. split; [done|].
    intros v Hv. by apply elem_of_nil in Hv.
  - cbn [createAll].
    destruct (createMarker_takes_next blog w Hseq) as (Hseq' & Hnext & Hkept & Hv).
    destruct (createMarker blog w) as [r w1]. cbn [worldOf resultOf fst snd] in *.
    destruct (IH w1 Hseq') as (Hsorted & Hlow & Hend & Hkept' & Hrows).
    destruct (createAll rest w1) as [rs w2]. cbn [fst snd] in *.
    destruct r as [m|e]; cbn [returnedVersions].
    + destruct (Hv m eq_refl) as [Hm Hrow]. rewrite Hm in *.
      split; [|split; [|split; [done|split; [by auto|]]]].
      * constructor; [done|]. eapply Forall_impl; [exact Hlow|]. cbn. lia.
      * constructor; [lia|]. eapply Forall_impl; [exact Hlow|]. cbn. lia.
      * intros v Hin. apply elem_of_cons in Hin as [->|Hin]; auto.
    + split; [done|]. split; [|split; [done|split; [by auto|done]]].
      eapply Forall_impl; [exact Hlow|]. cbn. lia.
Qed.

Lemma createAll_no_gap blogs w :
  sequenceOk (db w) →
  Forall (fun blog => blogStored (db w) (Blog_id blog) = true) blogs →
  sequenceOk (db (snd (createAll blogs w))).
Proof.
  revert w. induction blogs as [|blog rest IH]; intros w Hseq Hall; [done|].
  apply Forall_cons in Hall as [Hblog Hrest]. cbn [createAll].
  destruct (createMarker_db_after_save blog w) as [Hdb _].
  pose proof (sequenceOk_save blog w Hseq Hblog) as Hseq'.
  pose proof (markerSave_blogs blog w) as Hblogs.
  destruct (createMarker blog w) as [r w1]. cbn [worldOf snd] in Hdb.
  rewrite <- Hdb in Hseq', Hblogs.
  specialize (IH w1 Hseq').
  destruct (createAll rest w1) as [rs w2]. cbn [snd] in *. apply IH.
  eapply Forall_impl; [exact Hrest|]. cbn. intros b Hb.
  by rewrite (blogStored_blogs (db w)).
Qed.

(** The call in flight is the method: run alone through its five
    awaits it ends where [createMarker] ends. *)
Lemma alone_is_createMarker blog w :
  outcome (fst (alone blog w)) = Some (resultOf (createMarker blog w))
  ∧ snd (alone blog w) = worldOf (createMarker blog w).
Proof.
  unfold alone, createMarker, bind. cbn [advance continue].
  destruct (markerSave blog w) as [[saved|e] w1]; cbn [advance continue]; [|done].
  destruct (loadMarker saved w1) as [[[m b]|e] w2]; cbn [advance continue]; [|done].
  destruct (reloadAuthor saved m b w2) as [[m'|e] w3]; cbn [advance continue]; [|done].
  destruct (safePublishMarker (payloadOf m') w3) as [[[]|e] w4]; cbn [advance continue];
    [|done].
  destruct (safePublishToRedis (payloadOf m') w4) as [[[]|e] w5]; done.
Qed.

(** C2, as the code has it: the version of a marker is the value of
    the store's sequence at the save, never a value the application
    computes.  From a store whose rows carry, in commit order,
    strictly increasing versions handed out by the sequence: calls
    awaited one after the other return strictly increasing versions;
    however the steps of concurrent calls interleave, no two calls
    return the same version; every returned version is that of a
    committed row; and the rows still carry strictly increasing
    versions below the sequence, so that no two share one.  A value of
    the sequence is spent without a row only by an insert the store
    refuses: from a store without a gap, calls for stored blogs leave
    no gap. *)
Theorem createMarker_versions_come_from_the_sequence blogs schedule w :
  versionsOk (db w) →
  let sequential := createAll blogs w in
  let concurrent := interleave schedule (map AtSave blogs) w in
  let d := db (snd concurrent) in
  (∀ blog m, resultOf (createMarker blog w) = Ok m → markerVersion m = markerSeq (db w))
  ∧ (∀ blog, outcome (fst (alone blog w)) = Some (resultOf (createMarker blog w)))
  ∧ StronglySorted Z.lt (returnedVersions (fst sequential))
  ∧ (∀ v, v ∈ returnedVersions (fst sequential) →
          ∃ row, row ∈ markers (db (snd sequential)) ∧ mr_version row = v)
  ∧ versionsOk (db (snd sequential))
  ∧ (∀ i j mi mj,
       fst concurrent !! i = Some (Returned mi) →
       fst concurrent !! j = Some (Returned mj) →
       i ≠ j → markerVersion mi ≠ markerVersion mj)
  ∧ (∀ i m, fst concurrent !! i = Some (Returned m) →
            ∃ row, row ∈ markers d ∧ mr_version row = markerVersion m)
  ∧ StronglySorted Z.lt (map mr_version (markers d))
  ∧ (∀ row, row ∈ markers d → 1 ≤ mr_version row < markerSeq d)
  ∧ (sequenceOk (db w) →
     Forall (fun blog => blogStored (db w) (Blog_id blog) = true) blogs →
     sequenceOk (db (snd sequential)) ∧ sequenceOk d).
Proof.
  intros Hseq sequential concurrent d. subst sequential concurrent d.
  pose proof (poolOk_interleave schedule _ w (poolOk_start blogs _ Hseq))
    as (Hend & _ & Hheld & Hdistinct).
  destruct (createAll_increasing blogs w Hseq) as (Hsorted & _ & Hseq' & _ & Hrows).
  split; [intros blog m Hm; by apply (createMarker_takes_next blog w Hseq)|].
  split; [intros blog; apply alone_is_createMarker|].
  split; [done|].
  split; [intros v Hv; by apply version_row, Hrows|].
  split; [done|].
  split.
  { intros i j mi mj Hi Hj Hne Heq. apply Hne.
    eapply (Hdistinct i j _ _ (markerVersion mi) Hi Hj); [done|]. cbn. by rewrite Heq. }
  split.
  { intros i m Hi. apply version_row. by eapply Hheld. }
  split; [apply Hend|].
  split; [intros row Hrow; by apply versionsOk_row|].
  intros Hgapless Hall. split; [by apply createAll_no_gap|].
  apply interleave_no_gap; [done|].
  intros i blog Hi. apply list_lookup_fmap_Some in Hi as (blog' & [= ->] & Hi).
  rewrite Forall_forall in Hall. apply Hall. by eapply list_elem_of_lookup_2.
Qed.

Lemma createMarker_versions_come_from_the_sequence_witness :
  let blogs := [Scenario.blogOf "b-1" 600001; Scenario.blogOf "b-gone" 600003;
                Scenario.blogOf "b-2" 600002] in
  let schedule := [1; 2; 0; 0; 2; 1; 2; 0; 2; 0; 0; 2]%nat in
  returnedVersions (fst (createAll blogs Scenario.twoBlogs)) = [1; 3]
  ∧ (heldVersion <$> fst (interleave schedule (map AtSave blogs) Scenario.twoBlogs))
    = [Some 3; None; Some 2]
  ∧ StronglySorted Z.lt
      (map mr_version
         (markers (db (snd (interleave schedule (map AtSave blogs) Scenario.twoBlogs))))).
Proof.
  intros blogs schedule.
  destruct (createMarker_versions_come_from_the_sequence blogs schedule Scenario.twoBlogs)
    as (_ & _ & _ & _ & _ & _ & _ & Hsorted & _).
  - vm_compute. split; [discriminate|]. split; constructor.
  - split; [vm_compute; reflexivity|]. split; [vm_compute; reflexivity|]. exact Hsorted.
Defined.

End Versions.

(** C2 fails as stated: a version can be spent without a row.  The
    worker has looked up blog b-1 and its author deletes the blog
    before the worker's [createMarker] reaches its save.  The store
    refuses the insert, the call rejects, and the value 1 of the
    sequence is gone: the next marker is committed with version 2, and
    no row will ever carry version 1. *)
Lemma refused_insert_spends_a_version :
  let w0 := Scenario.twoBlogs in
  let found := BlogService.findOne "b-1" w0 in
  let deleted := BlogService.remove "b-1" Sample.alice w0 in
  let first := NotificationService.createMarker (Scenario.blogOf "b-1" 600001)
                 (worldOf deleted) in
  let second := NotificationService.createMarker (Scenario.blogOf "b-2" 600002)
                  (worldOf first) in
  (markerSeq (db w0) = 1 ∧ markers (db w0) = [])
  ∧ resultOf found = Ok (Scenario.blogOf "b-1" 600001)
  ∧ resultOf deleted = Ok true
  ∧ resultOf first = Throw (Error "violates foreign key constraint")
  ∧ (∃ m, resultOf second = Ok m ∧ markerVersion m = 2)
  ∧ markerSeq (db (worldOf second)) = 3
  ∧ map mr_version (markers (db (worldOf second))) = [2]
  ∧ ¬ (∃ row, row ∈ markers (db (worldOf second)) ∧ mr_version row = 1).
Proof.
  vm_compute. repeat split; try reflexivity.
  - eexists. split; reflexivity.
  - intros (row & Hrow & Hv). apply list_elem_of_singleton in Hrow. subst row.
    discriminate Hv.
Qed.


(** * More on the queue *)

Section Queue.
Import NotificationQueueService RedisOptions Usage.

Lemma enqueue_up event w :
  queueUp (redis w) = true →
  enqueueBlogCreatedEvent event w
  = (Ok tt, set_redis {| queue := event :: queue (redis w); channel := channel (redis w);
                         queueUp := queueUp (redis w); busUp := busUp (redis w) |} w).
Proof.
  intros Hup. unfold enqueueBlogCreatedEvent, tryCatch, lpush. by rewrite Hup.
Qed.

Lemma enqueueAll_up events w :
  queueUp (redis w) = true →
  resultOf (enqueueAll events w) = Ok tt
  ∧ queue (redis (worldOf (enqueueAll events w))) = (rev events ++ queue (redis w))%list
  ∧ queueUp (redis (worldOf (enqueueAll events w))) = true.
Proof.
  revert w. induction events as [|event rest IH]; intros w Hup; [done|].
  cbn [enqueueAll]. unfold bind. rewrite (enqueue_up _ _ Hup).
  destruct (IH (set_redis {| queue := event :: queue (redis w); channel := channel (redis w);
                             queueUp := queueUp (redis w); busUp := busUp (redis w) |} w))
    as (Hr & Hq & Hu); [done|].
  split; [exact Hr|]. split; [|exact Hu].
  rewrite Hq. cbn. by rewrite <- app_assoc.
Qed.

Lemma dequeue_up t w :
  queueUp (redis w) = true →
  resultOf (dequeueBlogCreatedEvent t w) = Ok (head (rev (queue (redis w))))
  ∧ queue (redis (worldOf (dequeueBlogCreatedEvent t w))) = rev (tail (rev (queue (redis w))))
  ∧ queueUp (redis (worldOf (dequeueBlogCreatedEvent t w))) = true
  ∧ console (worldOf (dequeueBlogCreatedEvent t w)) = console w.
Proof.
  intros Hup. unfold dequeueBlogCreatedEvent, tryCatch, bind, brpop. rewrite Hup.
  destruct (rev (queue (redis w))) as [|event rest] eqn:Hrev; cbn.
  - repeat split; try done. rewrite <- (rev_involutive (queue (redis w))). by rewrite Hrev.
  - done.
Qed.

Lemma dequeueAll_up n w :
  queueUp (redis w) = true →
  resultOf (dequeueAll n w) = Ok (take n (rev (queue (redis w))))
  ∧ queue (redis (worldOf (dequeueAll n w))) = rev (drop n (rev (queue (redis w)))).
Proof.
  revert w. induction n as [|n IH]; intros w Hup.
  - split; [done|]. unfold dequeueAll, ret, worldOf. cbn [snd].
    by rewrite drop_0, rev_involutive.
  - cbn [dequeueAll]. unfold bind.
    destruct (dequeue_up 1 w Hup) as (Hr & Hq & Hu & _).
    destruct (dequeueBlogCreatedEvent 1 w) as [r w1].
    cbn [resultOf worldOf fst snd] in *. subst r.
    destruct (rev (queue (redis w))) as [|event rest] eqn:Hrev; cbn [head tail] in *.
    + cbn. split; [done|]. done.
    + destruct (IH w1 Hu) as [Hr' Hq'].
      destruct (dequeueAll n w1) as [r' w2]. cbn [resultOf worldOf fst snd] in *.
      subst r'. rewrite Hq, rev_involutive in *. cbn. done.
Qed.

(** X1: The queue is first in, first out: events enqueued on an empty
    queue whose commands are carried out are handed to the consumer in
    the order they were enqueued, and the queue is empty again
    afterwards. *)
Theorem queue_first_in_first_out events w :
  queueUp (redis w) = true →
  queue (redis w) = [] →
  let out := (enqueueAll events ;; dequeueAll (length events)) w in
  resultOf out = Ok events ∧ queue (redis (worldOf out)) = [].
Proof.
  intros Hup Hempty out. subst out. unfold bind.
  destruct (enqueueAll_up events w Hup) as (Hr & Hq & Hu).
  destruct (enqueueAll events w) as [r w1]. cbn [resultOf worldOf fst snd] in *. subst r.
  destruct (dequeueAll_up (length events) w1 Hu) as [Hr' Hq'].
  rewrite Hr', Hq', Hq, Hempty, app_nil_r. rewrite rev_involutive.
  rewrite firstn_all, drop_all. done.
Qed.

Lemma queue_first_in_first_out_witness :
  let events := [Scenario.eventFor "b-1"; Scenario.eventFor "b-2"; Scenario.eventFor "b-3"] in
  resultOf ((enqueueAll events ;; dequeueAll 3) Scenario.fresh) = Ok events.
Proof.
  intros events.
  destruct (queue_first_in_first_out events Scenario.fresh) as [H _];
    [reflexivity|reflexivity|exact H].
Defined.

(** X3: [getQueueLength] never rejects.  When its [LLEN] is carried out
    it counts the queued events, one more after each enqueue; when the
    [LLEN] is rejected it logs the failure and answers 0, however many
    events are queued, so its caller cannot tell a failure from an
    empty queue. *)
Theorem getQueueLength_counts_or_zero event w :
  if queueUp (redis w)
  then resultOf (getQueueLength w) = Ok (Z.of_nat (length (queue (redis w))))
       ∧ resultOf ((enqueueBlogCreatedEvent event ;; getQueueLength) w)
         = Ok (Z.of_nat (length (queue (redis w))) + 1)
  else resultOf (getQueueLength w) = Ok 0
       ∧ console (worldOf (getQueueLength w))
         = (LError, "Error getting queue length:") :: console w.
Proof.
  destruct (queueUp (redis w)) eqn:Hup.
  - split.
    + unfold getQueueLength, tryCatch, llen. by rewrite Hup.
    + unfold bind. rewrite (enqueue_up _ _ Hup).
      unfold getQueueLength, tryCatch, llen. cbn. rewrite Hup. cbn. f_equal. lia.
  - unfold getQueueLength, tryCatch, llen. rewrite Hup. done.
Qed.

(** The reconnection delay grows by 50 ms per attempt and is capped at
    30 seconds: it never exceeds the cap, never shrinks from one
    attempt to the next, and reaches the cap at attempt 600. *)
Theorem retryStrategy_capped times later :
  retryStrategy times ≤ 30000
  ∧ (times ≤ later → retryStrategy times ≤ retryStrategy later)
  ∧ (times ≤ 600 → retryStrategy times = times * 50)
  ∧ (600 ≤ times → retryStrategy times = 30000).
Proof. unfold retryStrategy. lia. Qed.

End Queue.

(** * More on the blog service *)

Section Blogs.
Import BlogService.

#[local] Instance createdDesc_total : Total createdDesc.
Proof. intros a b. unfold createdDesc. lia. Qed.
#[local] Instance createdDesc_trans : Transitive createdDesc.
Proof. intros a b c. unfold createdDesc. lia. Qed.


(** X5: A created blog can be read back whatever became of the enqueue:
    [findOne] on the new id returns the blog [create] wrote, also when
    [create] itself rejected because the enqueue was rejected. *)
Theorem create_then_findOne input author newId w :
  resultOf (findOne newId (worldOf (create input author newId w)))
  = Ok (withAuthor (db w) (newRow newId input (u_id author) (now w))).
Proof.
  unfold create, repositorySave, repositoryFindOne, findOne,
    NotificationQueueService.enqueueBlogCreatedEvent, NotificationQueueService.lpush,
    bind, tryCatch, gets, ret, throw, consoleLine, modify, resultOf, worldOf.
  cbn [db set_db blogs br_id newRow]. rewrite lookup_insert_eq. cbn.
  destruct (queueUp (redis w)); cbn; rewrite lookup_insert_eq; reflexivity.
Qed.

(** X6: Who may delete a blog.  An unknown id is a [NotFoundException];
    anyone but the author is refused; the author's delete of a blog
    that a marker points at is refused by the store; in all three
    cases nothing changes.  Otherwise the row is deleted, [remove]
    answers [true], and the blog can no longer be found. *)
Theorem remove_only_by_author id user w :
  (∀ row, blogs (db w) !! id = Some row → br_id row = id) →
  let out := remove id user w in
  match blogs (db w) !! id with
  | None => out = (Throw (NotFoundException "Blog with ID not found"), w)
  | Some row =>
      if negb (String.eqb (br_authorId row) (u_id user))
      then out = (Throw (Error "You can only delete your own blogs"), w)
      else if existsb (fun m => String.eqb (mr_blogId m) id) (markers (db w))
      then out = (Throw (Error "violates foreign key constraint"), w)
      else resultOf out = Ok true
           ∧ blogs (db (worldOf out)) = delete id (blogs (db w))
           ∧ resultOf (findOne id (worldOf out))
             = Throw (NotFoundException "Blog with ID not found")
  end.
Proof.
  intros Hkey out. subst out.
  unfold remove, findOne, repositoryFindOne, repositoryRemove, bind, gets, ret, throw.
  destruct (blogs (db w) !! id) as [row|] eqn:Hrow; cbn; [|done].
  destruct (String.eqb (br_authorId row) (u_id user)); cbn; [|done].
  unfold Blog_id. cbn. rewrite (Hkey row eq_refl).
  destruct (existsb _ _); cbn; [done|].
  rewrite lookup_delete_eq. done.
Qed.

Lemma remove_only_by_author_witness :
  let w := worldOf (create Scenario.intro Sample.alice "b-9" Scenario.fresh) in
  remove "b-9" Sample.bob w
  = (Throw (Error "You can only delete your own blogs"), w)
  ∧ resultOf (remove "b-9" Sample.alice w) = Ok true.
Proof.
  intros w. split.
  - pose proof (remove_only_by_author "b-9" Sample.bob w) as H.
    cbv zeta in H. apply H. intros row. vm_compute. by intros [= <-].
  - pose proof (remove_only_by_author "b-9" Sample.alice w) as H.
    cbv zeta in H. apply H. intros row. vm_compute. by intros [= <-].
Defined.

End Blogs.

(** * More on [createMarker] *)

(** Parts of the world that only the Redis channel, the console and
    the listeners are no part of. *)
Section KeepsButChannel.
Import NotificationService.
Context {B : Type} (f : World → B).
Hypothesis Hconsole : ∀ c w, f (set_console c w) = f w.
Hypothesis Hlisteners : ∀ ls w, f (set_listeners ls w) = f w.
Hypothesis Hchannel :
  ∀ ch w, f (set_redis {| queue := queue (redis w); channel := ch;
                          queueUp := queueUp (redis w); busUp := busUp (redis w) |} w)
          = f w.

Lemma redisPublish_keeps_but_channel p : keeps f (redisPublish p).
Proof.
  intros w. unfold redisPublish. destruct (busUp (redis w)) eqn:Hb; [|done].
  cbn [worldOf snd]. rewrite <- Hb. apply Hchannel.
Qed.

Lemma safePublishToRedis_keeps_but_channel p : keeps f (safePublishToRedis p).
Proof.
  unfold safePublishToRedis.
  repeat first [ apply consoleLine_keeps | apply redisPublish_keeps_but_channel
               | keeps_step ]; done.
Qed.

(** After its save, [createMarker] changes nothing of [f]. *)
Lemma createMarker_after_save blog w :
  f (worldOf (createMarker blog w)) = f (worldOf (markerSave blog w)).
Proof.
  unfold createMarker. unfold bind at 1.
  destruct (markerSave blog w) as [[saved|e] w1] eqn:Hs; [|done].
  cbn [worldOf snd].
  match goal with
  | |- f (worldOf (?m w1)) = _ => assert (Hk : keeps f m); [|exact (Hk w1)]
  end.
  repeat first [ apply safePublishMarker_keeps | apply safePublishToRedis_keeps_but_channel
               | apply loadMarker_keeps | apply reloadAuthor_keeps
               | keeps_step ]; done.
Qed.

End KeepsButChannel.

Section CreateMarker.
Import NotificationService Spec.

(** The save of a marker for a stored blog commits its row. *)
Lemma markerSave_stored blog w :
  blogStored (db w) (Blog_id blog) = true →
  markerSave blog w
  = (Ok {| mr_version := markerSeq (db w); mr_blogId := Blog_id blog;
           mr_createdAt := now w |},
     set_db {| users := users (db w); blogs := blogs (db w);
               markers := markers (db w)
                          ++ [{| mr_version := markerSeq (db w); mr_blogId := Blog_id blog;
                                 mr_createdAt := now w |}];
               markerSeq := markerSeq (db w) + 1; userStates := userStates (db w) |} w).
Proof. intros Hstored. unfold markerSave. by rewrite Hstored. Qed.

(** The row [createMarker] writes for a stored [blog] in [w]. *)
Lemma createMarker_db blog w :
  blogStored (db w) (Blog_id blog) = true →
  db (worldOf (createMarker blog w))
  = {| users := users (db w); blogs := blogs (db w);
       markers := markers (db w)
                  ++ [{| mr_version := markerSeq (db w); mr_blogId := Blog_id blog;
                         mr_createdAt := now w |}];
       markerSeq := markerSeq (db w) + 1; userStates := userStates (db w) |}.
Proof.
  intros Hstored. by rewrite (createMarker_after_save db), (markerSave_stored _ _ Hstored).
Qed.

Lemma find_new_row d row :
  Callers.sequenceOk d → mr_version row = markerSeq d →
  List.find (fun r => mr_version r =? markerSeq d) (markers d ++ [row]) = Some row.
Proof.
  intros [_ Hs] Hv.
  assert (Hold : Forall (fun r => mr_version r < markerSeq d) (markers d)).
  { apply Forall_forall. intros r Hr.
    assert (Hin : mr_version r ∈ map mr_version (markers d))
      by (apply list_elem_of_fmap; eauto).
    rewrite Hs, elem_of_seqZ in Hin. lia. }
  clear Hs. induction Hold as [|r rest Hr _ IH]; cbn.
  - rewrite Hv, Z.eqb_refl. done.
  - destruct (Z.eqb_spec (mr_version r) (markerSeq d)); [lia|exact IH].
Qed.

(** The marker [createMarker] builds for a stored blog. *)
Lemma createMarker_loads entity row author w :
  Callers.sequenceOk (db w) →
  blogs (db w) !! Blog_id entity = Some row →
  users (db w) !! br_authorId row = Some author →
  br_authorId row ≠ "" →
  let m := {| markerVersion := markerSeq (db w); blogId := Blog_id entity;
              blog := Some {| b_row := row; b_author := Some author |};
              createdAt := now w |} in
  createMarker entity w
  = (safePublishMarker (payloadOf m) ;; safePublishToRedis (payloadOf m) ;; ret m)
      (worldOf (markerSave entity w)).
Proof.
  intros Hseq Hrow Hauthor Hid m. subst m.
  assert (Hstored : blogStored (db w) (Blog_id entity) = true)
    by (eapply blogStored_row; eauto).
  unfold createMarker. unfold bind at 1. rewrite (markerSave_stored _ _ Hstored).
  cbn [worldOf snd].
  unfold bind at 1. unfold loadMarker, markerFindOne, bind at 1, gets.
  cbn [db set_db markers mr_version].
  rewrite (find_new_row (db w)) by done. cbn [fmap option_fmap option_map].
  unfold withBlog at 1 2. cbn [blog mr_blogId set_db db blogs].
  rewrite Hrow. cbn [fmap option_fmap option_map ret].
  unfold bind at 1. unfold reloadAuthor, BlogService.withAuthor.
  cbn [b_author b_row set_db db users]. rewrite Hauthor. cbn [ret].
  unfold ensureAuthorId. cbn [b_author b_row].
  destruct (String.eqb_spec (br_authorId row) ""); [done|].
  reflexivity.
Qed.

Lemma payload_publishable v id row author today :
  1 ≤ v → br_id row ≠ "" → br_authorId row ≠ "" →
  publishable
    (payloadOf {| markerVersion := v; blogId := id;
                  blog := Some {| b_row := row; b_author := Some author |};
                  createdAt := today |}) = true.
Proof.
  intros Hv Hid Hauthor.
  unfold publishable, payloadOf, markerPayload, blogObject, Blog_id, Js.or. cbn.
  replace (0 <? v) with true by lia.
  destruct (String.eqb_spec (br_id row) ""); [done|].
  destruct (String.eqb_spec (br_authorId row) ""); [done|].
  cbn. destruct (String.eqb (u_id author) ""); cbn; [|done].
  destruct (String.eqb_spec (br_authorId row) ""); done.
Qed.

(** X7: [createMarker] only ever adds, and what it adds is decided
    at its save.  For a blog the store holds, one marker row with the
    next value of the sequence is committed whether the call then
    returns or rejects, and it is never taken back.  For a blog the
    store no longer holds the insert is refused: the call rejects with
    the store's error, no row is written and nothing is published, but
    the value of the sequence is spent all the same.  Either way
    users, blogs, read cursors, the queue and the worker's flag are
    left as they were. *)
Theorem createMarker_commits_one_row entity w :
  let out := createMarker entity w in
  let w' := worldOf out in
  (if blogStored (db w) (Blog_id entity)
   then markers (db w')
        = (markers (db w)
           ++ [{| mr_version := markerSeq (db w); mr_blogId := Blog_id entity;
                  mr_createdAt := now w |}])%list
   else markers (db w') = markers (db w)
        ∧ resultOf out = Throw (Error "violates foreign key constraint")
        ∧ listeners w' = listeners w
        ∧ channel (redis w') = channel (redis w)
        ∧ console w' = console w)
  ∧ markerSeq (db w') = markerSeq (db w) + 1
  ∧ users (db w') = users (db w)
  ∧ blogs (db w') = blogs (db w)
  ∧ userStates (db w') = userStates (db w)
  ∧ queue (redis w') = queue (redis w)
  ∧ isProcessing w' = isProcessing w.
Proof.
  intros out w'. subst out w'.
  assert (Hdb : db (worldOf (createMarker entity w)) = db (worldOf (markerSave entity w)))
    by (by rewrite (createMarker_after_save db)).
  assert (Hq : queue (redis (worldOf (createMarker entity w)))
               = queue (redis (worldOf (markerSave entity w))))
    by (by rewrite (createMarker_after_save (fun w => queue (redis w)))).
  assert (Hp : isProcessing (worldOf (createMarker entity w))
               = isProcessing (worldOf (markerSave entity w)))
    by (by rewrite (createMarker_after_save isProcessing)).
  rewrite Hdb, Hq, Hp.
  destruct (blogStored (db w) (Blog_id entity)) eqn:Hstored.
  - by rewrite (markerSave_stored _ _ Hstored).
  - unfold createMarker, bind, markerSave. rewrite Hstored. done.
Qed.

(** X8: The happy path, and what the bus has to do with it.  For a stored
    blog with its author, on a store whose sequence is in order and
    with the local PubSub working, [createMarker] returns the marker
    with the next version and every live subscription is offered its
    payload, whether the [PUBLISH] to Redis is carried out or
    rejected.  When it is carried out the serialized payload is
    appended to the channel; when it is rejected (or the payload
    cannot be serialized) the channel is left alone and the failure is
    only logged. *)
Theorem createMarker_redis_is_optional entity row author w :
  Callers.sequenceOk (db w) →
  blogs (db w) !! Blog_id entity = Some row →
  users (db w) !! br_authorId row = Some author →
  br_id row ≠ "" →
  br_authorId row ≠ "" →
  pubsubUp w = true →
  let m := {| markerVersion := markerSeq (db w); blogId := Blog_id entity;
              blog := Some {| b_row := row; b_author := Some author |};
              createdAt := now w |} in
  let out := createMarker entity w in
  resultOf out = Ok m
  ∧ listeners (worldOf out)
    = map (NotificationResolver.offer (now w) (payloadOf m)) (listeners w)
  ∧ match redisPayload (payloadOf m) with
    | Some message =>
        if busUp (redis w)
        then channel (redis (worldOf out)) = (channel (redis w) ++ [message])%list
             ∧ console (worldOf out) = console w
        else channel (redis (worldOf out)) = channel (redis w)
             ∧ console (worldOf out) = (LError, "Error publishing to Redis:") :: console w
    | None =>
        channel (redis (worldOf out)) = channel (redis w)
        ∧ console (worldOf out) = (LError, "Error publishing to Redis:") :: console w
    end.
Proof.
  intros Hseq Hrow Hauthor Hid Haid Hup m out. subst out.
  rewrite (createMarker_loads entity row author w Hseq Hrow Hauthor Haid).
  rewrite (markerSave_stored entity w) by (eapply blogStored_row; eauto). fold m.
  assert (Hp : publishable (payloadOf m) = true)
    by (apply payload_publishable; [destruct Hseq; lia|done|done]).
  unfold bind at 1. rewrite (safePublishMarker_accepts _ Hp).
  unfold tryCatch at 1, pubSubPublish. cbn [markerSave worldOf snd pubsubUp set_db].
  rewrite Hup. unfold bind, safePublishToRedis, tryCatch, redisPublish, ret.
  destruct (redisPayload (payloadOf m)) as [message|]; cbn; rewrite ?Hup; cbn.
  - destruct (busUp (redis w)); cbn; done.
  - done.
Qed.

Lemma createMarker_redis_is_optional_witness :
  let w := set_redis Sample.redisDown Scenario.twoBlogs in
  ∃ m, resultOf (createMarker (Scenario.blogOf "b-1" 600001) w) = Ok m
       ∧ markerVersion m = 1
       ∧ channel (redis (worldOf (createMarker (Scenario.blogOf "b-1" 600001) w))) = [].
Proof.
  intros w.
  destruct (createMarker_redis_is_optional
              (Scenario.blogOf "b-1" 600001) (Sample.blogRow "b-1" 600001) Sample.alice w)
    as (Hr & _ & Hc).
  - vm_compute. split; [discriminate|reflexivity].
  - reflexivity.
  - reflexivity.
  - discriminate.
  - discriminate.
  - reflexivity.
  - eexists. split; [exact Hr|]. split; [reflexivity|]. vm_compute. reflexivity.
Defined.

(** X9: No rollback: when the local PubSub fails, [createMarker] rejects
    with the PubSub's error, no subscription is offered anything and
    Redis is never tried, yet the marker row stays committed and its
    version is spent. *)
Theorem createMarker_rejects_after_commit entity row author w :
  Callers.sequenceOk (db w) →
  blogs (db w) !! Blog_id entity = Some row →
  users (db w) !! br_authorId row = Some author →
  br_id row ≠ "" →
  br_authorId row ≠ "" →
  pubsubUp w = false →
  let out := createMarker entity w in
  resultOf out = Throw (Error "PubSub publish failed")
  ∧ listeners (worldOf out) = listeners w
  ∧ channel (redis (worldOf out)) = channel (redis w)
  ∧ console (worldOf out) = (LError, "Error publishing to local PubSub:") :: console w
  ∧ map mr_version (markers (db (worldOf out)))
    = (map mr_version (markers (db w)) ++ [markerSeq (db w)])%list
  ∧ markerSeq (db (worldOf out)) = markerSeq (db w) + 1.
Proof.
  intros Hseq Hrow Hauthor Hid Haid Hdown out. subst out.
  split; [|split; [|split; [|split]]].
  5: { rewrite createMarker_db by (eapply blogStored_row; eauto). cbn. by rewrite map_app. }
  all: rewrite (createMarker_loads entity row author w Hseq Hrow Hauthor Haid).
  all: rewrite (markerSave_stored entity w) by (eapply blogStored_row; eauto).
  all: unfold bind at 1; rewrite safePublishMarker_accepts
         by (apply payload_publishable; [destruct Hseq; lia|done|done]).
  all: unfold tryCatch at 1, pubSubPublish; cbn; rewrite ?Hdown; done.
Qed.

Lemma createMarker_rejects_after_commit_witness :
  let w := set_listeners [] (Sample.world (db Scenario.twoBlogs) (Sample.redisUp []) []) in
  let down := {| db := db w; redis := redis w; listeners := []; pubsubUp := false;
                 isProcessing := true; processingInterval := false; console := [];
                 now := 700000 |} in
  resultOf (createMarker (Scenario.blogOf "b-1" 600001) down)
  = Throw (Error "PubSub publish failed")
  ∧ markerSeq (db (worldOf (createMarker (Scenario.blogOf "b-1" 600001) down))) = 2.
Proof.
  intros w down.
  destruct (createMarker_rejects_after_commit
              (Scenario.blogOf "b-1" 600001) (Sample.blogRow "b-1" 600001) Sample.alice down)
    as (Hr & _ & _ & _ & _ & Hs).
  - vm_compute. split; [discriminate|reflexivity].
  - reflexivity.
  - reflexivity.
  - discriminate.
  - discriminate.
  - reflexivity.
  - split; [exact Hr|exact Hs].
Defined.

End CreateMarker.

(** * More on the worker *)

Section WorkerFrame.
Import NotificationService NotificationWorkerService.
Context {B : Type} (f : World → B).
Hypothesis Hconsole : ∀ c w, f (set_console c w) = f w.
Hypothesis Hlisteners : ∀ ls w, f (set_listeners ls w) = f w.
Hypothesis Hchannel :
  ∀ ch w, f (set_redis {| queue := queue (redis w); channel := ch;
                          queueUp := queueUp (redis w); busUp := busUp (redis w) |} w)
          = f w.
Hypothesis Htimer : ∀ b w, f (set_processingInterval b w) = f w.

Lemma processBlogCreatedEvent_after_save event row w :
  blogs (db w) !! ev_blogId event = Some row →
  f (worldOf (processBlogCreatedEvent event w))
  = f (worldOf (markerSave (BlogService.withAuthor (db w) row) w)).
Proof.
  intros Hrow.
  rewrite <- (createMarker_after_save f Hconsole Hlisteners Hchannel).
  unfold processBlogCreatedEvent, BlogService.findOne, BlogService.repositoryFindOne,
    tryCatch, bind, gets, ret, throw, consoleLine, modify.
  rewrite Hrow. cbn [fmap option_fmap option_map].
  destruct (createMarker _ w) as [[m|e] w2]; cbn [worldOf snd]; [done|apply Hconsole].
Qed.

(** A run of [processQueue] whose event names a stored blog comes down
    to the save of the marker row, as far as [f] can tell. *)
Lemma processQueue_after_save w event rest row :
  isProcessing w = true →
  queueUp (redis w) = true →
  queue (redis w) = (rest ++ [event])%list →
  blogs (db w) !! ev_blogId event = Some row →
  f (worldOf (processQueue w))
  = f (worldOf (markerSave (BlogService.withAuthor (db w) row)
                  (set_redis {| queue := rest; channel := channel (redis w);
                                queueUp := queueUp (redis w); busUp := busUp (redis w) |}
                     w))).
Proof.
  intros Hp Hup Hq Hrow.
  destruct w as [d [q ch qu bu] ls pu ip pi co n].
  cbn [isProcessing redis queueUp queue db channel busUp] in *. subst ip qu q.
  set (w1 := set_redis _ _).
  assert (Hsave : f (worldOf (processBlogCreatedEvent event w1))
                  = f (worldOf (markerSave (BlogService.withAuthor d row) w1)))
    by exact (processBlogCreatedEvent_after_save event row w1 Hrow).
  rewrite <- Hsave. clear Hsave.
  unfold processQueue, finally, tryCatch at 1, bind at 1,
    NotificationQueueService.dequeueBlogCreatedEvent, NotificationQueueService.brpop,
    tryCatch at 1, bind at 1, ret.
  cbn [isProcessing redis queueUp queue negb]. rewrite rev_app_distr. cbn [rev app].
  rewrite rev_involutive. cbn [channel busUp]. fold w1.
  destruct (processBlogCreatedEvent event w1) as [[[]|e] w2];
    unfold consoleLine, modify, worldOf; cbn [fst snd].
  - destruct (isProcessing w2); [apply Htimer|done].
  - destruct (isProcessing (set_console _ w2)); [rewrite Htimer|]; apply Hconsole.
Qed.

End WorkerFrame.

Section WorkerMore.
Import NotificationService NotificationWorkerService Usage.

#[local] Open Scope list_scope.

Lemma processQueue_shape_existing w event rest row :
  isProcessing w = true →
  queueUp (redis w) = true →
  queue (redis w) = (rest ++ [event])%list →
  blogs (db w) !! ev_blogId event = Some row →
  shape (worldOf (processQueue w))
  = ({| users := users (db w); blogs := blogs (db w);
        markers := markers (db w)
                   ++ [{| mr_version := markerSeq (db w); mr_blogId := br_id row;
                          mr_createdAt := now w |}];
        markerSeq := markerSeq (db w) + 1; userStates := userStates (db w) |},
     rest, true, true, now w).
Proof.
  intros Hp Hup Hq Hrow.
  rewrite (processQueue_after_save shape) with (rest := rest) (event := event) (row := row);
    try done.
  rewrite markerSave_stored by (eapply blogStored_row; [exact Hrow|by right]).
  unfold shape. cbn. by rewrite Hup, Hp.
Qed.

Lemma processQueue_shape_missing w event rest :
  isProcessing w = true →
  queueUp (redis w) = true →
  queue (redis w) = (rest ++ [event])%list →
  blogs (db w) !! ev_blogId event = None →
  shape (worldOf (processQueue w)) = (db w, rest, true, true, now w).
Proof.
  intros Hp Hup Hq Hrow.
  rewrite (processQueue_missing_blog w event rest Hp Hup Hq Hrow).
  unfold shape. cbn. by rewrite Hup, Hp.
Qed.

Lemma timerLoop_drains ids :
  ∀ w, isProcessing w = true → processingInterval w = true →
       queueUp (redis w) = true →
       map ev_blogId (rev (queue (redis w))) = ids →
       let w' := worldOf (timerLoop (length ids) w) in
       queue (redis w') = []
       ∧ markers (db w')
         = (markers (db w) ++ rowsFor (blogs (db w)) (now w) (markerSeq (db w)) ids)%list
       ∧ markerSeq (db w')
         = markerSeq (db w)
           + Z.of_nat (length (rowsFor (blogs (db w)) (now w) (markerSeq (db w)) ids))
       ∧ processingInterval w' = true.
Proof.
  induction ids as [|id ids IH]; intros w Hp Ht Hup Hq w'; subst w'.
  - cbn. apply map_eq_nil in Hq.
    assert (queue (redis w) = []) as ->.
    { rewrite <- (rev_involutive (queue (redis w))). by rewrite Hq. }
    rewrite app_nil_r. repeat split; [lia|done].
  - destruct (rev (queue (redis w))) as [|event older] eqn:Hrev; [done|].
    cbn [map] in Hq. injection Hq as Hid Hids.
    assert (Hqueue : queue (redis w) = (rev older ++ [event])%list).
    { rewrite <- (rev_involutive (queue (redis w))), Hrev. done. }
    cbn [length]. rewrite timerLoop_next by done.
    set (w0 := set_processingInterval false w).
    pose proof (processQueue_never_throws w0) as (_ & Hflag & Harmed).
    assert (Hnext : ∃ d1, shape (worldOf (processQueue w0)) = (d1, rev older, true, true, now w)
              ∧ blogs d1 = blogs (db w)
              ∧ markers d1 ++ rowsFor (blogs (db w)) (now w) (markerSeq d1) ids
                = markers (db w)
                  ++ rowsFor (blogs (db w)) (now w) (markerSeq (db w)) (id :: ids)
              ∧ markerSeq d1
                + Z.of_nat (length (rowsFor (blogs (db w)) (now w) (markerSeq d1) ids))
                = markerSeq (db w)
                  + Z.of_nat (length (rowsFor (blogs (db w)) (now w)
                                        (markerSeq (db w)) (id :: ids)))).
    { cbn [rowsFor]. subst id.
      destruct (blogs (db w) !! ev_blogId event) as [row|] eqn:Hrow.
      - eexists. split; [apply (processQueue_shape_existing w0 event (rev older) row);
                         done|].
        cbn. split; [done|]. split; [by rewrite <- app_assoc|lia].
      - exists (db w). split; [by apply (processQueue_shape_missing w0 event (rev older))|].
        done. }
    destruct Hnext as (d1 & Hshape & Hblogs & Hrows & Hseq).
    unfold shape in Hshape. injection Hshape as Hdb Hq1 Hup1 Hp1 Hnow.
    destruct (IH (worldOf (processQueue w0))) as (H1 & H2 & H3 & H4).
    + done.
    + by apply Harmed.
    + done.
    + rewrite Hq1, rev_involutive. rewrite <- Hids. done.
    + rewrite Hdb, Hnow, Hblogs in H2, H3. rewrite H2, H3, Hrows, Hseq. done.
Qed.

(** X10: The worker drains the queue in enqueue order.  A started worker
    with its timer armed and a queue that answers, run for as many
    cycles as there are queued events, leaves the queue empty and has
    written one marker row for each event whose blog is stored, oldest
    event first, with the next values of the sequence in that order;
    events whose blog is gone are skipped without using up a version;
    and the timer is still armed. *)
Theorem worker_drains_queue_in_order w :
  isProcessing w = true →
  processingInterval w = true →
  queueUp (redis w) = true →
  let ids := map ev_blogId (rev (queue (redis w))) in
  let w' := worldOf (timerLoop (length (queue (redis w))) w) in
  queue (redis w') = []
  ∧ markers (db w')
    = (markers (db w) ++ rowsFor (blogs (db w)) (now w) (markerSeq (db w)) ids)%list
  ∧ markerSeq (db w')
    = markerSeq (db w)
      + Z.of_nat (length (rowsFor (blogs (db w)) (now w) (markerSeq (db w)) ids))
  ∧ processingInterval w' = true.
Proof.
  intros Hp Ht Hup ids w'. subst w'.
  replace (length (queue (redis w))) with (length ids)
    by (subst ids; by rewrite length_map, length_rev).
  by apply timerLoop_drains.
Qed.

Lemma worker_drains_queue_in_order_witness :
  let w := set_processingInterval true
             (set_redis (Sample.redisUp [Scenario.eventFor "b-2"; Scenario.eventFor "b-gone";
                                        Scenario.eventFor "b-1"])
                Scenario.twoBlogs) in
  map (fun r => (mr_version r, mr_blogId r)) (markers (db (worldOf (timerLoop 3 w))))
  = [(1, "b-1"); (2, "b-2")].
Proof.
  intros w.
  destruct (worker_drains_queue_in_order w) as (_ & H & _);
    [reflexivity|reflexivity|reflexivity|].
  change (length (queue (redis w))) with 3%nat in H. rewrite H. vm_compute. reflexivity.
Defined.

(** X11: Stopping the worker stops the dequeues: after [stopProcessing] the
    timer is disarmed, so the loop takes no further turn, and even a
    run of [processQueue] whose timer had already fired returns at
    once; the queue and the store are left as they are. *)
Theorem stopProcessing_halts_the_worker n w :
  let w' := worldOf (stopProcessing w) in
  resultOf (stopProcessing w) = Ok tt
  ∧ timerLoop n w' = (Ok tt, w')
  ∧ processQueue w' = (Ok tt, w')
  ∧ queue (redis w') = queue (redis w)
  ∧ db w' = db w.
Proof.
  intros w'. subst w'. unfold stopProcessing, modify. cbn [resultOf worldOf fst snd].
  split; [done|]. split; [by destruct n|]. done.
Qed.




End WorkerMore.

(** * From a new blog to the notification history *)

Section Pipeline.
Import BlogService NotificationService NotificationWorkerService Spec.
#[local] Open Scope list_scope.

Lemma create_up input author newId w :
  queueUp (redis w) = true →
  create input author newId w
  = (Ok (withAuthor (db w) (newRow newId input (u_id author) (now w))),
     set_redis {| queue := createdEvent (withAuthor (db w)
                                           (newRow newId input (u_id author) (now w)))
                           :: queue (redis w);
                  channel := channel (redis w); queueUp := queueUp (redis w);
                  busUp := busUp (redis w) |}
       (set_db {| users := users (db w);
                  blogs := <[newId := newRow newId input (u_id author) (now w)]> (blogs (db w));
                  markers := markers (db w); markerSeq := markerSeq (db w);
                  userStates := userStates (db w) |} w)).
Proof.
  intros Hup.
  unfold create, repositorySave, repositoryFindOne,
    NotificationQueueService.enqueueBlogCreatedEvent, NotificationQueueService.lpush,
    bind, tryCatch, gets, ret.
  cbn [db set_db blogs br_id newRow]. rewrite lookup_insert_eq.
  cbn [fmap option_fmap option_map redis set_db]. rewrite Hup. reflexivity.
Qed.

(** X13: A blog deleted before the worker gets to its event leaves no trace
    in the notifications.  The author creates a blog and deletes it
    again while its event is still queued; the worker's next run takes
    the event off the queue, writes no marker, uses up no version and
    logs the failure. *)
Theorem deleted_blog_yields_no_marker input author newId w :
  isProcessing w = true →
  queueUp (redis w) = true →
  queue (redis w) = [] →
  existsb (fun m => String.eqb (mr_blogId m) newId) (markers (db w)) = false →
  let w1 := worldOf (create input author newId w) in
  let w2 := worldOf (remove newId author w1) in
  let w3 := worldOf (processQueue w2) in
  resultOf (remove newId author w1) = Ok true
  ∧ resultOf (processQueue w2) = Ok tt
  ∧ markers (db w3) = markers (db w)
  ∧ markerSeq (db w3) = markerSeq (db w)
  ∧ queue (redis w3) = []
  ∧ console w3 = (LError, "Error processing queue:")
                 :: (LError, "Error processing blog created event") :: console w.
Proof.
  intros Hp Hup Hq Hfree w1 w2 w3. subst w3 w2 w1.
  rewrite (create_up _ _ _ _ Hup). cbn [worldOf snd].
  set (w1 := set_redis _ _).
  assert (Hremove :
    remove newId author w1
    = (Ok true,
       set_db {| users := users (db w1); blogs := delete newId (blogs (db w1));
                 markers := markers (db w1); markerSeq := markerSeq (db w1);
                 userStates := userStates (db w1) |} w1)).
  { unfold remove, findOne, repositoryFindOne, repositoryRemove, bind, gets, ret.
    subst w1. cbn [db set_db set_redis blogs]. rewrite lookup_insert_eq.
    cbn. rewrite String.eqb_refl. cbn. rewrite Hfree. reflexivity. }
  rewrite Hremove. cbn [resultOf worldOf fst snd]. split; [done|].
  set (w2 := set_db _ w1).
  rewrite (processQueue_missing_blog w2
             (createdEvent (withAuthor (db w) (newRow newId input (u_id author) (now w))))
             []).
  - cbn. done.
  - exact Hp.
  - exact Hup.
  - subst w2 w1. cbn. by rewrite Hq.
  - subst w2 w1. cbn. apply lookup_delete_eq.
Qed.

Lemma deleted_blog_yields_no_marker_witness :
  let w1 := worldOf (create Scenario.intro Sample.alice "b-9" Scenario.fresh) in
  let w2 := worldOf (remove "b-9" Sample.alice w1) in
  markers (db (worldOf (processQueue w2))) = []
  ∧ queue (redis (worldOf (processQueue w2))) = [].
Proof.
  intros w1 w2.
  destruct (deleted_blog_yields_no_marker Scenario.intro Sample.alice "b-9" Scenario.fresh)
    as (_ & _ & Hm & _ & Hq & _); [reflexivity..|].
  split; [exact Hm|exact Hq].
Defined.

(** X14: From the write to the history.  An author creates a blog while the
    queue answers and is empty, and the worker makes its next run.
    The marker row for the blog is then committed with the next
    version, whatever became of the publish, and [getAllMarkers]
    returns a marker for it, carrying that version and the blog as
    stored, to every user whose registration is less than a second
    after the blog's creation. *)
Theorem new_blog_reaches_the_history input author newId reader registered w :
  isProcessing w = true →
  queueUp (redis w) = true →
  queue (redis w) = [] →
  users (db w) !! u_id reader ≫= u_createdAt = Some registered →
  registered - 1000 < now w →
  let created := newRow newId input (u_id author) (now w) in
  let w1 := worldOf (create input author newId w) in
  let w2 := worldOf (processQueue w1) in
  markers (db w2)
  = markers (db w) ++ [{| mr_version := markerSeq (db w); mr_blogId := newId;
                          mr_createdAt := now w |}]
  ∧ ∃ history,
      resultOf (getAllMarkers reader w2) = Ok history
      ∧ {| markerVersion := markerSeq (db w); blogId := newId;
           blog := Some (withAuthor (db w) created); createdAt := now w |} ∈ history.
Proof.
  intros Hp Hup Hq Hreader Hreg created w1 w2. subst w2 w1.
  rewrite (create_up _ _ _ _ Hup). cbn [worldOf snd].
  set (w1 := set_redis _ _).
  set (event := createdEvent (withAuthor (db w) created)).
  assert (H1 : isProcessing w1 = true) by exact Hp.
  assert (H2 : queueUp (redis w1) = true) by exact Hup.
  assert (H3 : queue (redis w1) = [] ++ [event]) by (subst w1; cbn; by rewrite Hq).
  assert (H4 : blogs (db w1) !! ev_blogId event = Some created)
    by (subst w1; cbn; apply lookup_insert_eq).
  pose proof (processQueue_shape_existing w1 event [] created H1 H2 H3 H4) as Hshape.
  unfold Usage.shape in Hshape. injection Hshape as Hshape _ _ _ _.
  assert (Hdb : db (worldOf (processQueue w1))
    = {| users := users (db w); blogs := <[newId := created]> (blogs (db w));
         markers := markers (db w) ++ [{| mr_version := markerSeq (db w);
                                          mr_blogId := newId; mr_createdAt := now w |}];
         markerSeq := markerSeq (db w) + 1; userStates := userStates (db w) |})
    by (rewrite Hshape; subst w1; reflexivity).
  split; [by rewrite Hdb|].
  eexists. split.
  - apply (getAllMarkers_registered reader registered). rewrite Hdb. exact Hreader.
  - rewrite merge_sort_Permutation, list_elem_of_In, filter_In. split.
    + apply list_elem_of_In. rewrite Hdb. unfold allLoaded. cbn [markers].
      rewrite map_app. apply elem_of_app. right. cbn [map].
      apply list_elem_of_singleton. unfold withBlog. cbn [mr_version mr_blogId mr_createdAt blogs].
      rewrite lookup_insert_eq. reflexivity.
    + unfold withinHorizon. cbn. apply Z.ltb_lt. exact Hreg.
Qed.

Lemma new_blog_reaches_the_history_witness :
  let w1 := worldOf (create Scenario.intro Sample.alice "b-9" Scenario.fresh) in
  map mr_blogId (markers (db (worldOf (processQueue w1)))) = ["b-9"].
Proof.
  intros w1.
  destruct (new_blog_reaches_the_history Scenario.intro Sample.alice "b-9" Sample.bob 500000
              Scenario.fresh) as [H _]; [reflexivity..| |].
  - vm_compute. reflexivity.
  - fold w1 in H. rewrite H. reflexivity.
Defined.

End Pipeline.

(** * More on the queries and the read cursor *)

Section QueriesMore.
Import NotificationService AuthResolver Spec Usage.
#[local] Open Scope list_scope.

Lemma stateOrCreate_db id w :
  db (worldOf (stateOrCreate id w))
  = {| users := users (db w); blogs := blogs (db w); markers := markers (db w);
       markerSeq := markerSeq (db w); userStates := lazyStates id w |}
  ∧ resultOf (stateOrCreate id w)
    = Ok (default {| userId := id; lastSeenMarkerVersion := 0; updatedAt := now w |}
                  (userStates (db w) !! id)).
Proof.
  unfold stateOrCreate, stateFindOne, stateSave, bind, gets, ret, lazyStates.
  destruct (userStates (db w) !! id) as [st|] eqn:Hs; cbn; rewrite ?Hs; cbn; [|done].
  split; [|done]. by destruct (db w).
Qed.

(** X15: Reading never moves a cursor.  [getUnreadMarkers], [getUnreadCount]
    and [getUserState] leave the user's cursor row as it is, or create
    it at 0 when there is none; [getAllMarkers] does not even create
    it; and none of the four touches the markers, the sequence, the
    blogs or the users. *)
Theorem reading_never_moves_the_cursor user w :
  let same (d : Database) :=
    users d = users (db w) ∧ blogs d = blogs (db w)
    ∧ markers d = markers (db w) ∧ markerSeq d = markerSeq (db w) in
  let id := u_id user in
  (userStates (db (worldOf (getUnreadMarkers user w))) = lazyStates id w
   ∧ same (db (worldOf (getUnreadMarkers user w))))
  ∧ (userStates (db (worldOf (getUnreadCount user w))) = lazyStates id w
     ∧ same (db (worldOf (getUnreadCount user w))))
  ∧ (userStates (db (worldOf (getUserState user w))) = lazyStates id w
     ∧ same (db (worldOf (getUserState user w))))
  ∧ (userStates (db (worldOf (getAllMarkers user w))) = userStates (db w)
     ∧ same (db (worldOf (getAllMarkers user w))))
  ∧ cursorOf id (worldOf (getUserState user w)) = Some (currentVersion id w).
Proof.
  intros same id. subst same id. cbn beta.
  destruct (stateOrCreate_db (u_id user) w) as [Hdb Hres].
  assert (Hmarkers : db (worldOf (getUnreadMarkers user w))
                     = db (worldOf (stateOrCreate (u_id user) w))).
  { unfold getUnreadMarkers, bind, gets.
    by destruct (stateOrCreate (u_id user) w) as [[st|e] w1]. }
  assert (Hcount : db (worldOf (getUnreadCount user w))
                   = db (worldOf (stateOrCreate (u_id user) w))).
  { unfold getUnreadCount, freshCreatedAt, bind, gets, ret, consoleLine, modify.
    destruct (stateOrCreate (u_id user) w) as [[st|e] w1]; [|done]. cbn.
    by destruct (users (db w1) !! u_id user ≫= u_createdAt). }
  assert (Hall : db (worldOf (getAllMarkers user w)) = db w).
  { unfold getAllMarkers, freshCreatedAt, bind, gets, ret, consoleLine, modify.
    destruct (users (db w) !! u_id user ≫= u_createdAt); cbn; [|done].
    by destruct (merge_sort _ _). }
  rewrite Hmarkers, Hcount, Hall. unfold getUserState. rewrite Hdb. cbn.
  repeat split.
  unfold cursorOf, currentVersion, cursorOf. rewrite ?Hdb. cbn. unfold lazyStates.
  destruct (userStates (db w) !! u_id user) as [st|] eqn:Hst; cbn.
  - by rewrite Hst.
  - exact (cursorOf_stateSave (u_id user) 0 w).
Qed.

(** X16: What [markAsSeen] stored is what [getUserState] then returns. *)
Theorem markAsSeen_then_getUserState user v w :
  resultOf (getUserState user (worldOf (markAsSeen user v w)))
  = resultOf (markAsSeen user v w)
  ∧ lastSeenMarkerVersion <$> userStates (db (worldOf (markAsSeen user v w))) !! u_id user
    = Some (seenAfter (cursorOf (u_id user) w) v).
Proof.
  split; [|apply markAsSeen_stored].
  destruct (markAsSeen_returns user v w) as (st & Hr & _ & Hstored).
  rewrite Hr. generalize dependent (worldOf (markAsSeen user v w)). intros w1 Hstored.
  unfold getUserState, stateOrCreate, stateFindOne, bind, gets, ret, resultOf.
  by rewrite Hstored.
Qed.

Lemma filter_length_perm {A} (p : A → bool) (l l' : list A) :
  l ≡ₚ l' → length (List.filter p l) = length (List.filter p l').
Proof.
  induction 1 as [|x l l' _ IH|x y l|l l1 l2 _ IH1 _ IH2]; cbn; [done| | |congruence].
  - destruct (p x); cbn; congruence.
  - destruct (p x), (p y); reflexivity.
Qed.

Lemma filter_filter_length {A} (p q : A → bool) (l : list A) :
  length (List.filter p (List.filter q l)) = length (List.filter (fun x => p x && q x) l).
Proof.
  induction l as [|x l IH]; cbn; [done|].
  destruct (q x); cbn; destruct (p x); cbn; congruence.
Qed.

(** X17: The count and the history agree.  For a user of the [users]
    table, [getUnreadCount] is the number of markers in what
    [getAllMarkers] returns whose version is above the user's cursor
    (0 without a cursor row). *)
Theorem unread_count_is_unread_part_of_history user u w :
  users (db w) !! u_id user = Some u →
  ∃ history n,
    resultOf (getAllMarkers user w) = Ok history
    ∧ resultOf (getUnreadCount user w) = Ok n
    ∧ n = Z.of_nat (length (List.filter (newerThan (currentVersion (u_id user) w)) history)).
Proof.
  intros _.
  destruct (users (db w) !! u_id user ≫= u_createdAt) as [registered|] eqn:Hreg.
  - eexists. eexists. split; [by apply getAllMarkers_registered|].
    split; [by apply getUnreadCount_registered|].
    f_equal. rewrite (filter_length_perm _ _ _ (merge_sort_Permutation _ _)).
    rewrite filter_filter_length. reflexivity.
  - exists [], 0. split; [|split; [by apply getUnreadCount_unregistered|done]].
    unfold getAllMarkers, freshCreatedAt, bind, gets, ret, consoleLine, modify, resultOf.
    by rewrite Hreg.
Qed.

Lemma unread_count_is_unread_part_of_history_witness :
  ∃ history,
    resultOf (getAllMarkers Sample.alice Scenario.seenFive) = Ok history
    ∧ map markerVersion history = [6; 5; 4; 3; 2; 1]
    ∧ resultOf (getUnreadCount Sample.alice Scenario.seenFive) = Ok 1.
Proof.
  destruct (unread_count_is_unread_part_of_history Sample.alice Sample.alice
              Scenario.seenFive) as (history & n & H1 & H2 & H3); [reflexivity|].
  exists history. split; [exact H1|].
  assert (Hh : history = default [] (match getAllMarkers Sample.alice Scenario.seenFive with
                                     | (Ok h, _) => Some h
                                     | _ => None
                                     end)).
  { unfold resultOf in H1. destruct (getAllMarkers _ _) as [[h|e] w1]; cbn in *; congruence. }
  split.
  - rewrite Hh. vm_compute. reflexivity.
  - rewrite H2, H3, Hh. vm_compute. reflexivity.
Defined.

(** X18: Marking the newest marker as seen clears the unread list: after
    [markAsSeen] with a version no stored marker exceeds,
    [getUnreadMarkers] is empty and the unread count is 0. *)
Theorem markAsSeen_newest_clears_unread user v w :
  Forall (fun row => mr_version row ≤ v) (markers (db w)) →
  let w' := worldOf (markAsSeen user v w) in
  resultOf (getUnreadMarkers user w') = Ok []
  ∧ resultOf (getUnreadCount user w') = Ok 0
  ∧ resultOf (updateLastSeenMarkerVersion v user w)
    = Ok {| count := 0; rsp_lastSeenMarkerVersion := seenAfter (cursorOf (u_id user) w) v |}.
Proof.
  intros Hmax w'. subst w'.
  assert (Hnone : ∀ p, List.filter
            (fun m => newerThan (seenAfter (cursorOf (u_id user) w) v) m && p m)
            (allLoaded (db w)) = []).
  { intros p. unfold allLoaded. induction Hmax as [|row rows Hrow _ IH]; [done|].
    cbn. rewrite IH. unfold newerThan at 1. cbn [withBlog markerVersion].
    replace (seenAfter (cursorOf (u_id user) w) v <? mr_version row) with false; [done|].
    symmetry. apply Z.ltb_ge. unfold seenAfter. destruct (cursorOf _ _); lia. }
  assert (Hunread : resultOf (getUnreadMarkers user (worldOf (markAsSeen user v w))) = Ok []).
  { rewrite getUnreadMarkers_returns. unfold currentVersion.
    rewrite markAsSeen_stored, allLoaded_markAsSeen. cbn [default].
    rewrite (filter_ext _ (fun m => newerThan (seenAfter (cursorOf (u_id user) w) v) m
                                    && (fun _ => true) m))
      by (intros m; by rewrite andb_true_r).
    by rewrite Hnone. }
  assert (Hcount : resultOf (getUnreadCount user (worldOf (markAsSeen user v w))) = Ok 0).
  { destruct (users (db w) !! u_id user ≫= u_createdAt) as [registered|] eqn:Hreg.
    - rewrite (getUnreadCount_registered user registered)
        by (by rewrite users_markAsSeen).
      unfold currentVersion, unreadWithinHorizon.
      rewrite markAsSeen_stored, allLoaded_markAsSeen. cbn [default].
      pose proof (Hnone (withinHorizon registered)) as Hn. unfold newerThan in Hn.
      unfold id. by rewrite Hn.
    - apply getUnreadCount_unregistered. by rewrite users_markAsSeen. }
  split; [exact Hunread|]. split; [exact Hcount|].
  by apply updateLastSeenMarkerVersion_returns.
Qed.

Lemma markAsSeen_newest_clears_unread_witness :
  resultOf (getUnreadMarkers Sample.alice
              (worldOf (markAsSeen Sample.alice 6 Scenario.seenFive))) = Ok [].
Proof.
  destruct (markAsSeen_newest_clears_unread Sample.alice 6 Scenario.seenFive) as [H _].
  - repeat constructor; vm_compute; discriminate.
  - exact H.
Defined.

(** X31: The services take nothing from the [user] object they are
    handed but its id.  Two objects with the same id, whatever their
    other fields say (a registration instant carried in a token, a
    stale name), get the same answers and leave the same world: the
    row of [users] is read again in every call. *)
Theorem queries_use_only_the_user_id user user' v w :
  u_id user = u_id user' →
  getAllMarkers user w = getAllMarkers user' w
  ∧ getUnreadCount user w = getUnreadCount user' w
  ∧ getUnreadMarkers user w = getUnreadMarkers user' w
  ∧ getUserState user w = getUserState user' w
  ∧ markAsSeen user v w = markAsSeen user' v w
  ∧ updateLastSeenMarkerVersion v user w = updateLastSeenMarkerVersion v user' w.
Proof.
  intros Hid.
  assert (Hseen : ∀ w0, markAsSeen user v w0 = markAsSeen user' v w0)
    by (intros w0; unfold markAsSeen; by rewrite Hid).
  assert (Hcount : ∀ w0, getUnreadCount user w0 = getUnreadCount user' w0)
    by (intros w0; unfold getUnreadCount; by rewrite Hid).
  split; [unfold getAllMarkers; by rewrite Hid|].
  split; [apply Hcount|].
  split; [unfold getUnreadMarkers; by rewrite Hid|].
  split; [unfold getUserState; by rewrite Hid|].
  split; [apply Hseen|].
  unfold updateLastSeenMarkerVersion, bind. rewrite Hseen.
  destruct (markAsSeen user' v w) as [[st|e] w1]; [|done]. by rewrite Hcount.
Qed.

Lemma queries_use_only_the_user_id_witness :
  let claimed := {| u_id := "u-bob"; u_email := "old@example.org"; u_password := "";
                    u_username := "robert"; u_createdAt := Some 1; u_updatedAt := 1 |} in
  map markerVersion
    (default [] (match getAllMarkers claimed Scenario.horizon with
                 | (Ok history, _) => Some history
                 | _ => None
                 end))
  = [4; 3].
Proof.
  intros claimed.
  destruct (queries_use_only_the_user_id claimed Sample.bob 0 Scenario.horizon)
    as [H _]; [reflexivity|].
  rewrite H. vm_compute. reflexivity.
Defined.

End QueriesMore.

(** * More on the live subscriptions *)

Section Subscriptions.
Import NotificationService NotificationResolver Spec Usage.
#[local] Open Scope list_scope.

(** X20: Whatever reaches [resolve], a listener is sent an object whose
    [cursor] is its [markerVersion], a number: either the version of
    the payload with its blog object and its [Date], or the default 0
    with a null blog and the instant of the call.  This holds for
    wrapped payloads as well. *)
Theorem resolve_always_answers today payload :
  let sent := resolve today payload in
  Js.get "cursor" sent = Js.get "markerVersion" sent
  ∧ ((∃ v, Js.get "markerVersion" sent = Js.Num v ∧ 0 < v
           ∧ Js.truthy (Js.get "blog" sent) = true
           ∧ Js.isObject (Js.get "blog" sent) = true
           ∧ Js.instanceofDate (Js.get "createdAt" sent) = true)
     ∨ sent = payloadObject (Js.Num 0) Js.Null (Js.Date today) (Js.Num 0)).
Proof.
  intros sent. subst sent. unfold resolve.
  set (actual := unwrap payload). clearbody actual.
  unfold safeResolvePayload.
  destruct (negb (Js.truthy actual) || negb (Js.isObject actual)); [cbn; auto|].
  destruct (Js.get "markerVersion" actual) as [| | |n| | | | |] eqn:Hmv; try (cbn; auto).
  cbn [Js.isNumber Js.typeof Js.gt andb].
  destruct (Z.ltb_spec 0 n); cbn [negb orb]; [|cbn; auto].
  destruct (Js.truthy (Js.get "blog" actual)) eqn:Hb; cbn [andb negb orb]; [|cbn; auto].
  destruct (Js.isObject (Js.get "blog" actual)) eqn:Ho; cbn [andb negb orb]; [|cbn; auto].
  destruct (Js.instanceofDate (Js.get "createdAt" actual)) eqn:Hd; cbn [negb]; [|cbn; auto].
  cbn. replace (n =? 0) with false by lia. cbn.
  split; [done|]. left. exists n. by rewrite Hb, Ho, Hd.
Qed.

Lemma publishAll_up payloads :
  ∀ w, pubsubUp w = true →
       Forall (fun p => publishable p = true) payloads →
       resultOf (publishAll payloads w) = Ok tt
       ∧ listeners (worldOf (publishAll payloads w))
         = map (fun l => foldl (fun l p => offer (now w) p l) l payloads) (listeners w).
Proof.
  induction payloads as [|p rest IH]; intros w Hup Hall.
  - cbn. split; [done|]. by rewrite map_id.
  - apply Forall_cons in Hall as [Hp Hrest].
    cbn [publishAll]. unfold bind. rewrite (safePublishMarker_accepts _ Hp).
    unfold tryCatch, pubSubPublish. rewrite Hup.
    destruct (IH (set_listeners (map (offer (now w) p) (listeners w)) w) Hup Hrest)
      as [Hr Hl].
    split; [exact Hr|]. rewrite Hl. cbn [listeners set_listeners now].
    rewrite map_map. reflexivity.
Qed.

Lemma offers_to_new_listener today cursor payloads :
  Forall (fun p => bare p ∧ publishable p = true) payloads →
  ∀ received,
    foldl (fun l p => offer today p l) {| l_cursor := cursor; l_received := received |}
          payloads
    = {| l_cursor := cursor;
         l_received := received ++ map markerSent (List.filter (fun p => filter p cursor)
                                                          payloads) |}.
Proof.
  induction 1 as [|p rest [Hb Hp] _ IH]; intros received.
  - cbn. by rewrite app_nil_r.
  - cbn [foldl List.filter]. unfold offer at 2. cbn [l_cursor l_received].
    destruct (filter p cursor) eqn:Hf.
    + rewrite IH. rewrite (resolve_marker _ _ Hb (publishable_resolvable _ Hp)).
      cbn [map]. by rewrite <- app_assoc.
    + by rewrite IH.
Qed.

(** X21: No replay.  A subscription starts empty whatever was published
    before it, and from then on it is sent, in publish order, exactly
    the markers its cursor lets through (all of them when it gave
    none).  The subscriptions that were there before keep their places
    and are offered what they would have been offered without the
    newcomer, before and after. *)
Theorem subscription_sees_only_later_markers cursor earlier payloads w :
  pubsubUp w = true →
  Forall (fun p => bare p ∧ publishable p = true) earlier →
  Forall (fun p => bare p ∧ publishable p = true) payloads →
  let w0 := worldOf (publishAll earlier w) in
  let w1 := worldOf (subscribeToNewMarkers cursor w0) in
  let w2 := worldOf (publishAll payloads w1) in
  resultOf (subscribeToNewMarkers cursor w0) = Ok (length (listeners w))
  ∧ listeners w1
    = listeners w0 ++ [{| l_cursor := cursor; l_received := [] |}]
  ∧ resultOf (publishAll payloads w1) = Ok tt
  ∧ listeners w2
    = map (fun l => foldl (fun l p => offer (now w) p l) l (earlier ++ payloads))
          (listeners w)
      ++ [{| l_cursor := cursor;
             l_received := map markerSent
                             (List.filter (fun p => filter p cursor) payloads) |}].
Proof.
  intros Hup Hearlier Hall w0 w1 w2. subst w2 w1 w0.
  destruct (publishAll_up earlier w Hup) as [_ Hl0].
  { eapply Forall_impl; [exact Hearlier|]. by intros p [_ Hp]. }
  assert (Hup0 : pubsubUp (worldOf (publishAll earlier w)) = true).
  { clear Hl0. revert w Hup. induction Hearlier as [|p rest [_ Hp] _ IH]; intros w Hup;
      [done|].
    cbn [publishAll]. unfold bind. rewrite (safePublishMarker_accepts _ Hp).
    unfold tryCatch, pubSubPublish. rewrite Hup. by apply IH. }
  assert (Hnow0 : now (worldOf (publishAll earlier w)) = now w).
  { clear Hl0 Hup0. revert w Hup. induction Hearlier as [|p rest [_ Hp] _ IH]; intros w Hup;
      [done|].
    cbn [publishAll]. unfold bind. rewrite (safePublishMarker_accepts _ Hp).
    unfold tryCatch, pubSubPublish. rewrite Hup. by rewrite IH. }
  generalize dependent (worldOf (publishAll earlier w)). intros w0 Hl0 Hup0 Hnow0.
  unfold subscribeToNewMarkers. cbn [resultOf worldOf fst snd].
  split; [by rewrite Hl0, length_map|].
  split; [done|].
  destruct (publishAll_up payloads
              (set_listeners (listeners w0 ++ [{| l_cursor := cursor; l_received := [] |}])
                 w0))
    as [Hr Hl].
  { exact Hup0. }
  { eapply Forall_impl; [exact Hall|]. by intros p [_ Hp]. }
  split; [exact Hr|]. rewrite Hl. cbn [listeners set_listeners now].
  rewrite map_app, Hl0, map_map, Hnow0. f_equal.
  - apply map_ext. intros l. by rewrite foldl_app.
  - cbn [map]. by rewrite (offers_to_new_listener _ _ _ Hall).
Qed.

(** Marker 3 is published, then a subscription is opened at cursor 4,
    then markers 4, 5 and 6 are published: the newcomer is sent 5 and
    6, the subscription without a cursor that was there all along is
    sent all four. *)
Lemma subscription_sees_only_later_markers_witness :
  let w := Sample.world Sample.emptyDb (Sample.redisUp []) [Scenario.noCursor] in
  let before := worldOf (publishAll [Scenario.markerAt 3] w) in
  let later :=
    worldOf (publishAll [Scenario.markerAt 4; Scenario.markerAt 5; Scenario.markerAt 6]
               (worldOf (subscribeToNewMarkers (Some 4) before))) in
  map (fun l => (l_cursor l, map (Js.get "markerVersion") (l_received l))) (listeners later)
  = [(None, [Js.Num 3; Js.Num 4; Js.Num 5; Js.Num 6]); (Some 4, [Js.Num 5; Js.Num 6])].
Proof.
  intros w before later.
  destruct (subscription_sees_only_later_markers (Some 4) [Scenario.markerAt 3]
              [Scenario.markerAt 4; Scenario.markerAt 5; Scenario.markerAt 6] w)
    as (_ & _ & _ & H).
  - reflexivity.
  - repeat constructor.
  - repeat constructor.
  - fold before later in H. rewrite H. vm_compute. reflexivity.
Defined.

End Subscriptions.

(** * The client's notification store *)

Section ClientStore.
Import NotificationStore.
#[local] Open Scope list_scope.

Lemma insertDesc_perm x l : insertDesc x l ≡ₚ x :: l.
Proof.
  induction l as [|y l IH]; cbn; [done|].
  destruct (m_version y <=? m_version x); [done|].
  rewrite IH. apply Permutation_swap.
Qed.

Lemma sortDesc_perm l : sortDesc l ≡ₚ l.
Proof.
  induction l as [|x l IH]; cbn; [done|].
  change (foldr insertDesc [] l) with (sortDesc l).
  by rewrite insertDesc_perm, IH.
Qed.

Lemma insertDesc_sorted x l :
  StronglySorted newestFirst l → StronglySorted newestFirst (insertDesc x l).
Proof.
  induction 1 as [|y l Hl IH Hy]; cbn; [repeat constructor|].
  destruct (Z.leb_spec (m_version y) (m_version x)).
  - constructor; [by constructor|]. constructor; [done|].
    eapply Forall_impl; [exact Hy|]. unfold newestFirst. cbn. lia.
  - constructor; [exact IH|]. rewrite insertDesc_perm. constructor; [|exact Hy].
    unfold newestFirst. lia.
Qed.

Lemma sortDesc_sorted l : StronglySorted newestFirst (sortDesc l).
Proof.
  induction l as [|x l IH]; cbn; [constructor|]. by apply insertDesc_sorted.
Qed.

Lemma sorted_nodup_descending l :
  StronglySorted newestFirst l → NoDup (map m_version l) → descending l.
Proof.
  induction 1 as [|x l Hl IH Hx]; cbn; intros Hnd; [constructor|].
  apply NoDup_cons in Hnd as [Hnotin Hnd].
  constructor; [by apply IH|].
  apply Forall_forall. intros y Hy.
  assert (m_version y ≤ m_version x) by (by eapply Forall_forall in Hx).
  assert (m_version y ≠ m_version x).
  { intros Heq. apply Hnotin. rewrite <- Heq. apply list_elem_of_fmap. eauto. }
  lia.
Qed.

Lemma descending_nodup l : descending l → NoDup (map m_version l).
Proof.
  induction 1 as [|x l Hl IH Hx]; cbn; [constructor|].
  apply NoDup_cons. split; [|exact IH].
  intros Hin. apply list_elem_of_fmap in Hin as (y & Heq & Hy).
  eapply Forall_forall in Hx; [|exact Hy]. lia.
Qed.

Lemma sortDesc_descending l : NoDup (map m_version l) → descending (sortDesc l).
Proof.
  intros Hnd. apply sorted_nodup_descending; [apply sortDesc_sorted|].
  by rewrite sortDesc_perm.
Qed.

Lemma holds_spec v ms : holds v ms = true ↔ v ∈ map m_version ms.
Proof.
  unfold holds. rewrite existsb_exists, list_elem_of_fmap. split.
  - intros (m & Hm & Heq). exists m. apply Z.eqb_eq in Heq.
    split; [done|by apply list_elem_of_In].
  - intros (m & -> & Hm). exists m. split; [by apply list_elem_of_In|apply Z.eqb_refl].
Qed.

Lemma holds_perm v l l' : l ≡ₚ l' → holds v l = holds v l'.
Proof.
  intros Hp. apply eq_true_iff_eq. rewrite !holds_spec. by rewrite Hp.
Qed.

Lemma countUnread_perm seen l l' : l ≡ₚ l' → countUnread seen l = countUnread seen l'.
Proof. intros Hp. unfold countUnread. f_equal. by apply filter_length_perm. Qed.

Lemma onNext_holds m s : holds (m_version m) (s_markers (fst (onNext (Some m) s))) = true.
Proof.
  unfold onNext.
  destruct (s_wasConnected s); cbn [negb set_wasConnected s_markers s_lastSeenMarkerVersion
                                    set_markers s_unreadNotificationCount].
  all: destruct (holds (m_version m) (s_markers s)) eqn:Hh; cbn [fst]; [done|].
  all: destruct (s_lastSeenMarkerVersion s <? m_version m);
    cbn [fst s_markers set_unread set_markers set_wasConnected].
  all: rewrite (holds_perm _ _ _ (sortDesc_perm _)); cbn; by rewrite Z.eqb_refl.
Qed.

Lemma onNext_connected r s : s_wasConnected (fst (onNext r s)) = true.
Proof.
  unfold onNext.
  destruct (s_wasConnected s) eqn:Hc; cbn [negb set_wasConnected s_markers
                                           s_lastSeenMarkerVersion set_markers];
    destruct r as [m|]; cbn [fst]; try done.
  all: destruct (holds (m_version m) (s_markers s)); cbn [fst]; try done.
  all: by destruct (s_lastSeenMarkerVersion s <? m_version m).
Qed.

(** X22: A marker the store already holds is ignored, so delivering a
    marker twice is the same as delivering it once: the list, the
    unread count and the cursor are those of the first delivery. *)
Theorem onNext_twice_is_once m s :
  (holds (m_version m) (s_markers s) = true →
   s_markers (fst (onNext (Some m) s)) = s_markers s
   ∧ s_unreadNotificationCount (fst (onNext (Some m) s)) = s_unreadNotificationCount s)
  ∧ fst (onNext (Some m) (fst (onNext (Some m) s))) = fst (onNext (Some m) s).
Proof.
  split.
  - intros Hh. unfold onNext.
    destruct (s_wasConnected s); cbn [negb set_wasConnected s_markers]; by rewrite Hh.
  - pose proof (onNext_holds m s) as Hh. pose proof (onNext_connected (Some m) s) as Hc.
    generalize dependent (fst (onNext (Some m) s)). intros s' Hh Hc.
    unfold onNext. rewrite Hc. cbn [negb]. by rewrite Hh.
Qed.

Lemma NoDup_map_filter {A B} (f : A → B) (p : A → bool) (l : list A) :
  NoDup (map f l) → NoDup (map f (List.filter p l)).
Proof.
  induction l as [|x l IH]; cbn; [done|].
  intros [Hx Hl]%NoDup_cons. destruct (p x); cbn; [|by apply IH].
  apply NoDup_cons. split; [|by apply IH].
  intros Hin. apply Hx. apply list_elem_of_fmap in Hin as (y & -> & Hy).
  apply list_elem_of_fmap. exists y. split; [done|].
  apply list_elem_of_In, filter_In in Hy as [Hy _]. by apply list_elem_of_In.
Qed.

Lemma onNext_markers r s :
  s_markers (fst (onNext r s))
  = match r with
    | Some m => if holds (m_version m) (s_markers s) then s_markers s
                else sortDesc (m :: s_markers s)
    | None => s_markers s
    end.
Proof.
  unfold onNext.
  destruct (s_wasConnected s); cbn [negb set_wasConnected s_markers s_lastSeenMarkerVersion
                                    set_markers]; destruct r as [m|]; cbn [fst]; try done.
  all: destruct (holds (m_version m) (s_markers s)); cbn [fst]; try done.
  all: by destruct (s_lastSeenMarkerVersion s <? m_version m).
Qed.

Lemma fetchUnreadMarkers_markers fetched s :
  s_markers (fetchUnreadMarkers (Data fetched) s)
  ≡ₚ List.filter (fun m => negb (holds (m_version m) (s_markers s))) fetched ++ s_markers s.
Proof.
  unfold fetchUnreadMarkers. cbn [set_loading s_markers].
  destruct (List.filter _ fetched) as [|m new] eqn:Hnew; cbn; [done|].
  change (insertDesc m (foldr insertDesc [] (new ++ s_markers s)))
    with (sortDesc (m :: new ++ s_markers s)).
  by rewrite sortDesc_perm.
Qed.

(** X23: The list the client shows stays newest first with no version
    twice.  The subscription handler keeps it so for whatever it is
    handed, and so does the merge of fetched unread markers when the
    fetched list has no version twice; a full fetch of such a list
    puts the store in that state whatever it held. *)
Theorem store_stays_descending r fetched s :
  descending (s_markers s) →
  NoDup (map m_version fetched) →
  descending (s_markers (fst (onNext r s)))
  ∧ descending (s_markers (fetchUnreadMarkers (Data fetched) s))
  ∧ ∀ s0, descending (s_markers (fetchAllMarkers (Data fetched) s0)).
Proof.
  intros Hdesc Hnd. split; [|split].
  - rewrite onNext_markers. destruct r as [m|]; [|done].
    destruct (holds (m_version m) (s_markers s)) eqn:Hh; [done|].
    apply sortDesc_descending. cbn. apply NoDup_cons. split.
    + rewrite <- holds_spec. by rewrite Hh.
    + by apply descending_nodup.
  - unfold fetchUnreadMarkers. cbn [set_loading s_markers].
    destruct (List.filter _ fetched) as [|m new] eqn:Hnew; cbn [s_markers set_unread
      set_loading set_markers]; [done|].
    apply sortDesc_descending. rewrite <- Hnew, map_app.
    apply NoDup_app. split; [|split; [|by apply descending_nodup]].
    + by apply NoDup_map_filter.
    + intros v Hv Hheld. apply list_elem_of_fmap in Hv as (x & -> & Hx).
      apply list_elem_of_In, filter_In in Hx as [_ Hx].
      apply holds_spec in Hheld. by rewrite Hheld in Hx.
  - intros s0. unfold fetchAllMarkers. cbn. by apply sortDesc_descending.
Qed.

Lemma store_stays_descending_witness :
  descending (s_markers (fst (onNext (Some (Scenario.clientMarker 4)) Scenario.client)))
  ∧ map m_version (s_markers (fst (onNext (Some (Scenario.clientMarker 4)) Scenario.client)))
    = [5; 4; 3].
Proof.
  destruct (store_stays_descending (Some (Scenario.clientMarker 4)) [] Scenario.client)
    as [H _].
  - repeat constructor; vm_compute; reflexivity.
  - constructor.
  - split; [exact H|reflexivity].
Defined.

(** X24: The badge stays in step with the list.  If the unread count the
    store keeps equals the number of listed markers above the cursor,
    it still does after the subscription handler has run, whether the
    marker was new, already held or absent; and after a fetch of all
    markers or of the unread ones it does so whatever it was before. *)
Theorem unread_count_follows_the_list r fetched s :
  s_unreadNotificationCount s = unreadCount s →
  s_unreadNotificationCount (fst (onNext r s)) = unreadCount (fst (onNext r s))
  ∧ (∀ s0, s_unreadNotificationCount (fetchAllMarkers (Data fetched) s0)
           = unreadCount (fetchAllMarkers (Data fetched) s0))
  ∧ (∀ s0, s_unreadNotificationCount (fetchUnreadMarkers (Data fetched) s0)
           = unreadCount (fetchUnreadMarkers (Data fetched) s0)).
Proof.
  intros Hsync. split; [|split].
  - unfold unreadCount in *. unfold onNext.
    destruct (s_wasConnected s); cbn [negb set_wasConnected s_markers s_lastSeenMarkerVersion
                                      set_markers s_unreadNotificationCount];
      destruct r as [m|]; cbn [fst]; try done.
    all: destruct (holds (m_version m) (s_markers s)); cbn [fst]; try done.
    all: destruct (s_lastSeenMarkerVersion s <? m_version m) eqn:Hnew;
      cbn [fst s_markers set_unread set_markers set_wasConnected s_lastSeenMarkerVersion
           s_unreadNotificationCount];
      rewrite (countUnread_perm _ _ _ (sortDesc_perm _)), Hsync;
      unfold countUnread; cbn [List.filter]; rewrite Hnew; cbn [length]; lia.
  - intros s0. reflexivity.
  - intros s0. unfold fetchUnreadMarkers, unreadCount.
    cbn [set_loading s_markers s_lastSeenMarkerVersion].
    by destruct (List.filter _ fetched).
Qed.

Lemma unread_count_follows_the_list_witness :
  s_unreadNotificationCount (fst (onNext (Some (Scenario.clientMarker 4)) Scenario.client))
  = 2.
Proof.
  destruct (unread_count_follows_the_list (Some (Scenario.clientMarker 4)) [] Scenario.client)
    as [H _]; [reflexivity|].
  rewrite H. reflexivity.
Defined.

(** X25: Merging fetched unread markers loses nothing and doubles nothing:
    the list afterwards is made of the markers held before and of the
    fetched markers whose version was not held, so every fetched
    version is held afterwards. *)
Theorem fetchUnreadMarkers_merges fetched s :
  s_markers (fetchUnreadMarkers (Data fetched) s)
  ≡ₚ List.filter (fun m => negb (holds (m_version m) (s_markers s))) fetched ++ s_markers s
  ∧ (∀ m, m ∈ s_markers s → m ∈ s_markers (fetchUnreadMarkers (Data fetched) s))
  ∧ (∀ m, m ∈ fetched →
          holds (m_version m) (s_markers (fetchUnreadMarkers (Data fetched) s)) = true).
Proof.
  pose proof (fetchUnreadMarkers_markers fetched s) as Hp.
  split; [exact Hp|]. split.
  - intros m Hm. rewrite Hp. apply elem_of_app. by right.
  - intros m Hm. rewrite (holds_perm _ _ _ Hp).
    destruct (holds (m_version m) (s_markers s)) eqn:Hh.
    + apply holds_spec. rewrite map_app. apply elem_of_app. right. by apply holds_spec.
    + apply holds_spec. rewrite map_app. apply elem_of_app. left.
      apply list_elem_of_fmap. exists m. split; [done|].
      apply list_elem_of_In, filter_In. split; [by apply list_elem_of_In|by rewrite Hh].
Qed.

Lemma foldl_max_ge l : ∀ a, a ≤ foldl Z.max a l ∧ Forall (fun x => x ≤ foldl Z.max a l) l.
Proof.
  induction l as [|x l IH]; intros a; cbn; [split; [lia|constructor]|].
  destruct (IH (Z.max a x)) as [H1 H2]. split; [lia|]. constructor; [lia|exact H2].
Qed.

Lemma countUnread_none seen ms :
  Forall (fun m => m_version m ≤ seen) ms → countUnread seen ms = 0.
Proof.
  unfold countUnread. induction 1 as [|m ms Hm _ IH]; cbn; [done|].
  by replace (seen <? m_version m) with false by lia.
Qed.

(** X26: Marking all as seen clears the client's list.  The client sends
    the highest version it holds; whatever cursor the server had, the
    cursor it answers with is at least that version, so afterwards no
    listed marker counts as unread.  With an empty list nothing is
    sent and nothing changes. *)
Theorem markAllAsSeen_clears_the_list user w s :
  let server v := answer (resultOf (AuthResolver.updateLastSeenMarkerVersion v user w)) in
  let s' := fst (markAllAsSeen server s) in
  unreadCount s' = 0
  ∧ snd (markAllAsSeen server s) = false
  ∧ s_markers s' = s_markers s
  ∧ match s_markers s with
    | [] => s' = s
    | first :: rest =>
        s_lastSeenMarkerVersion s'
        = Spec.seenAfter (Spec.cursorOf (u_id user) w) (highestVersion first rest)
        ∧ Ok (s_unreadNotificationCount s')
          = resultOf (NotificationService.getUnreadCount user
                        (worldOf (NotificationService.markAsSeen user
                                    (highestVersion first rest) w)))
    end.
Proof.
  intros server s'. subst s' server. unfold markAllAsSeen.
  destruct (s_markers s) as [|first rest] eqn:Hms.
  - cbn. unfold unreadCount. rewrite Hms. done.
  - destruct (getUnreadCount_total user
                (worldOf (NotificationService.markAsSeen user (highestVersion first rest) w)))
      as [n Hn].
    rewrite (updateLastSeenMarkerVersion_returns _ _ _ n Hn).
    cbn [answer markAsSeen fst snd]. rewrite Hn.
    cbn [s_markers s_lastSeenMarkerVersion s_unreadNotificationCount set_unread set_lastSeen
         AuthResolver.count AuthResolver.rsp_lastSeenMarkerVersion].
    split; [|by rewrite Hms].
    unfold unreadCount. cbn. rewrite Hms. apply countUnread_none.
    assert (Hge : highestVersion first rest
                  ≤ Spec.seenAfter (Spec.cursorOf (u_id user) w) (highestVersion first rest))
      by (unfold Spec.seenAfter; destruct (Spec.cursorOf _ _); lia).
    destruct (foldl_max_ge (map m_version rest) (m_version first)) as [H1 H2].
    fold (highestVersion first rest) in H1, H2.
    constructor; [lia|].
    rewrite Forall_fmap in H2. eapply Forall_impl; [exact H2|]. cbn. lia.
Qed.

Lemma ofServer_versions history ms seen :
  mapM ofServer history = Some ms →
  length (List.filter (fun m => seen <? m_version m) ms)
  = length (List.filter (NotificationService.newerThan seen) history).
Proof.
  intros Hmap. apply mapM_Some in Hmap.
  induction Hmap as [|x y l k Hxy _ IH]; cbn; [done|].
  assert (m_version y = markerVersion x) as ->.
  { unfold ofServer in Hxy. destruct (blog x) as [b|]; [|done]. cbn in Hxy.
    destruct (b_author b); [|done]. by injection Hxy as <-. }
  unfold NotificationService.newerThan at 1.
  destruct (seen <? markerVersion x); cbn; congruence.
Qed.

(** X27: The badge agrees with the server.  When the client knows the
    server's cursor and fetches the history, the unread count it works
    out from the fetched list is the count [getUnreadCount] gives, so
    the count fetched alongside changes nothing, whichever of the two
    answers comes last. *)
Theorem fetched_badge_agrees_with_server user w history ms s :
  resultOf (NotificationService.getAllMarkers user w) = Ok history →
  mapM ofServer history = Some ms →
  s_lastSeenMarkerVersion s = Spec.currentVersion (u_id user) w →
  let fetched :=
    fetchAllMarkers (markersResponse (resultOf (NotificationService.getAllMarkers user w))) s in
  let counted :=
    answer (resultOf (NotificationService.getUnreadCount user w)) in
  counted = Data (s_unreadNotificationCount fetched)
  ∧ s_unreadNotificationCount (fetchUnreadNotificationCount counted fetched)
    = s_unreadNotificationCount fetched
  ∧ s_unreadNotificationCount
      (fetchAllMarkers (markersResponse (resultOf (NotificationService.getAllMarkers user w)))
         (fetchUnreadNotificationCount counted s))
    = s_unreadNotificationCount fetched.
Proof.
  intros Hhist Hmap Hseen fetched counted. subst fetched counted.
  rewrite Hhist. cbn [markersResponse]. rewrite Hmap.
  assert (Hcount : resultOf (NotificationService.getUnreadCount user w)
            = Ok (Z.of_nat (length (List.filter
                    (NotificationService.newerThan (Spec.currentVersion (u_id user) w))
                    history)))).
  { destruct (users (db w) !! u_id user ≫= u_createdAt) as [registered|] eqn:Hreg.
    - rewrite (getUnreadCount_registered user registered) by done.
      rewrite (getAllMarkers_registered user registered) in Hhist by done.
      injection Hhist as <-.
      rewrite (filter_length_perm _ _ _ (merge_sort_Permutation _ _)).
      by rewrite filter_filter_length.
    - rewrite getUnreadCount_unregistered by done.
      assert (history = []) as ->; [|done].
      unfold NotificationService.getAllMarkers, NotificationService.freshCreatedAt,
        bind, gets, ret, consoleLine, modify, resultOf in Hhist.
      rewrite Hreg in Hhist. cbn in Hhist. congruence. }
  rewrite Hcount. cbn [answer fetchUnreadNotificationCount].
  assert (Hbadge : ∀ s0, s_lastSeenMarkerVersion s0 = Spec.currentVersion (u_id user) w →
            s_unreadNotificationCount (fetchAllMarkers (Data ms) s0)
            = Z.of_nat (length (List.filter
                 (NotificationService.newerThan (Spec.currentVersion (u_id user) w))
                 history))).
  { intros s0 H0. unfold fetchAllMarkers. cbn. rewrite H0.
    rewrite (countUnread_perm _ _ _ (sortDesc_perm _)). unfold countUnread.
    by rewrite (ofServer_versions history). }
  rewrite !Hbadge by done. done.
Qed.

Lemma fetched_badge_agrees_with_server_witness :
  let fetched :=
    fetchAllMarkers
      (markersResponse
         (resultOf (NotificationService.getAllMarkers Sample.alice Scenario.seenFive)))
      (set_lastSeen 5 Scenario.client) in
  s_unreadNotificationCount fetched = 1
  ∧ answer (resultOf (NotificationService.getUnreadCount Sample.alice Scenario.seenFive))
    = Data (s_unreadNotificationCount fetched).
Proof.
  intros fetched. split; [vm_compute; reflexivity|].
  eapply (fetched_badge_agrees_with_server Sample.alice Scenario.seenFive).
  - vm_compute. reflexivity.
  - vm_compute. reflexivity.
  - reflexivity.
Defined.

End ClientStore.

(** * The subscriber of the Redis channel *)

Section Subscriber.
Import NotificationService NotificationResolver Spec Usage.
#[local] Open Scope list_scope.

(** What the engine's [Date.parse] makes of a string that is not the
    ISO string of an instant. *)
Variable parse : string → option Z.

Lemma newDate_is_a_date v : Js.instanceofDate (Js.newDate parse v) = true.
Proof.
  destruct v as [| |b|n|s|t|t|fields|]; cbn; try done.
  - by destruct (Z.abs n <=? 8640000000000000).
  - by destruct (parse s).
Qed.

Lemma rebuild_createdAt v p :
  rebuild parse v = Some p →
  Js.get "createdAt" p = Js.newDate parse (Js.get "createdAt" v)
  ∧ Js.get "markerVersion" p = Js.get "markerVersion" v.
Proof.
  unfold rebuild. destruct (Js.prop "blog" v ≫= Js.prop "createdAt"); [|done].
  cbn. by intros [= <-].
Qed.

(** X28: The subscriber's handler never throws, whatever the message, and
    never touches the store, the queue or the channel.  A message on
    another channel is ignored.  One that does not parse, or whose
    payload cannot be built, is logged and offered to no subscription,
    and so is one whose payload fails the publish checks or meets a
    failing PubSub.  Every other payload is offered to the
    subscriptions.  The [Date] check is no filter here: [new Date]
    makes a [Date] of whatever the message carries, an Invalid Date
    when the field is missing, so a message without [createdAt] that
    is sound otherwise is published. *)
Theorem onMessage_never_throws channel parsed w :
  let out := onMessage parse channel parsed w in
  let failed := (LError, "Error parsing or publishing marker message:") in
  resultOf out = Ok tt
  ∧ db (worldOf out) = db w
  ∧ redis (worldOf out) = redis w
  ∧ (channel ≠ "new_blog_notifications" → out = (Ok tt, w))
  ∧ (channel = "new_blog_notifications" →
     match parsed ≫= rebuild parse with
     | None =>
         listeners (worldOf out) = listeners w
         ∧ console (worldOf out) = failed :: console w
     | Some payload =>
         Js.instanceofDate (Js.get "createdAt" payload) = true
         ∧ if publishable payload
           then if pubsubUp w
                then listeners (worldOf out) = map (offer (now w) payload) (listeners w)
                     ∧ console (worldOf out) = console w
                else listeners (worldOf out) = listeners w
                     ∧ console (worldOf out)
                       = failed :: (LError, "Error publishing to local PubSub:") :: console w
           else listeners (worldOf out) = listeners w
                ∧ console (worldOf out) = failed :: console w
     end).
Proof.
  intros out failed. subst out failed. unfold onMessage.
  destruct (String.eqb_spec channel "new_blog_notifications") as [->|Hch]; [|done].
  destruct (parsed ≫= rebuild parse) as [p|] eqn:Hrebuild.
  - assert (Hdb : keeps db (tryCatch (safePublishMarker p)
              (fun error => consoleLine LError "Error parsing or publishing marker message:")))
      by (repeat first [ apply safePublishMarker_keeps | apply consoleLine_keeps
                       | keeps_step ]; done).
    assert (Hredis : keeps redis (tryCatch (safePublishMarker p)
              (fun error => consoleLine LError "Error parsing or publishing marker message:")))
      by (repeat first [ apply safePublishMarker_keeps | apply consoleLine_keeps
                       | keeps_step ]; done).
    split; [unfold tryCatch; by destruct (safePublishMarker p w) as [[[]|e] w1]|].
    split; [apply Hdb|]. split; [apply Hredis|]. split; [done|]. intros _.
    split.
    { destruct parsed as [v|]; [|done]. cbn in Hrebuild.
      destruct (rebuild_createdAt v p Hrebuild) as [-> _]. apply newDate_is_a_date. }
    destruct (publishable p) eqn:Hp.
    + unfold tryCatch at 1. rewrite (safePublishMarker_accepts _ Hp).
      unfold tryCatch, pubSubPublish. by destruct (pubsubUp w).
    + destruct (safePublishMarker_rejects p w Hp) as [msg Hmsg].
      unfold tryCatch. by rewrite Hmsg.
  - cbn. repeat split; done.
Qed.

Ltac by_key k key :=
  destruct (String.eqb_spec k key) as [->|?]; [reflexivity|].

Lemma channel_round_trip m row author registered :
  blog m = Some {| b_row := row; b_author := Some author |} →
  u_createdAt author = Some registered →
  ∃ message,
    redisPayload (payloadOf m) = Some message
    ∧ rebuild parse (Js.json message)
      = Some (echoPayload m {| b_row := row; b_author := Some author |}).
Proof.
  intros Hblog Hreg. unfold payloadOf. rewrite Hblog.
  eexists. split.
  { unfold redisPayload, redisAuthor, markerPayload, blogObject, authorObject, userObject.
    cbn. rewrite Hreg. cbn. reflexivity. }
  unfold rebuild, rebuildAuthor, echoPayload, echoAuthor, authorObject, userObject, Js.or.
  cbn. rewrite Hreg.
  destruct (br_authorId row) as [|c rest]; cbn;
    destruct (markerVersion m =? 0); cbn; reflexivity.
Qed.

(** X29: What survives the trip through the channel.  What
    [safePublishToRedis] sends for the marker of a blog with its
    author, once serialized and parsed, is rebuilt by the subscriber
    into a payload with the same version, cursor and instant, the
    dates restored.  Its blog has the same value under every key but
    [author], and its author the same value under every key but
    [password]: the entity that was loaded carries the password hash,
    the message does not, so the rebuilt author has none.  The rebuilt
    payload passes the publish checks exactly when the original
    does. *)
Theorem marker_survives_the_channel m row author registered :
  blog m = Some {| b_row := row; b_author := Some author |} →
  u_createdAt author = Some registered →
  let b := {| b_row := row; b_author := Some author |} in
  let sent := Js.get "blog" (payloadOf m) in
  let back := Js.get "blog" (echoPayload m b) in
  ∃ message,
    redisPayload (payloadOf m) = Some message
    ∧ rebuild parse (Js.json message) = Some (echoPayload m b)
    ∧ Js.get "markerVersion" (echoPayload m b) = Js.get "markerVersion" (payloadOf m)
    ∧ Js.get "cursor" (echoPayload m b) = Js.get "cursor" (payloadOf m)
    ∧ Js.get "createdAt" (echoPayload m b) = Js.get "createdAt" (payloadOf m)
    ∧ sameFieldsBut "author" back sent
    ∧ sameFieldsBut "password" (Js.get "author" back) (Js.get "author" sent)
    ∧ Js.get "password" (Js.get "author" sent) = Js.Str (u_password author)
    ∧ Js.get "password" (Js.get "author" back) = Js.Undefined
    ∧ publishable (echoPayload m b) = publishable (payloadOf m).
Proof.
  intros Hblog Hreg b sent back. subst b sent back.
  destruct (channel_round_trip m row author registered Hblog Hreg) as (message & H1 & H2).
  exists message. split; [exact H1|]. split; [exact H2|].
  unfold payloadOf. rewrite Hblog.
  split; [reflexivity|]. split; [reflexivity|]. split; [reflexivity|].
  split; [|split; [|split; [reflexivity|split; [reflexivity|reflexivity]]]].
  - intros k Hk. unfold echoPayload, markerPayload, blogObject. cbn [Js.get Js.assoc String.eqb
      Ascii.eqb Bool.eqb].
    by_key k "id". by_key k "title". by_key k "content". by_key k "createdAt".
    by_key k "updatedAt". by_key k "authorId".
    cbn. repeat match goal with
                | H : k ≠ _ |- _ => apply String.eqb_neq in H; rewrite H; clear H
                end.
    reflexivity.
  - intros k Hk. unfold echoPayload, echoAuthor, markerPayload, blogObject, authorObject,
      userObject. cbn [Js.get Js.assoc String.eqb Ascii.eqb Bool.eqb b_author].
    by_key k "id". by_key k "email". by_key k "username". by_key k "createdAt".
    by_key k "updatedAt".
    cbn. repeat match goal with
                | H : k ≠ _ |- _ => apply String.eqb_neq in H; rewrite H; clear H
                end.
    reflexivity.
Qed.

Lemma createMarker_with_bus entity row author message w :
  Callers.sequenceOk (db w) →
  blogs (db w) !! Blog_id entity = Some row →
  users (db w) !! br_authorId row = Some author →
  br_id row ≠ "" →
  br_authorId row ≠ "" →
  pubsubUp w = true →
  busUp (redis w) = true →
  let m := {| markerVersion := markerSeq (db w); blogId := Blog_id entity;
              blog := Some {| b_row := row; b_author := Some author |};
              createdAt := now w |} in
  redisPayload (payloadOf m) = Some message →
  let w1 := worldOf (createMarker entity w) in
  listeners w1 = map (offer (now w) (payloadOf m)) (listeners w)
  ∧ channel (redis w1) = channel (redis w) ++ [message]
  ∧ pubsubUp w1 = true
  ∧ now w1 = now w.
Proof.
  intros Hseq Hrow Hauthor Hid Haid Hup Hbus m Hmsg w1. subst w1.
  rewrite (createMarker_loads entity row author w Hseq Hrow Hauthor Haid).
  rewrite (markerSave_stored entity w) by (eapply blogStored_row; eauto). fold m.
  assert (Hp : publishable (payloadOf m) = true)
    by (apply payload_publishable; [destruct Hseq; lia|done|done]).
  unfold bind at 1. rewrite (safePublishMarker_accepts _ Hp).
  unfold tryCatch at 1, pubSubPublish. cbn [markerSave worldOf snd pubsubUp set_db].
  rewrite Hup. unfold bind, safePublishToRedis, tryCatch, redisPublish, ret.
  rewrite Hmsg. cbn. rewrite ?Hup. cbn. rewrite ?Hbus. cbn. done.
Qed.

(** X30: A marker is delivered twice on the instance that created it.
    With the PubSub working and the Redis publish accepted,
    [createMarker] offers the marker to the local subscriptions and
    sends it on the channel; the same instance's subscriber receives
    that message and publishes it locally again.  So every
    subscription that took the marker takes it a second time, with
    the same version, and the others take neither. *)
Theorem created_marker_is_delivered_twice entity row author registered w :
  Callers.sequenceOk (db w) →
  blogs (db w) !! Blog_id entity = Some row →
  users (db w) !! br_authorId row = Some author →
  br_id row ≠ "" →
  br_authorId row ≠ "" →
  pubsubUp w = true →
  busUp (redis w) = true →
  u_createdAt author = Some registered →
  let b := {| b_row := row; b_author := Some author |} in
  let m := {| markerVersion := markerSeq (db w); blogId := Blog_id entity;
              blog := Some b; createdAt := now w |} in
  let w1 := worldOf (createMarker entity w) in
  ∃ message handler,
    channel (redis w1) = channel (redis w) ++ [message]
    ∧ onMessage parse "new_blog_notifications" (Some (Js.json message)) = handler
    ∧ resultOf (handler w1) = Ok tt
    ∧ Js.get "markerVersion" (markerSent (echoPayload m b))
      = Js.get "markerVersion" (markerSent (payloadOf m))
    ∧ listeners (worldOf (handler w1))
      = map (fun l =>
               if filter (payloadOf m) (l_cursor l)
               then deliver (markerSent (echoPayload m b))
                      (deliver (markerSent (payloadOf m)) l)
               else l)
            (listeners w).
Proof.
  intros Hseq Hrow Hauthor Hid Haid Hup Hbus Hreg b m w1.
  destruct (channel_round_trip m row author registered eq_refl Hreg)
    as (message & Hmsg & Hrebuild).
  assert (Hpub : publishable (echoPayload m b) = publishable (payloadOf m)) by done.
  fold b in Hrebuild.
  destruct (createMarker_with_bus entity row author message w
              Hseq Hrow Hauthor Hid Haid Hup Hbus Hmsg) as (Hl & Hch & Hup1 & Hnow).
  fold w1 in Hl, Hch, Hup1, Hnow.
  change (listeners w1 = map (offer (now w) (payloadOf m)) (listeners w)) in Hl.
  assert (Hp : publishable (payloadOf m) = true)
    by (apply payload_publishable; [destruct Hseq; lia|done|done]).
  assert (Hp' : publishable (echoPayload m b) = true) by (by rewrite Hpub).
  exists message. eexists. split; [exact Hch|]. split; [reflexivity|].
  unfold onMessage. cbn [String.eqb Ascii.eqb Bool.eqb mbind option_bind].
  rewrite Hrebuild.
  split; [unfold tryCatch; by destruct (safePublishMarker _ w1) as [[[]|e] w2]|].
  split; [reflexivity|].
  rewrite (safePublishMarker_accepts _ Hp'). unfold tryCatch at 1, tryCatch, pubSubPublish.
  rewrite Hup1. cbn [worldOf snd listeners set_listeners]. rewrite Hl, Hnow, map_map.
  assert (Hsame : ∀ c, filter (echoPayload m b) c = filter (payloadOf m) c) by done.
  apply map_ext. intros [c received]. unfold offer, deliver. cbn [l_cursor l_received].
  rewrite (resolve_marker _ (payloadOf m)) by (by try apply publishable_resolvable).
  destruct (filter (payloadOf m) c) eqn:Hf; cbn [l_cursor l_received]; rewrite Hsame, Hf.
  - by rewrite (resolve_marker _ (echoPayload m b))
      by (by try apply publishable_resolvable).
  - done.
Qed.

End Subscriber.

(** A message without [createdAt], sound otherwise: the subscription
    without a cursor is sent the marker, with an Invalid Date. *)
Lemma onMessage_never_throws_witness :
  let message :=
    Js.Obj [("markerVersion", Js.Num 7);
            ("blog", Js.Obj [("id", Js.Str "b-1"); ("title", Js.Str "Intro");
                             ("createdAt", Js.IsoStr 600001);
                             ("updatedAt", Js.IsoStr 600001);
                             ("authorId", Js.Str "u-alice")])] in
  let out := NotificationService.onMessage Scenario.strictParse "new_blog_notifications"
               (Some message) Scenario.twoBlogs in
  map (fun l => map (Js.get "createdAt") (l_received l)) (listeners (worldOf out))
  = [[Js.InvalidDate]]
  ∧ console (worldOf out) = [].
Proof.
  intros message out.
  destruct (onMessage_never_throws Scenario.strictParse "new_blog_notifications"
              (Some message) Scenario.twoBlogs) as (_ & _ & _ & _ & H).
  specialize (H eq_refl).
  destruct (Some message ≫= NotificationService.rebuild Scenario.strictParse)
    as [p|] eqn:Hr; [|discriminate Hr].
  cbn in Hr. injection Hr as <-. destruct H as [_ H].
  simpl (Spec.publishable _) in H. simpl (pubsubUp _) in H. cbv iota in H.
  destruct H as [Hl Hc]. subst out. rewrite Hl, Hc. split; reflexivity.
Defined.

(** Marker 7 for blog b-1 of alice: the message is built, it is
    rebuilt into the echo, and the payload that went out locally
    carries her password hash. *)
Lemma marker_survives_the_channel_witness :
  let m := {| markerVersion := 7; blogId := "b-1";
              blog := Some (Scenario.blogOf "b-1" 600001); createdAt := 700000 |} in
  ∃ message,
    NotificationService.redisPayload (NotificationService.payloadOf m) = Some message
    ∧ NotificationService.rebuild Scenario.strictParse (Js.json message)
      = Some (Usage.echoPayload m (Scenario.blogOf "b-1" 600001))
    ∧ Js.get "password" (Js.get "author" (Js.get "blog" (NotificationService.payloadOf m)))
      = Js.Str "$2b$10$alice".
Proof.
  intros m.
  destruct (marker_survives_the_channel Scenario.strictParse m
              (Sample.blogRow "b-1" 600001) Sample.alice 100000)
    as (message & H1 & H2 & _ & _ & _ & _ & _ & H3 & _); [reflexivity|reflexivity|].
  exists message. split; [exact H1|]. split; [exact H2|exact H3].
Defined.

(** One subscription without a cursor: after [createMarker] and the
    handling of its own message it has been sent two items. *)
Lemma created_marker_is_delivered_twice_witness :
  let w1 := worldOf (NotificationService.createMarker (Scenario.blogOf "b-1" 600001)
                       Scenario.twoBlogs) in
  ∃ message handler,
    channel (redis w1) = [message]
    ∧ NotificationService.onMessage Scenario.strictParse "new_blog_notifications"
        (Some (Js.json message)) = handler
    ∧ map (fun l => length (l_received l)) (listeners (worldOf (handler w1))) = [2%nat].
Proof.
  intros w1.
  destruct (created_marker_is_delivered_twice Scenario.strictParse
              (Scenario.blogOf "b-1" 600001) (Sample.blogRow "b-1" 600001) Sample.alice
              100000 Scenario.twoBlogs)
    as (message & handler & H1 & H2 & _ & _ & H3).
  - vm_compute. split; [discriminate|reflexivity].
  - reflexivity.
  - reflexivity.
  - discriminate.
  - discriminate.
  - reflexivity.
  - reflexivity.
  - reflexivity.
  - exists message, handler. split; [exact H1|]. split; [exact H2|].
    fold w1 in H3. rewrite H3. reflexivity.
Defined.
